(** * Trust-IoT: a shallow embedding of the allocation-and-trust engine

    The development follows [src/trustiot/core.py] (entity classes and
    [Simulation]) and [src/trustiot/simulation.py] (the benchmark
    aggregator).

    Conventions of the embedding.
    - Python floats are read as exact numbers: rationals [Q] in the engine
      (so that every definition evaluates), reals [R] in the aggregator
      (which needs a square root).  The engine does not round.  Where a
      statement says which host a comparison of utilities keeps, the loop
      is written a second time over an arbitrary evaluation of the utility
      expression ([greedy_branch], [game_theory_branch]), of which exact
      arithmetic and IEEE 754 arithmetic ([binary64]) are two instances.
    - Exceptions are explicit: a computation that may raise returns
      [result A].
    - Objects that the engine mutates in place ([Simulation.devices],
      [Simulation.servers]) live in the [Simulation] record, which is
      threaded through [run]; a reference to a device object is its id,
      resolved as the engine resolves it (first match in [devices]).
    - Draws from the global random generators are inputs: the cost matrix,
      the deadlines, and a stream [draws] read by [random.choice]. *)

From Stdlib Require Import String Ascii ZArith Znat QArith Qminmax Qpower Qround Qabs.
From Stdlib Require Import List Bool Arith.
From Stdlib Require Import Permutation Sorted Reals Lia Lra Psatz.
Import ListNotations.

Open Scope Q_scope.

(** ** Numbers *)

Definition Qltb (x y : Q) : bool := negb (Qle_bool y x).

(** [max(a, b)] and [min(a, b)] of Python: the first argument is kept
    unless the second is strictly better. *)
Definition py_max (a b : Q) : Q := if Qltb a b then b else a.
Definition py_min (a b : Q) : Q := if Qltb b a then b else a.

(** [sum(xs)]: left-to-right accumulation from 0. *)
Definition py_sum (xs : list Q) : Q := fold_left Qplus xs 0.

Definition Qlen {A} (l : list A) : Q := inject_Z (Z.of_nat (length l)).

(** ** Exceptions *)

Inductive exn : Set :=
| IndexError
| KeyError
| StopIteration
| ValueError
| ZeroDivisionError.

Inductive result (A : Type) : Type :=
| Ok (a : A)
| Raise (e : exn).
Arguments Ok {A} a.
Arguments Raise {A} e.

Definition bind {A B} (m : result A) (k : A -> result B) : result B :=
  match m with
  | Ok a => k a
  | Raise e => Raise e
  end.

Notation "x <- m ;; k" := (bind m (fun x => k))
  (at level 61, m at next level, right associativity).
Notation "' p <- m ;; k" := (bind m (fun p => k))
  (at level 61, p pattern, m at next level, right associativity).

(** ** Work items: [SensorTask] and [IoTEdgeModule] *)

Inductive DeviceClass : Set := SensorTask | IoTEdgeModule.

(** The fields the engine reads or writes.  [source_mote_id] and
    [ram_request] are stored by the constructors and never read. *)
Record Device : Type := mkDevice {
  dev_class : DeviceClass;
  dev_id : string;
  cpu_request : Q;
  weight_latency : Q;
  weight_energy : Q;
  deadline : Q;
  is_malicious : bool;
  trust_score : Q;
  consecutive_rejections : nat
}.

(** [SensorTask.__init__]; [drawn_deadline] is the value of
    [random.uniform(25, 50)]. *)
Definition SensorTask_init (task_id : string) (voltage_reading : Q)
    (drawn_deadline : Q) (malicious : bool) : Device :=
  {| dev_class := SensorTask;
     dev_id := task_id;
     cpu_request := voltage_reading;
     weight_latency := 0.8;
     weight_energy := 0.2;
     deadline := drawn_deadline;
     is_malicious := malicious;
     trust_score := if malicious then 0.1 else 1.0;
     consecutive_rejections := 0 |}.

(** [IoTEdgeModule.__init__]; [drawn_deadline] is the value of
    [random.uniform(20, 40)]. *)
Definition IoTEdgeModule_init (module_id : string) (cpu : Q)
    (drawn_deadline : Q) (malicious : bool) : Device :=
  {| dev_class := IoTEdgeModule;
     dev_id := module_id;
     cpu_request := cpu;
     weight_latency := 0.8;
     weight_energy := 0.2;
     deadline := drawn_deadline;
     is_malicious := malicious;
     trust_score := if malicious then 0.1 else 1.0;
     consecutive_rejections := 0 |}.

Definition set_trust (d : Device) (t : Q) (c : nat) : Device :=
  {| dev_class := dev_class d;
     dev_id := dev_id d;
     cpu_request := cpu_request d;
     weight_latency := weight_latency d;
     weight_energy := weight_energy d;
     deadline := deadline d;
     is_malicious := is_malicious d;
     trust_score := t;
     consecutive_rejections := c |}.

(** [calculate_utility(self, latency, energy)], the same in both classes. *)
Definition device_calculate_utility (d : Device) (latency energy : Q) : Q :=
  - (weight_latency d * latency + weight_energy d * energy).

(** [SensorTask.update_trust_score]. *)
Definition SensorTask_update_trust_score (d : Device) (is_assigned : bool) : Device :=
  if is_assigned then
    if is_malicious d then
      let c := S (consecutive_rejections d) in
      let penalty_factor := 0.90 - 0.05 * inject_Z (Z.of_nat c) in
      set_trust d (py_max 0.1 (trust_score d * penalty_factor)) c
    else
      set_trust d (py_min 1.0 (trust_score d * 1.05)) 0
  else
    set_trust d (trust_score d * 0.995) (consecutive_rejections d).

(** [IoTEdgeModule.update_trust_score]. *)
Definition IoTEdgeModule_update_trust_score (d : Device) (is_assigned : bool) : Device :=
  if is_assigned then
    if is_malicious d then
      let c := S (consecutive_rejections d) in
      let penalty_factor := 0.90 - 0.05 * inject_Z (Z.of_nat c) in
      set_trust d (py_max 0.1 (trust_score d * penalty_factor)) c
    else
      set_trust d (py_min 1.0 (trust_score d * 1.05)) 0
  else
    set_trust d (trust_score d * 0.995) (consecutive_rejections d).

(** [device.update_trust_score(...)]: dispatch on the object's class. *)
Definition update_trust_score (d : Device) (is_assigned : bool) : Device :=
  match dev_class d with
  | SensorTask => SensorTask_update_trust_score d is_assigned
  | IoTEdgeModule => IoTEdgeModule_update_trust_score d is_assigned
  end.

(** ** Hosts: [Mote] and [AzureIoTEdgeDevice] *)

Inductive ServerClass : Set := Mote | AzureIoTEdgeDevice.

(** [hosted] is [hosted_tasks] of a [Mote] and [hosted_modules] of an
    [AzureIoTEdgeDevice]: a list of references to device objects.
    [capacity_ram] is stored by the second constructor and never read. *)
Record Server : Type := mkServer {
  srv_class : ServerClass;
  srv_id : string;
  capacity_cpu : Q;
  hosted : list string;
  load_balancing_weight : Q
}.

(** [Mote.__init__]. *)
Definition Mote_init (mote_id : string) (capacity : Q) : Server :=
  {| srv_class := Mote;
     srv_id := mote_id;
     capacity_cpu := if Qltb 0 capacity then capacity else 0.5;
     hosted := [];
     load_balancing_weight := 1.5 |}.

(** [AzureIoTEdgeDevice.__init__]. *)
Definition AzureIoTEdgeDevice_init (server_id : string) (capacity : Q) : Server :=
  {| srv_class := AzureIoTEdgeDevice;
     srv_id := server_id;
     capacity_cpu := if Qltb 0 capacity then capacity else 0.5;
     hosted := [];
     load_balancing_weight := 1.5 |}.

Definition set_hosted (s : Server) (h : list string) : Server :=
  {| srv_class := srv_class s;
     srv_id := srv_id s;
     capacity_cpu := capacity_cpu s;
     hosted := h;
     load_balancing_weight := load_balancing_weight s |}.

(** [calculate_utility(self, tasks_to_host)], the same in both classes.
    The division by [capacity_cpu] raises when the capacity is zero. *)
Definition server_calculate_utility (s : Server) (tasks_to_host : list Device) : result Q :=
  match tasks_to_host with
  | [] => Ok 0
  | _ =>
    if Qeq_bool (capacity_cpu s) 0 then Raise ZeroDivisionError
    else
      let potential_load := py_sum (map cpu_request tasks_to_host) / capacity_cpu s in
      let avg_trust := py_sum (map trust_score tasks_to_host) / Qlen tasks_to_host in
      let load_penalty := load_balancing_weight s * (potential_load ^ 2) in
      Ok (avg_trust - load_penalty)
  end.

(** ** Dictionaries in insertion order *)

Definition dict (V : Type) : Type := list (string * V).

Fixpoint dict_get {V} (k : string) (d : dict V) : option V :=
  match d with
  | [] => None
  | (k', v) :: r => if String.eqb k k' then Some v else dict_get k r
  end.

(** [d[k] = v]: an existing key keeps its position. *)
Fixpoint dict_set {V} (k : string) (v : V) (d : dict V) : dict V :=
  match d with
  | [] => [(k, v)]
  | (k', v') :: r =>
    if String.eqb k k' then (k', v) :: r else (k', v') :: dict_set k v r
  end.

Definition dict_keys {V} (d : dict V) : list string := map fst d.

Definition mem_id (k : string) (l : list string) : bool :=
  existsb (String.eqb k) l.

(** ** The simulation object *)

Record CostEntry : Type := mkCost { latency : Q; energy : Q }.

(** [cost_matrix] is filled in [__init__] for every pair of a device id
    and a server id, from draws of the random generators; it is read only
    at such pairs. *)
Record Simulation : Type := mkSimulation {
  devices : list Device;
  servers : list Server;
  cost_matrix : string -> string -> CostEntry
}.

Definition set_devices (sim : Simulation) (ds : list Device) : Simulation :=
  {| devices := ds; servers := servers sim; cost_matrix := cost_matrix sim |}.

Definition set_servers (sim : Simulation) (ss : list Server) : Simulation :=
  {| devices := devices sim; servers := ss; cost_matrix := cost_matrix sim |}.

(** [next((d for d in self.devices if d.id == dev_id), None)]. *)
Definition find_device (sim : Simulation) (i : string) : option Device :=
  find (fun d => String.eqb (dev_id d) i) (devices sim).

(** [next((s for s in self.servers if s.id == srv_id), None)]. *)
Definition find_server (sim : Simulation) (i : string) : option Server :=
  find (fun s => String.eqb (srv_id s) i) (servers sim).

(** The objects a host's [hosted] list refers to. *)
Definition hosted_objects (sim : Simulation) (s : Server) : list Device :=
  flat_map (fun i => match find_device sim i with
                     | Some d => [d]
                     | None => []
                     end) (hosted s).

(** [get_current_cpu_load(self)]. *)
Definition get_current_cpu_load (sim : Simulation) (s : Server) : Q :=
  if Qeq_bool (capacity_cpu s) 0 || match hosted s with [] => true | _ => false end
  then 0
  else py_sum (map cpu_request (hosted_objects sim s)) / capacity_cpu s.

(** [Simulation._get_dynamic_cost]; a [processing_time] of [None] is
    [float('inf')]. *)
Definition _get_dynamic_cost (sim : Simulation) (device : Device) (server : Server)
  : Q * Q * option Q :=
  let base_cost := cost_matrix sim (dev_id device) (srv_id server) in
  let load_factor := 1 + get_current_cpu_load sim server in
  let processing_time :=
    if Qltb 0 (capacity_cpu server)
    then Some (cpu_request device / capacity_cpu server)
    else None in
  let latency := latency base_cost * load_factor in
  (latency, energy base_cost, processing_time).

(** An assignment: device id to server id or [None]. *)
Definition Assignments : Type := dict (option string).

(** [Simulation._assign_devices_to_servers]: both loops.  An entry whose
    server or device is not found is passed over. *)
Fixpoint append_hosted (srv_ident dev_ident : string) (ss : list Server) : list Server :=
  match ss with
  | [] => []
  | s :: r =>
    if String.eqb (srv_id s) srv_ident
    then set_hosted s (hosted s ++ [dev_ident]) :: r
    else s :: append_hosted srv_ident dev_ident r
  end.

Definition assign_entry (sim : Simulation) (e : string * option string) : Simulation :=
  match snd e with
  | None => sim
  | Some srv_ident =>
    match find_server sim srv_ident, find_device sim (fst e) with
    | Some _, Some _ => set_servers sim (append_hosted srv_ident (fst e) (servers sim))
    | _, _ => sim
    end
  end.

Definition _assign_devices_to_servers (sim : Simulation) (assignments : Assignments)
  : result Simulation :=
  let sim0 := set_servers sim (map (fun s => set_hosted s []) (servers sim)) in
  Ok (fold_left assign_entry assignments sim0).

(** ** The three strategies *)

(** The values of [algorithm] that [run] documents. *)
Inductive Algorithm : Set := game_theory | greedy | random.

(** [utility > max_utility] where [max_utility] starts at [-float('inf')],
    written [None]. *)
Definition exceeds (utility : Q) (max_utility : option Q) : bool :=
  match max_utility with
  | None => true
  | Some m => Qltb m utility
  end.

(** The inner loop over [self.servers] that keeps
    [(best_server_id, max_utility)]; [utility_of] is the loop body's
    utility expression. *)
Definition best_server (utility_of : Server -> Q) (ss : list Server)
  : option string * option Q :=
  fold_left (fun acc server =>
               let utility := utility_of server in
               if exceeds utility (snd acc)
               then (Some (srv_id server), Some utility)
               else acc)
            ss (None, None).

(** Utility of the proposal phase: dynamic cost, times the trust score. *)
Definition proposal_utility (sim : Simulation) (device : Device) (server : Server) : Q :=
  let '(latency, energy, _) := _get_dynamic_cost sim device server in
  device_calculate_utility device latency energy * trust_score device.

(** Utility of the greedy branch: the entries of [cost_matrix] as stored. *)
Definition greedy_utility (sim : Simulation) (device : Device) (server : Server) : Q :=
  let latency := latency (cost_matrix sim (dev_id device) (srv_id server)) in
  let energy := energy (cost_matrix sim (dev_id device) (srv_id server)) in
  device_calculate_utility device latency energy.

Fixpoint foldM {A S : Type} (f : S -> A -> result S) (l : list A) (s : S) : result S :=
  match l with
  | [] => Ok s
  | a :: r => s' <- f s a ;; foldM f r s'
  end.

(** [proposals[best_server_id].append(device)]. *)
Definition propose (sim : Simulation) (proposals : dict (list Device)) (device : Device)
  : result (dict (list Device)) :=
  match fst (best_server (proposal_utility sim device) (servers sim)) with
  | None => Ok proposals
  | Some best_server_id =>
    match dict_get best_server_id proposals with
    | None => Raise KeyError
    | Some l => Ok (dict_set best_server_id (l ++ [device]) proposals)
    end
  end.

(** [sort(key=lambda d: d.trust_score, reverse=True)]: stable, so items of
    equal trust keep their order. *)
Fixpoint insert_by_trust (d : Device) (l : list Device) : list Device :=
  match l with
  | [] => [d]
  | h :: t =>
    if Qle_bool (trust_score h) (trust_score d)
    then d :: h :: t
    else h :: insert_by_trust d t
  end.

Definition sort_by_trust (l : list Device) : list Device :=
  fold_right insert_by_trust [] l.

(** The acceptance scan of one host over its sorted proposers. *)
Fixpoint accept_scan (server : Server) (requesting_devices : list Device)
    (accepted_devices : list Device) (best_utility : Q) : result (list Device) :=
  match requesting_devices with
  | [] => Ok accepted_devices
  | device :: rest =>
    let potential_new_set := accepted_devices ++ [device] in
    u <- server_calculate_utility server potential_new_set ;;
    if Qltb best_utility u
    then
      best_utility' <- server_calculate_utility server potential_new_set ;;
      accept_scan server rest potential_new_set best_utility'
    else accept_scan server rest accepted_devices best_utility
  end.

(** One pass of the loop [for server in self.servers] of the acceptance
    phase.  The in-place sort of [proposals[server.id]] is not written
    back: the list is read again only for a second host of the same id,
    and sorting a sorted list leaves it as it is. *)
Definition accept_at (proposals : dict (list Device)) (final_assignments : Assignments)
    (server : Server) : result Assignments :=
  match dict_get (srv_id server) proposals with
  | None => Raise KeyError
  | Some [] => Ok final_assignments
  | Some requesting_devices =>
    let sorted := sort_by_trust requesting_devices in
    best_utility <- server_calculate_utility server [] ;;
    accepted_devices <- accept_scan server sorted [] best_utility ;;
    Ok (fold_left (fun fa device => dict_set (dev_id device) (Some (srv_id server)) fa)
                  accepted_devices final_assignments)
  end.

Definition game_theory_assignments (sim : Simulation) : result Assignments :=
  let proposals0 : dict (list Device) :=
    fold_left (fun p srv => dict_set (srv_id srv) [] p) (servers sim) [] in
  proposals <- foldM (propose sim) (devices sim) proposals0 ;;
  foldM (accept_at proposals) (servers sim) [].

(** [random.choice(seq)] with the [k]-th draw of the generator. *)
Definition random_choice {A} (draw : nat) (seq : list A) : result A :=
  match seq with
  | [] => Raise IndexError
  | x :: _ => Ok (nth (draw mod List.length seq) seq x)
  end.

Section Engine.

(** The generator behind [random.choice], and [numpy.std]. *)
Variable draws : nat -> nat.
Variable np_std : list Q -> Q.

(** The loop [for device in self.devices] of the greedy/random branch;
    the state is the assignment and the number of draws made. *)
Definition baseline_step (algorithm : Algorithm) (sim : Simulation)
    (st : Assignments * nat) (device : Device) : result (Assignments * nat) :=
  let '(assignments, pos) := st in
  match algorithm with
  | greedy =>
    let best_server_id := fst (best_server (greedy_utility sim device) (servers sim)) in
    Ok (dict_set (dev_id device) best_server_id assignments, pos)
  | _ =>
    chosen <- random_choice (draws pos) (servers sim) ;;
    Ok (dict_set (dev_id device) (Some (srv_id chosen)) assignments, S pos)
  end.

(** The assignment computed at the top of an iteration. *)
Definition decide (algorithm : Algorithm) (sim : Simulation) (pos : nat)
  : result (Assignments * nat) :=
  match algorithm with
  | game_theory =>
    a <- game_theory_assignments sim ;; Ok (a, pos)
  | _ => foldM (baseline_step algorithm sim) (devices sim) ([], pos)
  end.

(** ** History and the recorded part of an iteration *)

Record History : Type := mkHistory {
  avg_device_utility : list Q;
  server_load_std_dev : list Q;
  avg_trust_honest : list Q;
  avg_trust_malicious : list Q;
  completion_ratio : list Q;
  deadline_adherence : list Q;
  malicious_accepted : list Q;
  total_energy : list Q
}.

Definition empty_history : History := mkHistory [] [] [] [] [] [] [] [].

(** The eight keys of the [history] dictionary. *)
Definition metrics : list (History -> list Q) :=
  [avg_device_utility; server_load_std_dev; avg_trust_honest; avg_trust_malicious;
   completion_ratio; deadline_adherence; malicious_accepted; total_energy].

(** [if history[key]: history[key].append(history[key][0])]. *)
Definition replicate_first (l : list Q) : list Q :=
  match l with
  | [] => []
  | x :: _ => l ++ [x]
  end.

Definition replicate_history (h : History) : History :=
  {| avg_device_utility := replicate_first (avg_device_utility h);
     server_load_std_dev := replicate_first (server_load_std_dev h);
     avg_trust_honest := replicate_first (avg_trust_honest h);
     avg_trust_malicious := replicate_first (avg_trust_malicious h);
     completion_ratio := replicate_first (completion_ratio h);
     deadline_adherence := replicate_first (deadline_adherence h);
     malicious_accepted := replicate_first (malicious_accepted h);
     total_energy := replicate_first (total_energy h) |}.

(** The accumulators of the metrics loop. *)
Record Totals : Type := mkTotals {
  t_total_utility : Q;
  t_deadlines_met : nat;
  t_malicious_accepted : nat;
  t_total_energy : Q;
  t_assigned_count : nat
}.

Definition Qnat (n : nat) : Q := inject_Z (Z.of_nat n).

(** [(latency + proc_time) <= device.deadline], with [None] for infinity. *)
Definition meets_deadline (latency : Q) (proc_time : option Q) (dl : Q) : bool :=
  match proc_time with
  | None => false
  | Some p => Qle_bool (latency + p) dl
  end.

(** Body of [for dev_id, srv_id in assignments.items()]; the two [next]
    calls have no default and raise when nothing is found. *)
Definition metrics_step (sim : Simulation) (t : Totals) (e : string * option string)
  : result Totals :=
  match snd e with
  | None => Ok t
  | Some srv_ident =>
    match find_device sim (fst e) with
    | None => Raise StopIteration
    | Some device =>
      match find_server sim srv_ident with
      | None => Raise StopIteration
      | Some server =>
        let '(latency, energy, proc_time) := _get_dynamic_cost sim device server in
        Ok {| t_total_utility := t_total_utility t + device_calculate_utility device latency energy;
              t_deadlines_met :=
                if meets_deadline latency proc_time (deadline device)
                then S (t_deadlines_met t) else t_deadlines_met t;
              t_malicious_accepted :=
                if is_malicious device
                then S (t_malicious_accepted t) else t_malicious_accepted t;
              t_total_energy := t_total_energy t + energy;
              t_assigned_count := S (t_assigned_count t) |}
      end
    end
  end.

(** [numpy.mean] of a non-empty list. *)
Definition np_mean (l : list Q) : Q := py_sum l / Qlen l.

Definition is_empty {A} (l : list A) : bool :=
  match l with [] => true | _ => false end.

(** The trust update: [device.id in assigned_ids] decides the branch. *)
Definition update_all_trust (sim : Simulation) (assignments : Assignments) : Simulation :=
  let assigned_ids := dict_keys assignments in
  set_devices sim
    (map (fun device => update_trust_score device (mem_id (dev_id device) assigned_ids))
         (devices sim)).

(** Lines "Update trust scores and record history" to the end of the loop
    body. *)
Definition record_iteration (sim : Simulation) (h : History) (assignments : Assignments)
  : result (Simulation * History) :=
  let sim1 := update_all_trust sim assignments in
  t <- foldM (metrics_step sim1) assignments (mkTotals 0 0 0 0 0) ;;
  let v_avg_device_utility :=
    if is_empty (devices sim1) then 0 else t_total_utility t / Qlen (devices sim1) in
  sim2 <- _assign_devices_to_servers sim1 assignments ;;
  let server_loads := map (get_current_cpu_load sim2) (servers sim2) in
  let honest_trust := map trust_score (filter (fun d => negb (is_malicious d)) (devices sim2)) in
  let malicious_trust := map trust_score (filter is_malicious (devices sim2)) in
  let num_malicious_total :=
    if is_empty malicious_trust then 0%nat else List.length malicious_trust in
  Ok (sim2,
      {| avg_device_utility := avg_device_utility h ++ [v_avg_device_utility];
         server_load_std_dev := server_load_std_dev h ++ [np_std server_loads];
         avg_trust_honest :=
           avg_trust_honest h ++ [if is_empty honest_trust then 1.0 else np_mean honest_trust];
         avg_trust_malicious :=
           avg_trust_malicious h
             ++ [if is_empty malicious_trust then 0.1 else np_mean malicious_trust];
         completion_ratio :=
           completion_ratio h
             ++ [if is_empty (devices sim2) then 0
                 else Qnat (t_assigned_count t) / Qlen (devices sim2)];
         deadline_adherence :=
           deadline_adherence h
             ++ [if (0 <? t_assigned_count t)%nat
                 then Qnat (t_deadlines_met t) / Qnat (t_assigned_count t) else 0];
         malicious_accepted :=
           malicious_accepted h
             ++ [if (0 <? num_malicious_total)%nat
                 then Qnat (t_malicious_accepted t) / Qnat num_malicious_total else 0];
         total_energy := total_energy h ++ [t_total_energy t] |}).

(** ** [Simulation.run] *)

Record State : Type := mkState {
  st_sim : Simulation;
  st_history : History;
  st_pos : nat
}.

(** The body of [for i in range(iterations)]. *)
Definition iteration (algorithm : Algorithm) (i : nat) (st : State) : result State :=
  '(assignments, pos) <- decide algorithm (st_sim st) (st_pos st) ;;
  let replicated :=
    match algorithm with
    | game_theory => false
    | _ => (0 <? i)%nat
    end in
  if replicated
  then Ok (mkState (st_sim st) (replicate_history (st_history st)) pos)
  else
    '(sim', h') <- record_iteration (st_sim st) (st_history st) assignments ;;
    Ok (mkState sim' h' pos).

Fixpoint run_loop (algorithm : Algorithm) (n i : nat) (st : State) : result State :=
  match n with
  | O => Ok st
  | S n' => st' <- iteration algorithm i st ;; run_loop algorithm n' (S i) st'
  end.

(** [run(self, algorithm, iterations)]: the returned state holds the
    history and the objects as the run leaves them. *)
Definition run (algorithm : Algorithm) (iterations : nat) (sim : Simulation) (pos : nat)
  : result State :=
  run_loop algorithm iterations 0 (mkState sim empty_history pos).

End Engine.

(** * Definitions used in the statements *)

(** [n] trust updates in a row, the item assigned at each. *)
Definition assigned_updates (n : nat) (d : Device) : Device :=
  Nat.iter n (fun x => update_trust_score x true) d.

(** Geometric lower bound of an honest item's score before it is capped. *)
Fixpoint growth (n : nat) : Q :=
  match n with
  | O => 0.1
  | S k => growth k * 1.05
  end.

(** One host of capacity 2.0 and two honest items of demand 1.0, as the
    constructors build them (trust 1.0). *)
Definition c2_sim : Simulation :=
  mkSimulation
    [SensorTask_init "task-0" 1.0 30 false; SensorTask_init "task-1" 1.0 30 false]
    [Mote_init "mote-0" 2.0]
    (fun _ _ => mkCost 10 2).

(** Utility of an item at a host under the load-scaled latency, without
    the trust multiplier. *)
Definition dynamic_utility (sim : Simulation) (device : Device) (server : Server) : Q :=
  let '(latency, energy, _) := _get_dynamic_cost sim device server in
  device_calculate_utility device latency energy.

(** What the scan over the hosts returns: nothing for no host, else the
    first host of maximal utility. *)
Inductive first_max (f : Server -> Q) (ss : list Server) : option string * option Q -> Prop :=
| first_max_none : ss = [] -> first_max f ss (None, None)
| first_max_some (pre post : list Server) (s : Server) :
    ss = pre ++ s :: post ->
    (forall x, In x pre -> f x < f s) ->
    (forall x, In x post -> f x <= f s) ->
    first_max f ss (Some (srv_id s), Some (f s)).

(** The host id the greedy branch stores for one item, and the assignment
    its loop over the items builds. *)
Definition greedy_choice (sim : Simulation) (device : Device) : option string :=
  fst (best_server (greedy_utility sim device) (servers sim)).

Definition greedy_assignments (sim : Simulation) : Assignments :=
  fold_left (fun a d => dict_set (dev_id d) (greedy_choice sim d) a) (devices sim) [].

(** ** The greedy loop for any evaluation of [calculate_utility]

    [device.calculate_utility(latency, energy)] is a float expression, and
    which host the scan keeps depends on how it is rounded.  The loop over
    the items of the greedy branch is written here for the value
    [calculate_utility device latency energy] that the method returns,
    whatever the arithmetic; [greedy_assignments] is the instance with
    exact arithmetic. *)
Section Evaluation.

Variable calculate_utility : Device -> Q -> Q -> Q.

(** [device.calculate_utility(latency, energy)] on the two entries read
    from [self.cost_matrix[device.id][server.id]]. *)
Definition stored_utility (sim : Simulation) (device : Device) (server : Server) : Q :=
  calculate_utility device
    (latency (cost_matrix sim (dev_id device) (srv_id server)))
    (energy (cost_matrix sim (dev_id device) (srv_id server))).

(** [for device in self.devices: ... assignments[device.id] = best_server_id]. *)
Definition greedy_branch (sim : Simulation) : Assignments :=
  fold_left (fun assignments device =>
               dict_set (dev_id device)
                        (fst (best_server (stored_utility sim device) (servers sim)))
                        assignments)
            (devices sim) [].

End Evaluation.

(** ** IEEE 754 double precision

    The value of a float operation whose exact result is [q]: [q] rounded
    to the nearest number with a 53-bit significand, a tie going to the
    even significand.  Overflow and subnormal numbers are left out. *)
Definition round_half_even (q : Q) : Z :=
  let f := Qfloor q in
  match Qcompare (q - inject_Z f) (1 # 2) with
  | Lt => f
  | Gt => (f + 1)%Z
  | Eq => if Z.even f then f else (f + 1)%Z
  end.

Definition binary64 (q : Q) : Q :=
  match Qnum q with
  | Z0 => 0
  | _ =>
    let a := Qabs q in
    let e0 := (Z.log2 (Qnum a) - Z.log2 (Zpos (Qden a)) - 52)%Z in
    let e := if Qle_bool (Qpower 2 52) (a / Qpower 2 e0) then e0 else (e0 - 1)%Z in
    let m := inject_Z (round_half_even (a / Qpower 2 e)) * Qpower 2 e in
    Qred (if Qle_bool 0 q then m else - m)
  end.

(** [-(self.weight_latency * latency + self.weight_energy * energy)] as
    the interpreter evaluates it: every product and the sum are rounded,
    the weights are the floats nearest to the literals. *)
Definition binary64_calculate_utility (d : Device) (latency energy : Q) : Q :=
  - binary64 (binary64 (binary64 (weight_latency d) * binary64 latency)
              + binary64 (binary64 (weight_energy d) * binary64 energy)).

(** Two hosts of capacity 2.0; the first carries [task-1] (load 1.0), the
    second is idle.  For [task-0] the stored latencies are 10 and 15. *)
Definition c3_sim : Simulation :=
  mkSimulation
    [SensorTask_init "task-0" 1.0 30 false; SensorTask_init "task-1" 2.0 30 false]
    [set_hosted (Mote_init "mote-0" 2.0) ["task-1"%string]; Mote_init "mote-1" 2.0]
    (fun _ srv => if String.eqb srv "mote-0" then mkCost 10 1 else mkCost 15 1).

(** One item and two hosts with stored costs (3, 1) and (2, 5): the two
    utilities have the same exact value. *)
Definition c3_close_sim : Simulation :=
  mkSimulation
    [SensorTask_init "task-0" 1.0 30 false]
    [Mote_init "mote-0" 2.0; Mote_init "mote-1" 2.0]
    (fun _ srv => if String.eqb srv "mote-0" then mkCost 3 1 else mkCost 2 5).

(** Every entry with a host names an item and a host of the population. *)
Definition known_ids (sim : Simulation) (a : Assignments) : Prop :=
  forall k v, In (k, Some v) a ->
    In k (map dev_id (devices sim)) /\ In v (map srv_id (servers sim)).

(** The entries that [_assign_devices_to_servers] acts on: no [None]
    value, and both objects found. *)
Definition known_entry (sim : Simulation) (e : string * option string) : bool :=
  match snd e with
  | None => true
  | Some v =>
    match find_server sim v, find_device sim (fst e) with
    | Some _, Some _ => true
    | _, _ => false
    end
  end.

(** Two states of one simulation: same host ids in the same order, same
    item objects. *)
Definition same_objects (sim sim1 : Simulation) : Prop :=
  map srv_id (servers sim1) = map srv_id (servers sim) /\ devices sim1 = devices sim.

(** The items an assignment maps to the host [sid], in insertion order. *)
Definition assigned_to (a : Assignments) (sid : string) : list string :=
  map fst (filter (fun e => match snd e with
                            | Some v => String.eqb v sid
                            | None => false
                            end) a).

(** What the proposal phase maintains: a list for every host id, holding
    items of the population only. *)
Definition proposals_ok (sim : Simulation) (p : dict (list Device)) : Prop :=
  (forall v, In v (map srv_id (servers sim)) -> exists l, dict_get v p = Some l)
  /\ (forall k l d, In (k, l) p -> In d l -> In d (devices sim)).

(** The iterations that run the trust update, the metrics and the
    materialisation: all of them under [game_theory], the first one under
    [greedy] and [random]. *)
Definition executed (algorithm : Algorithm) (i : nat) : Prop :=
  algorithm = game_theory \/ i = O.

(** One item, two hosts; the random generator draws host 0, then host 1. *)
Definition c4_sim : Simulation :=
  mkSimulation
    [SensorTask_init "task-0" 1.0 30 false]
    [Mote_init "mote-0" 2.0; Mote_init "mote-1" 2.0]
    (fun _ _ => mkCost 10 2).

(** A generator whose [k]-th draw is [k]. *)
Definition c4_draws (k : nat) : nat := k.

(** A history entry appended with a value equal to zero. *)
Definition appended_zero (m : History -> list Q) (h h' : History) : Prop :=
  exists v, m h' = m h ++ [v] /\ v == 0.

(** An honest and a malicious module, and no host. *)
Definition c10_sim : Simulation :=
  mkSimulation
    [IoTEdgeModule_init "module-0" 0.5 30 false; IoTEdgeModule_init "module-1" 0.5 30 true]
    []
    (fun _ _ => mkCost 10 2).

(** * The benchmark aggregator ([simulation.py]) *)

(** One trial's history as the aggregator reads it: metric name to the
    per-iteration values. *)
Definition RHistory : Type := dict (list R).

Fixpoint zip_with {A B C : Type} (f : A -> B -> C) (l : list A) (l' : list B) : list C :=
  match l, l' with
  | x :: r, y :: r' => f x y :: zip_with f r r'
  | _, _ => []
  end.

Fixpoint mapM {A B : Type} (f : A -> result B) (l : list A) : result (list B) :=
  match l with
  | [] => Ok []
  | a :: r => b <- f a ;; bs <- mapM f r ;; Ok (b :: bs)
  end.

(** [np.array(rows)] for a list of rows: a two-dimensional array when the
    rows have one length, [ValueError] when they are ragged. *)
Definition np_array (rows : list (list R)) : result (list (list R)) :=
  match rows with
  | [] => Ok []
  | r :: rs =>
    if forallb (fun x => Nat.eqb (List.length x) (List.length r)) rs
    then Ok rows else Raise ValueError
  end.

(** Sum along axis 0: the rows are added up, element by element. *)
Definition sum_axis0 (m : list (list R)) : list R :=
  match m with
  | [] => []
  | r :: rs => fold_left (zip_with Rplus) rs r
  end.

(** [np.mean(m, axis=0)]. *)
Definition np_mean_axis0 (m : list (list R)) : list R :=
  map (fun x => (x / INR (List.length m))%R) (sum_axis0 m).

(** [np.std(m, axis=0)]: square root of the mean of the squared
    deviations from the mean, with divisor the number of rows. *)
Definition np_std_axis0 (m : list (list R)) : list R :=
  let mu := np_mean_axis0 m in
  let squares := map (fun row => zip_with (fun x u => Rsqr (x - u)) row mu) m in
  map sqrt (np_mean_axis0 squares).

(** [run[metric]]. *)
Definition history_get (metric : string) (run : RHistory) : result (list R) :=
  match dict_get metric run with
  | Some l => Ok l
  | None => Raise KeyError
  end.

(** Body of [for metric in histories[0].keys()]. *)
Definition aggregate_metric (histories : list RHistory) (out : dict (list R))
    (metric : string) : result (dict (list R)) :=
  rows <- mapM (history_get metric) histories ;;
  metric_data <- np_array rows ;;
  Ok (dict_set (String.append metric "_std") (np_std_axis0 metric_data)
        (dict_set (String.append metric "_mean") (np_mean_axis0 metric_data) out)).

(** Body of [for algo, histories in all_runs_history.items()]. *)
Definition aggregate_algorithm (histories : list RHistory) : result (dict (list R)) :=
  match histories with
  | [] => Raise IndexError
  | first :: _ => foldM (aggregate_metric histories) (dict_keys first) []
  end.

(** The aggregation loop of [run_simulation]; [all_runs_history] has the
    three keys ['game_theory'], ['greedy'], ['random'], in this order. *)
Definition aggregate (all_runs_history : Algorithm -> list RHistory)
  : result (Algorithm -> dict (list R)) :=
  g <- aggregate_algorithm (all_runs_history game_theory) ;;
  gr <- aggregate_algorithm (all_runs_history greedy) ;;
  r <- aggregate_algorithm (all_runs_history random) ;;
  Ok (fun algo => match algo with
                  | game_theory => g
                  | greedy => gr
                  | random => r
                  end).

(** The spec's words: arithmetic mean and population standard deviation of
    a sample. *)
Definition arithmetic_mean (xs : list R) : R :=
  (fold_right Rplus 0 xs / INR (List.length xs))%R.

Definition population_std (xs : list R) : R :=
  sqrt (arithmetic_mean (map (fun x => Rsqr (x - arithmetic_mean xs)) xs)).

(** The values of [metric] at iteration [t], one per trial; a trial
    without the metric contributes nothing. *)
Definition metric_column (histories : list RHistory) (metric : string) (t : nat) : list R :=
  map (fun run => nth t (match dict_get metric run with
                         | Some l => l
                         | None => []
                         end) 0%R) histories.

(** The two entries of [metric] in an algorithm's result: sequences of
    length [T] holding, at every index, the arithmetic mean and the
    population standard deviation over the trials. *)
Definition metric_aggregated (histories : list RHistory) (T : nat) (metric : string)
    (res : dict (list R)) : Prop :=
  exists mu sd,
    dict_get (String.append metric "_mean") res = Some mu
    /\ dict_get (String.append metric "_std") res = Some sd
    /\ List.length mu = T /\ List.length sd = T
    /\ forall t, (t < T)%nat ->
         nth t mu 0%R = arithmetic_mean (metric_column histories metric t)
         /\ nth t sd 0%R = population_std (metric_column histories metric t).

(** Every trial has the metric, with [T] values. *)
Definition metric_complete (histories : list RHistory) (T : nat) (metric : string) : Prop :=
  forall run, In run histories ->
    exists col, dict_get metric run = Some col /\ List.length col = T.

(** Three trials of two iterations for every algorithm. *)
Definition c9_runs (algo : Algorithm) : list RHistory :=
  [[("completion_ratio"%string, [1; 2]%R)];
   [("completion_ratio"%string, [2; 4]%R)];
   [("completion_ratio"%string, [3; 6]%R)]].

(** * Further definitions *)

(** The fields of an item and of a host that no method assigns to after
    construction. *)
Definition static_device (d : Device) : DeviceClass * string * Q * Q * Q * Q * bool :=
  (dev_class d, dev_id d, cpu_request d, weight_latency d, weight_energy d, deadline d,
   is_malicious d).

Definition static_server (s : Server) : ServerClass * string * Q * Q :=
  (srv_class s, srv_id s, capacity_cpu s, load_balancing_weight s).

Definition same_static (sim sim' : Simulation) : Prop :=
  map static_device (devices sim') = map static_device (devices sim)
  /\ map static_server (servers sim') = map static_server (servers sim)
  /\ cost_matrix sim' = cost_matrix sim.

(** Every key is an item id of the population and every host named is a
    host of the population. *)
Definition entries_known (sim : Simulation) (a : Assignments) : Prop :=
  forall k v, In (k, v) a ->
    In k (map dev_id (devices sim))
    /\ forall w, v = Some w -> In w (map srv_id (servers sim)).

(** An entry with a host, and an entry with a host whose item is found
    and satisfies [q]. *)
Definition has_host (e : string * option string) : bool :=
  match snd e with Some _ => true | None => false end.

Definition picks (sim : Simulation) (q : Device -> bool) (e : string * option string) : bool :=
  has_host e && match find_device sim (fst e) with Some d => q d | None => false end.

Definition unit_interval (q : Q) : Prop := 0 <= q <= 1.

Definition ratios_in_unit_interval (h : History) : Prop :=
  Forall unit_interval (completion_ratio h)
  /\ Forall unit_interval (deadline_adherence h)
  /\ Forall unit_interval (malicious_accepted h).

(** [subseq l l']: [l] is [l'] with some elements left out, order kept. *)
Inductive subseq {A : Type} : list A -> list A -> Prop :=
| subseq_nil : subseq [] []
| subseq_skip (x : A) (l l' : list A) : subseq l l' -> subseq l (x :: l')
| subseq_take (x : A) (l l' : list A) : subseq l l' -> subseq (x :: l) (x :: l').

(** ** The negotiation for any evaluation of the two utilities

    The game-theoretic branch compares floats twice: the items' utilities
    in the proposal phase and the hosts' utilities in the acceptance scan.
    The branch is written here for the values these expressions evaluate
    to, whatever the arithmetic: [item_utility device server] for
    [device.calculate_utility(latency, energy) * device.trust_score] under
    the dynamic cost of the pair, [host_utility server l] for
    [server.calculate_utility(l)].  [game_theory_assignments] is the
    instance with exact arithmetic. *)
Section Negotiation.

Variable item_utility : Device -> Server -> Q.
Variable host_utility : Server -> list Device -> result Q.

(** Body of [for device in self.devices] of the proposal phase. *)
Definition propose_to_best (sim : Simulation) (proposals : dict (list Device))
    (device : Device) : result (dict (list Device)) :=
  match fst (best_server (item_utility device) (servers sim)) with
  | None => Ok proposals
  | Some best_server_id =>
    match dict_get best_server_id proposals with
    | None => Raise KeyError
    | Some l => Ok (dict_set best_server_id (l ++ [device]) proposals)
    end
  end.

(** [for device in requesting_devices] of one host. *)
Fixpoint scan_requests (server : Server) (requesting_devices : list Device)
    (accepted_devices : list Device) (best_utility : Q) : result (list Device) :=
  match requesting_devices with
  | [] => Ok accepted_devices
  | device :: rest =>
    let potential_new_set := accepted_devices ++ [device] in
    u <- host_utility server potential_new_set ;;
    if Qltb best_utility u
    then
      best_utility' <- host_utility server potential_new_set ;;
      scan_requests server rest potential_new_set best_utility'
    else scan_requests server rest accepted_devices best_utility
  end.

(** Body of [for server in self.servers] of the acceptance phase. *)
Definition accept_requests (proposals : dict (list Device)) (final_assignments : Assignments)
    (server : Server) : result Assignments :=
  match dict_get (srv_id server) proposals with
  | None => Raise KeyError
  | Some [] => Ok final_assignments
  | Some requesting_devices =>
    let sorted := sort_by_trust requesting_devices in
    best_utility <- host_utility server [] ;;
    accepted_devices <- scan_requests server sorted [] best_utility ;;
    Ok (fold_left (fun fa device => dict_set (dev_id device) (Some (srv_id server)) fa)
                  accepted_devices final_assignments)
  end.

Definition game_theory_branch (sim : Simulation) : result Assignments :=
  let proposals0 : dict (list Device) :=
    fold_left (fun p srv => dict_set (srv_id srv) [] p) (servers sim) [] in
  proposals <- foldM (propose_to_best sim) (devices sim) proposals0 ;;
  foldM (accept_requests proposals) (servers sim) [].

(** Every proposer stored under a host id has that host as its best one. *)
Definition proposals_sound (sim : Simulation) (p : dict (list Device)) : Prop :=
  forall k l d, In (k, l) p -> In d l ->
    In d (devices sim)
    /\ fst (best_server (item_utility d) (servers sim)) = Some k.

End Negotiation.

Definition trust_descending (a b : Device) : Prop := trust_score b <= trust_score a.

(** All hosted references of a simulation, host after host. *)
Definition all_hosted (sim : Simulation) : list string :=
  concat (map hosted (servers sim)).

Definition hosted_once (sim : Simulation) : Prop :=
  NoDup (all_hosted sim)
  /\ forall k, In k (all_hosted sim) -> In k (map dev_id (devices sim)).

(** A score above 0 and at most the ceiling. *)
Definition positive_capped (q : Q) : Prop := 0 < q <= 1.0.

(** * [run_simulation] *)

(** The keys of the [history] dictionary of [run], in insertion order. *)
Definition metric_names : list string :=
  ["avg_device_utility"; "server_load_std_dev"; "avg_trust_honest"; "avg_trust_malicious";
   "completion_ratio"; "deadline_adherence"; "malicious_accepted"; "total_energy"]%string.

(** The dictionary [run] returns, as the aggregator reads it. *)
Definition to_RHistory (h : History) : RHistory :=
  [("avg_device_utility"%string, map Q2R (avg_device_utility h));
   ("server_load_std_dev"%string, map Q2R (server_load_std_dev h));
   ("avg_trust_honest"%string, map Q2R (avg_trust_honest h));
   ("avg_trust_malicious"%string, map Q2R (avg_trust_malicious h));
   ("completion_ratio"%string, map Q2R (completion_ratio h));
   ("deadline_adherence"%string, map Q2R (deadline_adherence h));
   ("malicious_accepted"%string, map Q2R (malicious_accepted h));
   ("total_energy"%string, map Q2R (total_energy h))].

(** The default of the [iterations] parameter of [run]. *)
Definition default_iterations : nat := 50.

Section RunSimulation.

Variable draws : nat -> nat.
Variable np_std : list Q -> Q.

(** Body of [for i in range(num_runs)]: [sim] is the object built from
    what [setup_func()] returned; the three strategies run, with the
    default of 50 iterations, one after the other on the same objects. *)
Definition run_trial (st : (Algorithm -> list RHistory) * nat) (sim : Simulation)
  : result ((Algorithm -> list RHistory) * nat) :=
  let '(all_runs_history, pos) := st in
  g <- run draws np_std game_theory default_iterations sim pos ;;
  gr <- run draws np_std greedy default_iterations (st_sim g) (st_pos g) ;;
  r <- run draws np_std random default_iterations (st_sim gr) (st_pos gr) ;;
  Ok (fun algo =>
        all_runs_history algo
          ++ [to_RHistory (st_history match algo with
                                      | game_theory => g
                                      | greedy => gr
                                      | random => r
                                      end)],
      st_pos r).

(** [run_simulation(setup_func, num_runs)], with one element of [trials]
    per benchmark run. *)
Definition run_simulation (trials : list Simulation)
  : result (Algorithm -> dict (list R)) :=
  '(all_runs_history, _) <- foldM run_trial trials (fun _ => [], O) ;;
  aggregate all_runs_history.

End RunSimulation.

(** A history with [T] values for each of the eight metrics. *)
Definition full_history (T : nat) (rh : RHistory) : Prop :=
  exists h, rh = to_RHistory h /\ Forall (fun m => List.length (m h) = T) metrics.

(** A trial whose hosts allow every strategy to run. *)
Definition runnable (sim : Simulation) : Prop :=
  servers sim <> [] /\ Forall (fun s => ~ capacity_cpu s == 0) (servers sim).

(** * Properties *)

(** ** Comparisons and clamps *)

Lemma Qltb_true (x y : Q) : Qltb x y = true <-> x < y.
Proof.
  unfold Qltb. rewrite negb_true_iff.
  split; intro H.
  - apply Qnot_le_lt. intro Hle. apply Qle_bool_iff in Hle. congruence.
  - destruct (Qle_bool y x) eqn:E; trivial.
    apply Qle_bool_iff in E. exfalso. exact (Qlt_not_le _ _ H E).
Qed.

Lemma Qltb_false (x y : Q) : Qltb x y = false <-> y <= x.
Proof.
  unfold Qltb. rewrite negb_false_iff. apply Qle_bool_iff.
Qed.

Lemma py_max_cases (a b : Q) :
  (a < b /\ py_max a b = b) \/ (b <= a /\ py_max a b = a).
Proof.
  unfold py_max. destruct (Qltb a b) eqn:E.
  - left. split; [now apply Qltb_true | reflexivity].
  - right. split; [now apply Qltb_false | reflexivity].
Qed.

Lemma py_min_cases (a b : Q) :
  (b < a /\ py_min a b = b) \/ (a <= b /\ py_min a b = a).
Proof.
  unfold py_min. destruct (Qltb b a) eqn:E.
  - left. split; [now apply Qltb_true | reflexivity].
  - right. split; [now apply Qltb_false | reflexivity].
Qed.

Lemma Qnat_nonneg (n : nat) : 0 <= inject_Z (Z.of_nat n).
Proof.
  change 0 with (inject_Z 0). rewrite <- Zle_Qle. lia.
Qed.

Lemma Qnat_S (n : nat) : inject_Z (Z.of_nat (S n)) == inject_Z (Z.of_nat n) + 1.
Proof.
  rewrite Nat2Z.inj_succ. unfold Z.succ. rewrite inject_Z_plus. reflexivity.
Qed.

(** ** The trust update, field by field *)

Lemma update_classes_agree (d : Device) (b : bool) :
  SensorTask_update_trust_score d b = IoTEdgeModule_update_trust_score d b.
Proof. reflexivity. Qed.

Lemma update_unfold (d : Device) (b : bool) :
  update_trust_score d b = SensorTask_update_trust_score d b.
Proof. unfold update_trust_score. destruct (dev_class d); reflexivity. Qed.

Lemma update_is_malicious (d : Device) (b : bool) :
  is_malicious (update_trust_score d b) = is_malicious d.
Proof.
  rewrite update_unfold. unfold SensorTask_update_trust_score.
  destruct b; [destruct (is_malicious d) eqn:E|]; simpl; auto.
Qed.

Lemma update_dev_id (d : Device) (b : bool) :
  dev_id (update_trust_score d b) = dev_id d.
Proof.
  rewrite update_unfold. unfold SensorTask_update_trust_score.
  destruct b; [destruct (is_malicious d)|]; reflexivity.
Qed.

Lemma trust_assigned_honest (d : Device) :
  is_malicious d = false ->
  trust_score (update_trust_score d true) = py_min 1.0 (trust_score d * 1.05).
Proof.
  intro H. rewrite update_unfold. unfold SensorTask_update_trust_score.
  rewrite H. reflexivity.
Qed.

Lemma trust_assigned_malicious (d : Device) :
  is_malicious d = true ->
  trust_score (update_trust_score d true) =
    py_max 0.1 (trust_score d
                * (0.90 - 0.05 * inject_Z (Z.of_nat (S (consecutive_rejections d)))))
  /\ consecutive_rejections (update_trust_score d true) = S (consecutive_rejections d).
Proof.
  intro H. rewrite update_unfold. unfold SensorTask_update_trust_score.
  rewrite H. split; reflexivity.
Qed.

Lemma trust_not_assigned (d : Device) :
  trust_score (update_trust_score d false) = trust_score d * 0.995.
Proof. rewrite update_unfold. reflexivity. Qed.

(** The assigned branch keeps the score inside [0.1, 1.0]. *)
Lemma assigned_update_in_range (d : Device) :
  0.1 <= trust_score d <= 1.0 ->
  0.1 <= trust_score (update_trust_score d true) <= 1.0.
Proof.
  intros [Hlo Hhi]. destruct (is_malicious d) eqn:M.
  - destruct (trust_assigned_malicious d M) as [-> _].
    pose proof (Qnat_nonneg (S (consecutive_rejections d))) as Hc.
    set (c := inject_Z (Z.of_nat (S (consecutive_rejections d)))) in *.
    destruct (py_max_cases 0.1 (trust_score d * (0.90 - 0.05 * c))) as [[H ->]|[H ->]].
    + split; [lra|]. nra.
    + split; lra.
  - rewrite (trust_assigned_honest d M).
    destruct (py_min_cases 1.0 (trust_score d * 1.05)) as [[H ->]|[H ->]]; split; lra.
Qed.

Lemma assigned_updates_S (n : nat) (d : Device) :
  assigned_updates (S n) d = update_trust_score (assigned_updates n d) true.
Proof. reflexivity. Qed.

Lemma assigned_updates_is_malicious (n : nat) (d : Device) :
  is_malicious (assigned_updates n d) = is_malicious d.
Proof.
  induction n; [reflexivity|].
  rewrite assigned_updates_S, update_is_malicious. exact IHn.
Qed.

Lemma assigned_updates_in_range (n : nat) (d : Device) :
  0.1 <= trust_score d <= 1.0 ->
  0.1 <= trust_score (assigned_updates n d) <= 1.0.
Proof.
  intro H. induction n; [exact H|].
  rewrite assigned_updates_S. now apply assigned_update_in_range.
Qed.

Lemma assigned_updates_rejections (n : nat) (d : Device) :
  is_malicious d = true ->
  consecutive_rejections (assigned_updates n d) = (consecutive_rejections d + n)%nat.
Proof.
  intro M. induction n.
  - simpl. lia.
  - rewrite assigned_updates_S.
    assert (M' : is_malicious (assigned_updates n d) = true)
      by now rewrite assigned_updates_is_malicious.
    destruct (trust_assigned_malicious _ M') as [_ ->]. lia.
Qed.

Lemma growth_pos (n : nat) : 0 < growth n.
Proof. induction n; simpl; [reflexivity | lra]. Qed.

Lemma growth_mono (n m : nat) : (n <= m)%nat -> growth n <= growth m.
Proof.
  induction 1; [lra|].
  simpl. pose proof (growth_pos m). lra.
Qed.

Lemma growth_48 : 1 < growth 48.
Proof. vm_compute. reflexivity. Qed.

Lemma honest_growth (n : nat) (d : Device) :
  is_malicious d = false ->
  0.1 <= trust_score d <= 1.0 ->
  1 <= trust_score (assigned_updates n d) \/ growth n <= trust_score (assigned_updates n d).
Proof.
  intros M R. induction n.
  - right. simpl. lra.
  - rewrite assigned_updates_S.
    assert (M' : is_malicious (assigned_updates n d) = false)
      by now rewrite assigned_updates_is_malicious.
    rewrite (trust_assigned_honest _ M').
    pose proof (assigned_updates_in_range n d R) as Rn.
    destruct (py_min_cases 1.0 (trust_score (assigned_updates n d) * 1.05))
      as [[H ->]|[H ->]].
    + destruct IHn as [IH|IH]; [lra|]. right. simpl. lra.
    + left. lra.
Qed.

(** ** C8: monotone trust under repeated assignment *)

(** C8.  Starting from a score in [0.1, 1.0] and assigned at every update,
    an honest item's score never decreases and is 1.0 from the 48th update
    on; a malicious item's score never increases and is 0.1 from the 18th
    update on. *)
Theorem C8_trust_monotone_and_converges (d : Device) :
  0.1 <= trust_score d <= 1.0 ->
  (is_malicious d = false ->
     (forall n, trust_score (assigned_updates n d)
                <= trust_score (assigned_updates (S n) d))
     /\ (forall n, (48 <= n)%nat -> trust_score (assigned_updates n d) == 1.0))
  /\
  (is_malicious d = true ->
     (forall n, trust_score (assigned_updates (S n) d)
                <= trust_score (assigned_updates n d))
     /\ (forall n, (18 <= n)%nat -> trust_score (assigned_updates n d) == 0.1)).
Proof.
  intro R. split; intro M.
  - split; intro n.
    + pose proof (assigned_updates_in_range n d R) as Rn.
      rewrite assigned_updates_S.
      rewrite trust_assigned_honest by now rewrite assigned_updates_is_malicious.
      destruct (py_min_cases 1.0 (trust_score (assigned_updates n d) * 1.05))
        as [[H ->]|[H ->]]; lra.
    + intro Hn.
      pose proof (assigned_updates_in_range n d R) as Rn.
      pose proof (growth_mono 48 n Hn) as G. pose proof growth_48 as G48.
      destruct (honest_growth n d M R) as [H|H]; lra.
  - split; intro n.
    + pose proof (assigned_updates_in_range n d R) as Rn.
      rewrite assigned_updates_S.
      assert (M' : is_malicious (assigned_updates n d) = true)
        by now rewrite assigned_updates_is_malicious.
      destruct (trust_assigned_malicious _ M') as [-> _].
      pose proof (Qnat_nonneg (consecutive_rejections (assigned_updates n d))) as Hc.
      pose proof (Qnat_S (consecutive_rejections (assigned_updates n d))) as Hs.
      set (c := inject_Z (Z.of_nat (S (consecutive_rejections (assigned_updates n d))))) in *.
      destruct (py_max_cases 0.1 (trust_score (assigned_updates n d) * (0.90 - 0.05 * c)))
        as [[H ->]|[H ->]]; [nra | lra].
    + intro Hn. destruct n as [|k]; [lia|].
      pose proof (assigned_updates_in_range k d R) as Rk.
      rewrite assigned_updates_S.
      assert (M' : is_malicious (assigned_updates k d) = true)
        by now rewrite assigned_updates_is_malicious.
      destruct (trust_assigned_malicious _ M') as [-> _].
      rewrite (assigned_updates_rejections k d M).
      assert (Hc : 18 <= inject_Z (Z.of_nat (S (consecutive_rejections d + k)))).
      { change 18 with (inject_Z 18). rewrite <- Zle_Qle. lia. }
      set (c := inject_Z (Z.of_nat (S (consecutive_rejections d + k)))) in *.
      destruct (py_max_cases 0.1 (trust_score (assigned_updates k d) * (0.90 - 0.05 * c)))
        as [[H _]|[_ ->]]; [nra | reflexivity].
Qed.

Lemma C8_witness :
  0.1 <= trust_score (IoTEdgeModule_init "module-0" 0.5 30 true) <= 1.0
  /\ (forall n, (18 <= n)%nat ->
        trust_score (assigned_updates n (IoTEdgeModule_init "module-0" 0.5 30 true)) == 0.1).
Proof.
  assert (R : 0.1 <= trust_score (IoTEdgeModule_init "module-0" 0.5 30 true) <= 1.0)
    by (simpl; split; lra).
  split; [exact R|].
  exact (proj2 (proj2 (C8_trust_monotone_and_converges _ R) eq_refl)).
Defined.

(** ** C1: the score is not kept above the floor *)

(** C1.  A malicious item (score 0.1) with demand 1.0 proposes to the only
    host, of capacity 2.0; the host turns it down, the item takes the
    not-assigned decay, and its score after the iteration is below 0.1. *)
Theorem C1_decay_goes_below_floor (draws : nat -> nat) (np_std : list Q -> Q)
    (cost : string -> string -> CostEntry) :
  exists st,
    run draws np_std game_theory 1
        (mkSimulation [SensorTask_init "task-0" 1.0 30 true] [Mote_init "mote-0" 2.0] cost) 0
      = Ok st
    /\ map trust_score (devices (st_sim st)) = [0.1 * 0.995]
    /\ 0.1 * 0.995 < 0.1.
Proof.
  eexists. split; [reflexivity|]. split; reflexivity.
Qed.

(** ** C2: the acceptance scan on one host and two equal proposers *)

Lemma best_server_single (f : Server -> Q) (s : Server) :
  best_server f [s] = (Some (srv_id s), Some (f s)).
Proof. reflexivity. Qed.

Lemma capacity_nonzero (s : Server) (c : Q) :
  capacity_cpu s == c -> ~ c == 0 -> Qeq_bool (capacity_cpu s) 0 = false.
Proof.
  intros Hc Hn. destruct (Qeq_bool (capacity_cpu s) 0) eqn:E; trivial.
  apply Qeq_bool_eq in E. rewrite Hc in E. contradiction.
Qed.

(** C2, as the code decides it.  One host of capacity 2.0 and weight 1.5,
    two proposers of demand 1.0 and trust 1.0: the scan accepts the first
    (utility 0.625 > 0) and turns the second down (utility -0.5 is not
    above 0.625), so the assignment holds the first item only. *)
Theorem C2_only_first_proposer_accepted (sim : Simulation) (s : Server) (d1 d2 : Device) :
  servers sim = [s] ->
  devices sim = [d1; d2] ->
  capacity_cpu s == 2.0 ->
  load_balancing_weight s == 1.5 ->
  cpu_request d1 == 1.0 -> trust_score d1 == 1.0 ->
  cpu_request d2 == 1.0 -> trust_score d2 == 1.0 ->
  game_theory_assignments sim = Ok [(dev_id d1, Some (srv_id s))].
Proof.
  intros Hs Hd Hcap Hw Hc1 Ht1 Hc2 Ht2.
  assert (Hnz : Qeq_bool (capacity_cpu s) 0 = false)
    by (apply (capacity_nonzero s 2.0 Hcap); discriminate).
  unfold game_theory_assignments. rewrite Hs, Hd.
  cbn [fold_left foldM dict_set bind].
  unfold propose. rewrite Hs, !best_server_single.
  cbn [fst dict_get dict_set bind app]. rewrite !String.eqb_refl.
  cbn [dict_get dict_set bind app]. rewrite !String.eqb_refl.
  cbn [foldM bind]. unfold accept_at.
  cbn [dict_get]. rewrite String.eqb_refl.
  assert (Hsort : sort_by_trust [d1; d2] = [d1; d2]).
  { unfold sort_by_trust. cbn [fold_right insert_by_trust].
    assert (E : Qle_bool (trust_score d2) (trust_score d1) = true)
      by (apply Qle_bool_iff; rewrite Ht1, Ht2; apply Qle_refl).
    now rewrite E. }
  cbn [app]. rewrite Hsort.
  cbn [server_calculate_utility bind accept_scan app].
  unfold server_calculate_utility. rewrite Hnz.
  cbn [bind map].
  unfold py_sum, Qlen. cbn [fold_left List.length].
  match goal with
  | |- context [Qltb 0 ?u] =>
    assert (E1 : Qltb 0 u = true)
      by (apply Qltb_true; rewrite Hcap, Hw, Hc1, Ht1; reflexivity);
    rewrite E1
  end.
  cbn [bind accept_scan app map fold_left List.length].
  match goal with
  | |- context [Qltb ?u ?v] =>
    assert (E2 : Qltb u v = false)
      by (apply Qltb_false; rewrite Hcap, Hw, Hc1, Ht1, Hc2, Ht2; discriminate);
    rewrite E2
  end.
  cbn [accept_scan bind fold_left dict_set]. reflexivity.
Qed.

Lemma C2_witness :
  capacity_cpu (Mote_init "mote-0" 2.0) == 2.0
  /\ game_theory_assignments c2_sim = Ok [("task-0"%string, Some "mote-0"%string)].
Proof.
  split; [reflexivity|].
  apply (C2_only_first_proposer_accepted c2_sim (Mote_init "mote-0" 2.0)
           (SensorTask_init "task-0" 1.0 30 false)
           (SensorTask_init "task-1" 1.0 30 false)); reflexivity.
Defined.

(** C2 as stated fails: in that scenario the second item gets no host. *)
Lemma C2_counterexample :
  ~ (exists a, game_theory_assignments c2_sim = Ok a
               /\ dict_get "task-0" a = Some (Some "mote-0"%string)
               /\ dict_get "task-1" a = Some (Some "mote-0"%string)).
Proof.
  intros [a [H [_ H2]]].
  vm_compute in H. injection H as <-. discriminate H2.
Qed.

(** ** C7: no hosts *)

Lemma best_server_nil (f : Server -> Q) : best_server f [] = (None, None).
Proof. reflexivity. Qed.

(** The two sibling strategies handle the empty host list: the
    game-theoretic one returns the empty assignment, the greedy one an
    assignment with [None] under every key (see C10). *)
Lemma game_theory_no_hosts (sim : Simulation) :
  servers sim = [] -> game_theory_assignments sim = Ok [].
Proof.
  intro Hs. unfold game_theory_assignments. rewrite Hs. cbn [fold_left].
  assert (G : forall ds p, foldM (propose sim) ds p = Ok p).
  { induction ds as [|d r IH]; intro p; [reflexivity|].
    cbn [foldM]. unfold propose at 1. rewrite Hs, best_server_nil. cbn [fst bind].
    apply IH. }
  rewrite G. reflexivity.
Qed.

(** C7.  The random strategy with one item and no host: [random.choice]
    is called on the empty host list and the run raises [IndexError]. *)
Theorem C7_random_raises_on_empty_hosts (draws : nat -> nat) (np_std : list Q -> Q)
    (cost : string -> string -> CostEntry) :
  run draws np_std random 1
      (mkSimulation [IoTEdgeModule_init "module-0" 0.5 30 false] [] cost) 0
    = Raise IndexError.
Proof. reflexivity. Qed.

(** ** C3: the greedy choice *)

Lemma best_server_snoc (f : Server -> Q) (ss : list Server) (x : Server) :
  best_server f (ss ++ [x]) =
    if exceeds (f x) (snd (best_server f ss))
    then (Some (srv_id x), Some (f x))
    else best_server f ss.
Proof. unfold best_server. rewrite fold_left_app. reflexivity. Qed.

Lemma best_server_first_max (f : Server -> Q) (ss : list Server) :
  first_max f ss (best_server f ss).
Proof.
  induction ss as [|x ss IH] using rev_ind.
  - now apply first_max_none.
  - rewrite best_server_snoc. destruct IH as [Hnil | pre post s Hss Hpre Hpost].
    + subst ss. simpl.
      apply (first_max_some f [x] [] [] x); [reflexivity | |]; intros y [].
    + simpl. destruct (Qltb (f s) (f x)) eqn:E.
      * apply Qltb_true in E.
        apply (first_max_some f _ ss [] x); [reflexivity | | intros y []].
        intros y Hy. subst ss. apply in_app_or in Hy.
        destruct Hy as [Hy | [<- | Hy]].
        -- specialize (Hpre y Hy). lra.
        -- exact E.
        -- specialize (Hpost y Hy). lra.
      * apply Qltb_false in E.
        apply (first_max_some f _ pre (post ++ [x]) s).
        -- subst ss. now rewrite <- app_assoc.
        -- exact Hpre.
        -- intros y Hy. apply in_app_or in Hy.
           destruct Hy as [Hy | [<- | []]]; [now apply Hpost | exact E].
Qed.

(** *** Dictionaries *)

Lemma dict_get_set_same {V} (k : string) (v : V) (d : dict V) :
  dict_get k (dict_set k v d) = Some v.
Proof.
  induction d as [|[k' v'] r IH]; simpl.
  - now rewrite String.eqb_refl.
  - destruct (String.eqb k k') eqn:E; simpl; rewrite E; [reflexivity | exact IH].
Qed.

Lemma dict_get_set_other {V} (k k' : string) (v : V) (d : dict V) :
  k <> k' -> dict_get k (dict_set k' v d) = dict_get k d.
Proof.
  intro N. induction d as [|[k0 v0] r IH]; simpl.
  - apply String.eqb_neq in N. now rewrite N.
  - destruct (String.eqb k' k0) eqn:E; simpl.
    + apply String.eqb_eq in E. subst k0.
      apply String.eqb_neq in N. now rewrite N.
    + destruct (String.eqb k k0); [reflexivity | exact IH].
Qed.

Lemma in_dict_set {V} (k k0 : string) (v v0 : V) (d : dict V) :
  In (k, v) (dict_set k0 v0 d) -> (k = k0 /\ v = v0) \/ In (k, v) d.
Proof.
  induction d as [|[k1 v1] r IH]; simpl.
  - intros [H|[]]. injection H as <- <-. now left.
  - destruct (String.eqb k0 k1) eqn:E; simpl.
    + apply String.eqb_eq in E. subst k1.
      intros [H|H]; [injection H as <- <-; now left | right; now right].
    + intros [H|H]; [right; now left|].
      destruct (IH H) as [H'|H']; [now left | right; now right].
Qed.

Lemma dict_keys_set {V} (k k0 : string) (v0 : V) (d : dict V) :
  In k (dict_keys (dict_set k0 v0 d)) <-> k = k0 \/ In k (dict_keys d).
Proof.
  unfold dict_keys. induction d as [|[k1 v1] r IH]; simpl.
  - intuition.
  - destruct (String.eqb k0 k1) eqn:E; simpl.
    + apply String.eqb_eq in E. subst k1. intuition.
    + rewrite IH. intuition.
Qed.

Lemma mem_id_true (k : string) (l : list string) : mem_id k l = true <-> In k l.
Proof.
  unfold mem_id. rewrite existsb_exists. split.
  - intros [x [Hx E]]. apply String.eqb_eq in E. now subst.
  - intro H. exists k. split; [exact H | apply String.eqb_refl].
Qed.

(** *** The greedy branch as a fold *)

Lemma greedy_foldM (draws : nat -> nat) (sim : Simulation) (ds : list Device)
    (a : Assignments) (pos : nat) :
  foldM (baseline_step draws greedy sim) ds (a, pos)
  = Ok (fold_left (fun a d => dict_set (dev_id d) (greedy_choice sim d) a) ds a, pos).
Proof.
  revert a. induction ds as [|d r IH]; intro a; [reflexivity|].
  simpl. apply IH.
Qed.

Lemma decide_greedy (draws : nat -> nat) (sim : Simulation) (pos : nat) :
  decide draws greedy sim pos = Ok (greedy_assignments sim, pos).
Proof. apply greedy_foldM. Qed.

Lemma fold_set_other {V} (f : Device -> V) (k : string) (ds : list Device) (a : dict V) :
  ~ In k (map dev_id ds) ->
  dict_get k (fold_left (fun a d => dict_set (dev_id d) (f d) a) ds a) = dict_get k a.
Proof.
  revert a. induction ds as [|d r IH]; intros a N; [reflexivity|].
  simpl in *. rewrite IH by tauto.
  apply dict_get_set_other. intro E. apply N. now left.
Qed.

Lemma fold_set_get {V} (f : Device -> V) (d : Device) (ds : list Device) (a : dict V) :
  NoDup (map dev_id ds) -> In d ds ->
  dict_get (dev_id d) (fold_left (fun a d => dict_set (dev_id d) (f d) a) ds a)
  = Some (f d).
Proof.
  revert a. induction ds as [|x r IH]; intros a ND Hin; [destruct Hin|].
  simpl in *. inversion ND as [|? ? Hx ND']; subst.
  destruct Hin as [->|Hin].
  - rewrite fold_set_other by exact Hx. apply dict_get_set_same.
  - now apply IH.
Qed.

Lemma best_server_hosted_irrelevant (f : Server -> Q) (hs : Server -> list string)
    (ss : list Server) :
  (forall s, f (set_hosted s (hs s)) = f s) ->
  best_server f (map (fun s => set_hosted s (hs s)) ss) = best_server f ss.
Proof.
  intro Hf. induction ss as [|x ss IH] using rev_ind; [reflexivity|].
  rewrite map_app. simpl map. rewrite !best_server_snoc, IH, Hf. reflexivity.
Qed.

(** With exact arithmetic the loop is the assignment that [decide]
    computes. *)
Lemma greedy_branch_exact (draws : nat -> nat) (sim : Simulation) (pos : nat) :
  decide draws greedy sim pos = Ok (greedy_branch device_calculate_utility sim, pos).
Proof. apply decide_greedy. Qed.

Lemma greedy_branch_hosted_irrelevant (calculate_utility : Device -> Q -> Q -> Q)
    (sim : Simulation) (hs : Server -> list string) :
  greedy_branch calculate_utility
    (set_servers sim (map (fun s => set_hosted s (hs s)) (servers sim)))
  = greedy_branch calculate_utility sim.
Proof.
  unfold greedy_branch. simpl devices.
  generalize (@nil (string * option string)).
  induction (devices sim) as [|d r IH]; intro a; [reflexivity|].
  simpl fold_left. rewrite IH. f_equal. f_equal. simpl servers.
  now rewrite best_server_hosted_irrelevant.
Qed.

(** C3, as the code decides it.  Whatever value [calculate_utility]
    returns (exact or rounded), with distinct item ids the greedy loop
    gives every item the first host, in host order, at which the utility
    computed from the stored latency and energy is maximal: strictly above
    its value at every earlier host, at least its value at every later one
    (no host when there is none).  The assignment is the same whatever the
    hosts' [hosted] lists, hence their loads, are. *)
Theorem C3_greedy_optimises_base_cost (calculate_utility : Device -> Q -> Q -> Q)
    (sim : Simulation) :
  NoDup (map dev_id (devices sim)) ->
  (forall d, In d (devices sim) ->
     exists r, first_max (stored_utility calculate_utility sim d) (servers sim) r
               /\ dict_get (dev_id d) (greedy_branch calculate_utility sim) = Some (fst r))
  /\ (forall hs : Server -> list string,
        greedy_branch calculate_utility
          (set_servers sim (map (fun s => set_hosted s (hs s)) (servers sim)))
        = greedy_branch calculate_utility sim).
Proof.
  intro ND. split.
  - intros d Hd. exists (best_server (stored_utility calculate_utility sim d) (servers sim)).
    split; [apply best_server_first_max|].
    unfold greedy_branch.
    now rewrite (fold_set_get
                   (fun x => fst (best_server (stored_utility calculate_utility sim x)
                                              (servers sim)))).
  - apply greedy_branch_hosted_irrelevant.
Qed.

(** At the stored costs (3, 1) and (2, 5) the rounded utilities are
    -2.6000000000000005 and -2.6: the second host is strictly better and
    is kept. *)
Lemma C3_witness :
  NoDup (map dev_id (devices c3_close_sim))
  /\ exists r,
       first_max (stored_utility binary64_calculate_utility c3_close_sim
                    (SensorTask_init "task-0" 1.0 30 false))
                 (servers c3_close_sim) r
       /\ fst r = Some "mote-1"%string
       /\ dict_get "task-0" (greedy_branch binary64_calculate_utility c3_close_sim)
          = Some (Some "mote-1"%string).
Proof.
  assert (ND : NoDup (map dev_id (devices c3_close_sim))).
  { simpl. repeat constructor. intros []. }
  split; [exact ND|].
  destruct (C3_greedy_optimises_base_cost binary64_calculate_utility c3_close_sim ND)
    as [H _].
  destruct (H (SensorTask_init "task-0" 1.0 30 false) (or_introl eq_refl)) as [r [F G]].
  exists r. split; [exact F|].
  assert (E : dict_get "task-0" (greedy_branch binary64_calculate_utility c3_close_sim)
              = Some (Some "mote-1"%string)) by (vm_compute; reflexivity).
  split; [|exact E].
  cbn [dev_id SensorTask_init] in G. rewrite E in G. now injection G as <-.
Defined.

(** With exact arithmetic the two utilities at these costs are equal and
    the first host is kept: which host wins a near tie depends on the
    rounding. *)
Lemma greedy_near_tie_exact :
  greedy_branch device_calculate_utility c3_close_sim
  = [("task-0"%string, Some "mote-0"%string)].
Proof. reflexivity. Qed.

(** C3 as stated fails: greedy sends [task-0] to the loaded host, whose
    load-scaled utility is below that of the idle host. *)
Lemma C3_counterexample :
  exists a s0 s1,
    decide (fun _ => O) greedy c3_sim 0 = Ok (a, O)
    /\ servers c3_sim = [s0; s1]
    /\ dict_get "task-0" a = Some (Some (srv_id s0))
    /\ dynamic_utility c3_sim (SensorTask_init "task-0" 1.0 30 false) s0
       < dynamic_utility c3_sim (SensorTask_init "task-0" 1.0 30 false) s1.
Proof.
  eexists. eexists. eexists.
  split; [reflexivity|]. split; [reflexivity|]. split; reflexivity.
Qed.

(** ** Assignments that name known objects *)

Lemma known_ids_nil (sim : Simulation) : known_ids sim [].
Proof. intros k v []. Qed.

Lemma known_ids_set (sim : Simulation) (a : Assignments) (k : string) (v : option string) :
  known_ids sim a ->
  In k (map dev_id (devices sim)) ->
  (forall w, v = Some w -> In w (map srv_id (servers sim))) ->
  known_ids sim (dict_set k v a).
Proof.
  intros Ha Hk Hv k' v' Hin.
  apply in_dict_set in Hin. destruct Hin as [[-> E]|Hin].
  - split; [exact Hk | now apply Hv].
  - now apply Ha.
Qed.

Lemma find_device_some (sim : Simulation) (k : string) :
  In k (map dev_id (devices sim)) -> exists d, find_device sim k = Some d.
Proof.
  unfold find_device. induction (devices sim) as [|x r IH]; simpl; [intros []|].
  intros [E|H].
  - subst k. rewrite String.eqb_refl. now exists x.
  - destruct (String.eqb (dev_id x) k); [now exists x | now apply IH].
Qed.

Lemma find_server_some (sim : Simulation) (k : string) :
  In k (map srv_id (servers sim)) -> exists s, find_server sim k = Some s.
Proof.
  unfold find_server. induction (servers sim) as [|x r IH]; simpl; [intros []|].
  intros [E|H].
  - subst k. rewrite String.eqb_refl. now exists x.
  - destruct (String.eqb (srv_id x) k); [now exists x | now apply IH].
Qed.

Lemma find_server_none (sim : Simulation) (k : string) :
  ~ In k (map srv_id (servers sim)) -> find_server sim k = None.
Proof.
  unfold find_server. induction (servers sim) as [|x r IH]; simpl; [reflexivity|].
  intro N. destruct (String.eqb (srv_id x) k) eqn:E.
  - apply String.eqb_eq in E. exfalso. apply N. now left.
  - apply IH. tauto.
Qed.

Lemma best_server_in (f : Server -> Q) (ss : list Server) (w : string) :
  fst (best_server f ss) = Some w -> In w (map srv_id ss).
Proof.
  destruct (best_server_first_max f ss) as [Hnil | pre post s Hss _ _]; simpl.
  - discriminate.
  - intro E. injection E as <-. subst ss.
    rewrite map_app. apply in_or_app. right. now left.
Qed.

Lemma greedy_known_ids (sim : Simulation) : known_ids sim (greedy_assignments sim).
Proof.
  unfold greedy_assignments.
  assert (G : forall ds a, incl ds (devices sim) -> known_ids sim a ->
            known_ids sim
              (fold_left (fun a d => dict_set (dev_id d) (greedy_choice sim d) a) ds a)).
  { induction ds as [|d r IH]; intros a Hi Ha; [exact Ha|].
    simpl. apply IH; [intros x Hx; apply Hi; now right|].
    apply known_ids_set; [exact Ha | |].
    - apply in_map. apply Hi. now left.
    - intros w Hw. now apply best_server_in in Hw. }
  apply G; [apply incl_refl | apply known_ids_nil].
Qed.

Lemma random_choice_in {A} (draw : nat) (seq : list A) :
  seq <> [] -> exists x, random_choice draw seq = Ok x /\ In x seq.
Proof.
  destruct seq as [|y r]; [congruence|]. intros _.
  exists (nth (draw mod List.length (y :: r)) (y :: r) y). split; [reflexivity|].
  apply nth_In. apply Nat.mod_upper_bound. discriminate.
Qed.

Lemma random_foldM (draws : nat -> nat) (sim : Simulation) (ds : list Device)
    (a : Assignments) (pos : nat) :
  servers sim <> [] -> incl ds (devices sim) -> known_ids sim a ->
  exists a', foldM (baseline_step draws random sim) ds (a, pos)
             = Ok (a', (pos + List.length ds)%nat)
             /\ known_ids sim a'.
Proof.
  intro Hs. revert a pos. induction ds as [|d r IH]; intros a pos Hi Ha.
  - exists a. simpl. rewrite Nat.add_0_r. now split.
  - destruct (random_choice_in (draws pos) (servers sim) Hs) as [x [Hx Hin]].
    cbn [foldM]. unfold baseline_step at 1. rewrite Hx. cbn [bind].
    destruct (IH (dict_set (dev_id d) (Some (srv_id x)) a) (S pos)) as [a' [E K]].
    + intros y Hy. apply Hi. now right.
    + apply known_ids_set; [exact Ha | |].
      * apply in_map. apply Hi. now left.
      * intros w Hw. injection Hw as <-. now apply in_map.
    + exists a'. split; [|exact K].
      etransitivity; [exact E|]. simpl List.length. do 2 f_equal. lia.
Qed.

Lemma decide_random (draws : nat -> nat) (sim : Simulation) (pos : nat) :
  servers sim <> [] ->
  exists a, decide draws random sim pos = Ok (a, (pos + List.length (devices sim))%nat)
            /\ known_ids sim a.
Proof.
  intro Hs. apply random_foldM; [exact Hs | apply incl_refl | apply known_ids_nil].
Qed.

Lemma update_all_trust_ids (sim : Simulation) (a : Assignments) :
  map dev_id (devices (update_all_trust sim a)) = map dev_id (devices sim).
Proof.
  unfold update_all_trust. simpl. rewrite map_map.
  apply map_ext. intro d. apply update_dev_id.
Qed.

Lemma metrics_loop_ok (sim : Simulation) (a : Assignments) (t : Totals) :
  known_ids sim a -> exists t', foldM (metrics_step sim) a t = Ok t'.
Proof.
  revert t. induction a as [|[k v] r IH]; intros t K.
  - now exists t.
  - assert (Kr : known_ids sim r) by (intros k' v' H; apply K; now right).
    simpl. unfold metrics_step at 1. simpl.
    destruct v as [v|]; [|simpl; now apply IH].
    destruct (K k v (or_introl eq_refl)) as [Hk Hv].
    destruct (find_device_some sim k Hk) as [d ->].
    destruct (find_server_some sim v Hv) as [s ->].
    destruct (_get_dynamic_cost sim d s) as [[lat en] pt]. simpl.
    now apply IH.
Qed.

(** ** Materialising an assignment *)

Lemma find_server_found (sim : Simulation) (v : string) :
  match find_server sim v with Some _ => true | None => false end
  = mem_id v (map srv_id (servers sim)).
Proof.
  unfold find_server, mem_id. induction (servers sim) as [|x r IH]; simpl; [reflexivity|].
  rewrite (String.eqb_sym v). destruct (String.eqb (srv_id x) v); [reflexivity | exact IH].
Qed.

Lemma known_entry_same (sim sim1 : Simulation) (e : string * option string) :
  same_objects sim sim1 -> known_entry sim1 e = known_entry sim e.
Proof.
  intros [Hs Hd]. unfold known_entry. destruct (snd e) as [v|]; [|reflexivity].
  pose proof (find_server_found sim v) as F. pose proof (find_server_found sim1 v) as F1.
  rewrite Hs, <- F in F1.
  unfold find_device. rewrite Hd.
  destruct (find_server sim v), (find_server sim1 v); try discriminate; reflexivity.
Qed.

Lemma append_hosted_ids (v k : string) (ss : list Server) :
  map srv_id (append_hosted v k ss) = map srv_id ss.
Proof.
  induction ss as [|s r IH]; [reflexivity|].
  simpl. destruct (String.eqb (srv_id s) v); simpl; [reflexivity | now rewrite IH].
Qed.

Lemma assign_entry_same (sim sim1 : Simulation) (e : string * option string) :
  same_objects sim sim1 -> same_objects sim (assign_entry sim1 e).
Proof.
  intros [Hs Hd]. unfold assign_entry. destruct (snd e) as [v|]; [|now split].
  destruct (find_server sim1 v); [|now split].
  destruct (find_device sim1 (fst e)); [|now split].
  split; simpl; [now rewrite append_hosted_ids | exact Hd].
Qed.

Lemma assign_entry_unknown (sim : Simulation) (e : string * option string) :
  known_entry sim e = false -> assign_entry sim e = sim.
Proof.
  unfold known_entry, assign_entry. destruct (snd e) as [v|]; [|discriminate].
  destruct (find_server sim v); [|reflexivity].
  destruct (find_device sim (fst e)); [discriminate | reflexivity].
Qed.

Lemma fold_assign_skips_unknown (sim : Simulation) (a : Assignments) (sim1 : Simulation) :
  same_objects sim sim1 ->
  fold_left assign_entry a sim1 = fold_left assign_entry (filter (known_entry sim) a) sim1.
Proof.
  revert sim1. induction a as [|e r IH]; intros sim1 H; [reflexivity|].
  simpl. destruct (known_entry sim e) eqn:K.
  - simpl. apply IH. now apply assign_entry_same.
  - rewrite assign_entry_unknown by now rewrite (known_entry_same sim sim1 e H).
    now apply IH.
Qed.

Lemma metrics_loop_raises (sim : Simulation) (a : Assignments) (t : Totals) :
  (exists e, In e a /\ known_entry sim e = false) ->
  foldM (metrics_step sim) a t = Raise StopIteration.
Proof.
  revert t. induction a as [|e r IH]; intros t [x [Hin K]]; [destruct Hin|].
  cbn [foldM]. unfold metrics_step at 1.
  destruct (known_entry sim e) eqn:Ke.
  - destruct Hin as [->|Hin]; [congruence|].
    unfold known_entry in Ke. destruct (snd e) as [v|].
    + destruct (find_server sim v); [|discriminate].
      destruct (find_device sim (fst e)); [|discriminate].
      destruct (_get_dynamic_cost sim d s) as [[lat en] pt]. cbn [bind].
      apply IH. now exists x.
    + cbn [bind]. apply IH. now exists x.
  - unfold known_entry in Ke. destruct (snd e) as [v|]; [|discriminate].
    destruct (find_device sim (fst e)); [|reflexivity].
    destruct (find_server sim v); [discriminate | reflexivity].
Qed.

(** C6, as the code decides it.  Materialisation returns normally for
    every assignment; an entry whose host or item is not found changes
    nothing, so the outcome is that of the assignment without such entries.
    It is the metrics loop of [run] that raises ([StopIteration]) when it
    meets such an entry. *)
Theorem C6_unknown_ids_passed_over (sim : Simulation) (a : Assignments) :
  exists sim',
    _assign_devices_to_servers sim a = Ok sim'
    /\ _assign_devices_to_servers sim (filter (known_entry sim) a) = Ok sim'
    /\ forall t, (exists e, In e a /\ known_entry sim e = false) ->
                 foldM (metrics_step sim) a t = Raise StopIteration.
Proof.
  eexists. split; [reflexivity|]. split.
  - unfold _assign_devices_to_servers. f_equal.
    set (sim0 := set_servers sim (map (fun s => set_hosted s []) (servers sim))).
    assert (H0 : same_objects sim sim0).
    { split; [|reflexivity]. simpl. rewrite map_map. now apply map_ext. }
    symmetry. apply fold_assign_skips_unknown. exact H0.
  - intros t H. now apply metrics_loop_raises.
Qed.

(** C6 as stated fails: an assignment that names an item the simulation
    does not have, and one that names a host it does not have, are
    materialised without an error and leave every host empty. *)
Lemma C6_counterexample :
  (exists sim', _assign_devices_to_servers c2_sim [("ghost"%string, Some "mote-0"%string)]
                = Ok sim'
                /\ map hosted (servers sim') = [[]])
  /\ (exists sim', _assign_devices_to_servers c2_sim [("task-0"%string, Some "nowhere"%string)]
                   = Ok sim'
                   /\ map hosted (servers sim') = [[]]).
Proof.
  split; eexists; split; reflexivity.
Qed.

(** ** Hosted lists after an executed iteration *)

Lemma set_hosted_set_hosted (s : Server) (h1 h2 : list string) :
  set_hosted (set_hosted s h1) h2 = set_hosted s h2.
Proof. reflexivity. Qed.

Lemma append_hosted_map (v k : string) (ss : list Server) :
  NoDup (map srv_id ss) ->
  append_hosted v k ss
  = map (fun s => if String.eqb (srv_id s) v
                  then set_hosted s (hosted s ++ [k]) else s) ss.
Proof.
  induction ss as [|s r IH]; intro ND; [reflexivity|].
  inversion ND as [|? ? Hs ND']; subst. simpl.
  destruct (String.eqb (srv_id s) v) eqn:E.
  - f_equal. apply String.eqb_eq in E. subst v.
    symmetry. erewrite map_ext_in; [apply map_id|].
    intros x Hx. simpl. destruct (String.eqb (srv_id x) (srv_id s)) eqn:Ex; [|reflexivity].
    apply String.eqb_eq in Ex. exfalso. apply Hs. rewrite <- Ex. now apply in_map.
  - f_equal. now apply IH.
Qed.

Lemma fold_assign_servers (a : Assignments) (sim : Simulation) :
  NoDup (map srv_id (servers sim)) ->
  known_ids sim a ->
  servers (fold_left assign_entry a sim)
  = map (fun s => set_hosted s (hosted s ++ assigned_to a (srv_id s))) (servers sim)
  /\ devices (fold_left assign_entry a sim) = devices sim
  /\ cost_matrix (fold_left assign_entry a sim) = cost_matrix sim.
Proof.
  revert sim. induction a as [|[k v] r IH]; intros sim ND K.
  - simpl. split; [|now split].
    symmetry. erewrite map_ext; [apply map_id|].
    intro s. unfold assigned_to. simpl. rewrite app_nil_r. now destruct s.
  - assert (Kr : known_ids sim r) by (intros k' v' H; apply K; now right).
    simpl fold_left. destruct v as [v|].
    + destruct (K k v (or_introl eq_refl)) as [Hk Hv].
      destruct (find_device_some sim k Hk) as [d Hd].
      destruct (find_server_some sim v Hv) as [s Hs].
      set (sim' := set_servers sim (append_hosted v k (servers sim))).
      assert (Hstep : assign_entry sim (k, Some v) = sim')
        by (unfold assign_entry; cbn [snd fst]; now rewrite Hs, Hd).
      rewrite Hstep.
      assert (Hids : map srv_id (servers sim') = map srv_id (servers sim))
        by apply append_hosted_ids.
      destruct (IH sim') as [E1 [E2 E3]].
      * now rewrite Hids.
      * intros k' v' H. destruct (Kr k' v' H) as [A B]. split; [exact A | now rewrite Hids].
      * split; [|split; [exact E2 | exact E3]].
        rewrite E1. subst sim'. cbn [servers set_servers].
        rewrite (append_hosted_map v k _ ND), map_map.
        apply map_ext. intro x. unfold assigned_to. cbn [filter snd].
        rewrite (String.eqb_sym v (srv_id x)).
        destruct (String.eqb (srv_id x) v) eqn:Ex; cbn [map fst].
        -- cbn [set_hosted hosted srv_id]. rewrite set_hosted_set_hosted.
           f_equal. rewrite <- app_assoc. reflexivity.
        -- reflexivity.
    + change (assign_entry sim (k, None)) with sim.
      destruct (IH sim ND Kr) as [E1 [E2 E3]].
      split; [|split; [exact E2 | exact E3]].
      rewrite E1. apply map_ext. intro x. reflexivity.
Qed.

Lemma assign_servers (sim : Simulation) (a : Assignments) :
  NoDup (map srv_id (servers sim)) ->
  known_ids sim a ->
  exists sim',
    _assign_devices_to_servers sim a = Ok sim'
    /\ servers sim' = map (fun s => set_hosted s (assigned_to a (srv_id s))) (servers sim)
    /\ devices sim' = devices sim
    /\ cost_matrix sim' = cost_matrix sim.
Proof.
  intros ND K. eexists. split; [reflexivity|].
  set (sim0 := set_servers sim (map (fun s => set_hosted s []) (servers sim))).
  assert (Hids : map srv_id (servers sim0) = map srv_id (servers sim)).
  { simpl. rewrite map_map. now apply map_ext. }
  destruct (fold_assign_servers a sim0) as [E1 [E2 E3]].
  - now rewrite Hids.
  - intros k v H. destruct (K k v H) as [A B]. split; [exact A | now rewrite Hids].
  - split; [|split; [exact E2 | exact E3]].
    rewrite E1. simpl. rewrite map_map. apply map_ext. intro s. reflexivity.
Qed.

(** ** The game-theoretic strategy returns an assignment of known ids *)

Lemma dict_get_in {V} (k : string) (v : V) (d : dict V) :
  dict_get k d = Some v -> In (k, v) d.
Proof.
  induction d as [|[k' v'] r IH]; simpl; [discriminate|].
  destruct (String.eqb k k') eqn:E.
  - apply String.eqb_eq in E. subst k'. intro H. injection H as ->. now left.
  - intro H. right. now apply IH.
Qed.

Lemma proposals_init_ok (sim : Simulation) :
  proposals_ok sim (fold_left (fun p srv => dict_set (srv_id srv) [] p) (servers sim) []).
Proof.
  assert (G : forall ss (p : dict (list Device)),
            (forall k l, In (k, l) p -> l = []) ->
            let p' := fold_left (fun p srv => dict_set (srv_id srv) [] p) ss p in
            (forall v, In v (map srv_id ss) -> exists l, dict_get v p' = Some l)
            /\ (forall v l, dict_get v p = Some l -> exists l', dict_get v p' = Some l')
            /\ (forall k l, In (k, l) p' -> l = [])).
  { induction ss as [|s r IH]; intros p Hp; simpl.
    - split; [intros v []|]. split; [intros v l H; now exists l | exact Hp].
    - destruct (IH (dict_set (srv_id s) [] p)) as [A [B C]].
      + intros k l H. apply in_dict_set in H. destruct H as [[_ ->]|H]; [reflexivity|].
        now apply (Hp k).
      + split; [|split; [|exact C]].
        * intros v [<-|Hv]; [|now apply A].
          apply (B (srv_id s) []). apply dict_get_set_same.
        * intros v l H. destruct (string_dec v (srv_id s)) as [->|N].
          -- apply (B (srv_id s) []). apply dict_get_set_same.
          -- apply (B v l). now rewrite dict_get_set_other. }
  destruct (G (servers sim) []) as [A [_ C]]; [intros k l []|].
  split; [exact A|]. intros k l d H Hd. rewrite (C k l H) in Hd. destruct Hd.
Qed.

Lemma propose_ok (sim : Simulation) (p : dict (list Device)) (d : Device) :
  proposals_ok sim p -> In d (devices sim) ->
  exists p', propose sim p d = Ok p' /\ proposals_ok sim p'.
Proof.
  intros [P1 P2] Hd. unfold propose.
  destruct (fst (best_server (proposal_utility sim d) (servers sim))) as [b|] eqn:E.
  - apply best_server_in in E. destruct (P1 b E) as [l Hl]. rewrite Hl.
    eexists. split; [reflexivity|]. split.
    + intros v Hv. destruct (string_dec v b) as [->|N].
      * rewrite dict_get_set_same. now eexists.
      * rewrite dict_get_set_other by exact N. now apply P1.
    + intros k l' x H Hx. apply in_dict_set in H. destruct H as [[-> ->]|H].
      * apply in_app_or in Hx. destruct Hx as [Hx|[<-|[]]]; [|exact Hd].
        apply (P2 b l x); [now apply dict_get_in | exact Hx].
      * now apply (P2 k l' x).
  - exists p. now split.
Qed.

Lemma propose_all_ok (sim : Simulation) (ds : list Device) (p : dict (list Device)) :
  proposals_ok sim p -> incl ds (devices sim) ->
  exists p', foldM (propose sim) ds p = Ok p' /\ proposals_ok sim p'.
Proof.
  revert p. induction ds as [|d r IH]; intros p Hp Hi.
  - exists p. now split.
  - destruct (propose_ok sim p d Hp) as [p1 [E1 H1]]; [apply Hi; now left|].
    cbn [foldM]. rewrite E1. cbn [bind].
    apply IH; [exact H1 | intros x Hx; apply Hi; now right].
Qed.

Lemma insert_by_trust_in (d x : Device) (l : list Device) :
  In x (insert_by_trust d l) -> x = d \/ In x l.
Proof.
  induction l as [|h t IH]; simpl.
  - intros [<-|[]]. now left.
  - destruct (Qle_bool (trust_score h) (trust_score d)); simpl.
    + intros [<-|[<-|H]]; [now left | right; now left | right; now right].
    + intros [<-|H]; [right; now left|].
      destruct (IH H) as [->|H']; [now left | right; now right].
Qed.

Lemma sort_by_trust_in (x : Device) (l : list Device) :
  In x (sort_by_trust l) -> In x l.
Proof.
  unfold sort_by_trust. induction l as [|h t IH]; simpl; [tauto|].
  intro H. apply insert_by_trust_in in H. destruct H as [->|H]; [now left|].
  right. now apply IH.
Qed.

Lemma server_utility_ok (s : Server) (l : list Device) :
  Qeq_bool (capacity_cpu s) 0 = false -> exists u, server_calculate_utility s l = Ok u.
Proof.
  intro H. unfold server_calculate_utility. destruct l; [now eexists|].
  rewrite H. now eexists.
Qed.

Lemma accept_scan_ok (s : Server) (req acc : list Device) (u : Q) :
  Qeq_bool (capacity_cpu s) 0 = false ->
  exists acc', accept_scan s req acc u = Ok acc' /\ incl acc' (acc ++ req).
Proof.
  intro H. revert acc u. induction req as [|d r IH]; intros acc u.
  - exists acc. split; [reflexivity|]. rewrite app_nil_r. apply incl_refl.
  - cbn [accept_scan].
    destruct (server_utility_ok s (acc ++ [d]) H) as [u' ->]. cbn [bind].
    destruct (Qltb u u').
    + destruct (IH (acc ++ [d]) u') as [acc' [E I]].
      exists acc'. split; [exact E|]. now rewrite <- app_assoc in I.
    + destruct (IH acc u) as [acc' [E I]].
      exists acc'. split; [exact E|].
      intros x Hx. apply I in Hx. apply in_app_or in Hx. apply in_or_app.
      destruct Hx as [Hx|Hx]; [now left | right; now right].
Qed.

Lemma accept_at_ok (sim : Simulation) (p : dict (list Device)) (fa : Assignments)
    (s : Server) :
  proposals_ok sim p -> In s (servers sim) ->
  Qeq_bool (capacity_cpu s) 0 = false ->
  known_ids sim fa ->
  exists fa', accept_at p fa s = Ok fa' /\ known_ids sim fa'.
Proof.
  intros [P1 P2] Hs Hc K. unfold accept_at.
  destruct (P1 (srv_id s)) as [l Hl]; [now apply in_map|]. rewrite Hl.
  destruct l as [|d0 l0]; [exists fa; now split|].
  cbn [server_calculate_utility bind].
  destruct (accept_scan_ok s (sort_by_trust (d0 :: l0)) [] 0 Hc) as [acc [-> I]].
  cbn [bind]. eexists. split; [reflexivity|].
  assert (Hacc : forall x, In x acc -> In x (devices sim)).
  { intros x Hx. apply I in Hx. cbn [app] in Hx. apply sort_by_trust_in in Hx.
    apply (P2 (srv_id s) (d0 :: l0) x); [now apply dict_get_in | exact Hx]. }
  clear I. revert fa K. induction acc as [|x r IH]; intros fa K; [exact K|].
  simpl. apply IH; [intros y Hy; apply Hacc; now right|].
  apply known_ids_set; [exact K | |].
  - apply in_map. apply Hacc. now left.
  - intros w Hw. injection Hw as <-. now apply in_map.
Qed.

Lemma game_theory_ok (sim : Simulation) :
  Forall (fun s => Qeq_bool (capacity_cpu s) 0 = false) (servers sim) ->
  exists a, game_theory_assignments sim = Ok a /\ known_ids sim a.
Proof.
  intro Hc. unfold game_theory_assignments.
  destruct (propose_all_ok sim (devices sim) _ (proposals_init_ok sim) (incl_refl _))
    as [p [-> Hp]].
  cbn [bind].
  assert (G : forall ss fa, incl ss (servers sim) -> known_ids sim fa ->
            exists a, foldM (accept_at p) ss fa = Ok a /\ known_ids sim a).
  { induction ss as [|s r IH]; intros fa Hi K; [exists fa; now split|].
    destruct (accept_at_ok sim p fa s Hp) as [fa1 [E1 K1]].
    - apply Hi. now left.
    - rewrite Forall_forall in Hc. apply Hc. apply Hi. now left.
    - exact K.
    - cbn [foldM]. rewrite E1. cbn [bind].
      apply IH; [intros x Hx; apply Hi; now right | exact K1]. }
  apply G; [apply incl_refl | apply known_ids_nil].
Qed.

(** ** One executed iteration *)

Lemma fold_assign_same (sim : Simulation) (a : Assignments) (sim1 : Simulation) :
  same_objects sim sim1 -> same_objects sim (fold_left assign_entry a sim1).
Proof.
  revert sim1. induction a as [|e r IH]; intros sim1 H; [exact H|].
  simpl. apply IH. now apply assign_entry_same.
Qed.

Lemma assign_same_objects (sim : Simulation) (a : Assignments) (sim' : Simulation) :
  _assign_devices_to_servers sim a = Ok sim' -> same_objects sim sim'.
Proof.
  unfold _assign_devices_to_servers. intro H. injection H as <-.
  apply fold_assign_same. split; [|reflexivity].
  simpl. rewrite map_map. now apply map_ext.
Qed.

Lemma known_ids_update (sim : Simulation) (a b : Assignments) :
  known_ids sim a -> known_ids (update_all_trust sim b) a.
Proof.
  intros K k v H. destruct (K k v H) as [A B].
  split; [now rewrite update_all_trust_ids | exact B].
Qed.

(** The record an executed iteration appends to, written out for the
    totals [t] of the metrics loop. *)
Lemma record_iteration_ok (np_std : list Q -> Q) (sim : Simulation) (h : History)
    (a : Assignments) :
  known_ids sim a ->
  exists sim' h' t,
    record_iteration np_std sim h a = Ok (sim', h')
    /\ foldM (metrics_step (update_all_trust sim a)) a (mkTotals 0 0 0 0 0) = Ok t
    /\ _assign_devices_to_servers (update_all_trust sim a) a = Ok sim'
    /\ Forall (fun m => exists v, m h' = m h ++ [v]) metrics
    /\ avg_device_utility h'
       = avg_device_utility h
           ++ [if is_empty (devices sim') then 0
               else t_total_utility t / Qlen (devices sim')]
    /\ completion_ratio h'
       = completion_ratio h
           ++ [if is_empty (devices sim') then 0
               else Qnat (t_assigned_count t) / Qlen (devices sim')]
    /\ deadline_adherence h'
       = deadline_adherence h
           ++ [if (0 <? t_assigned_count t)%nat
               then Qnat (t_deadlines_met t) / Qnat (t_assigned_count t) else 0]
    /\ total_energy h' = total_energy h ++ [t_total_energy t]
    /\ exists num : nat,
         malicious_accepted h'
         = malicious_accepted h
             ++ [if (0 <? num)%nat
                 then Qnat (t_malicious_accepted t) / Qnat num else 0].
Proof.
  intro K.
  destruct (metrics_loop_ok (update_all_trust sim a) a (mkTotals 0 0 0 0 0)
              (known_ids_update sim a a K)) as [t Ht].
  unfold record_iteration. rewrite Ht. cbn [bind].
  destruct (_assign_devices_to_servers (update_all_trust sim a) a) as [sim'|e] eqn:E;
    [|discriminate E].
  cbn [bind]. destruct (assign_same_objects _ _ _ E) as [_ Hd].
  eexists. eexists. exists t. split; [reflexivity|]. split; [reflexivity|].
  split; [reflexivity|]. split.
  - unfold metrics. repeat constructor; eexists; reflexivity.
  - cbn. rewrite Hd. repeat split; try reflexivity. eexists. reflexivity.
Qed.

Lemma record_iteration_devices (np_std : list Q -> Q) (sim : Simulation) (h : History)
    (a : Assignments) (sim' : Simulation) (h' : History) :
  record_iteration np_std sim h a = Ok (sim', h') ->
  devices sim'
  = map (fun d => update_trust_score d (mem_id (dev_id d) (dict_keys a))) (devices sim).
Proof.
  unfold record_iteration.
  destruct (foldM (metrics_step (update_all_trust sim a)) a (mkTotals 0 0 0 0 0));
    [|discriminate].
  cbn [bind].
  destruct (_assign_devices_to_servers (update_all_trust sim a) a) as [s2|] eqn:E;
    [|discriminate].
  cbn [bind]. intro H. injection H as <- _.
  destruct (assign_same_objects _ _ _ E) as [_ ->]. reflexivity.
Qed.

Lemma iteration_executed (draws : nat -> nat) (np_std : list Q -> Q)
    (algorithm : Algorithm) (i : nat) (st : State) :
  executed algorithm i ->
  iteration draws np_std algorithm i st
  = ('(assignments, pos) <- decide draws algorithm (st_sim st) (st_pos st) ;;
     '(sim', h') <- record_iteration np_std (st_sim st) (st_history st) assignments ;;
     Ok (mkState sim' h' pos)).
Proof.
  intros [->| ->]; unfold iteration; [reflexivity|].
  destruct algorithm; reflexivity.
Qed.

Lemma iteration_replicated (draws : nat -> nat) (np_std : list Q -> Q)
    (algorithm : Algorithm) (i : nat) (st : State) :
  algorithm <> game_theory -> (0 < i)%nat ->
  iteration draws np_std algorithm i st
  = ('(assignments, pos) <- decide draws algorithm (st_sim st) (st_pos st) ;;
     Ok (mkState (st_sim st) (replicate_history (st_history st)) pos)).
Proof.
  intros N Hi. unfold iteration. apply Nat.ltb_lt in Hi.
  destruct algorithm; [congruence | |]; now rewrite Hi.
Qed.

(** Every strategy computes an assignment of known ids, given hosts of
    non-zero capacity and, for the random strategy, at least one host. *)
Lemma decide_ok (draws : nat -> nat) (algorithm : Algorithm) (sim : Simulation) (pos : nat) :
  Forall (fun s => ~ capacity_cpu s == 0) (servers sim) ->
  (algorithm = random -> servers sim <> []) ->
  exists a pos', decide draws algorithm sim pos = Ok (a, pos') /\ known_ids sim a.
Proof.
  intros Hc Hr. destruct algorithm.
  - destruct (game_theory_ok sim) as [a [E K]].
    + eapply Forall_impl; [|exact Hc]. intros s Hs. cbv beta in Hs.
      destruct (Qeq_bool (capacity_cpu s) 0) eqn:Eq; [|reflexivity].
      apply Qeq_bool_eq in Eq. contradiction.
    + exists a, pos. cbn [decide]. rewrite E. now split.
  - exists (greedy_assignments sim), pos. split; [apply decide_greedy | apply greedy_known_ids].
  - destruct (decide_random draws sim pos (Hr eq_refl)) as [a [E K]].
    now exists a, (pos + List.length (devices sim))%nat.
Qed.

(** ** C5: greedy and random replicate iteration 0 *)

Lemma decide_baseline_ok (draws : nat -> nat) (algorithm : Algorithm) (sim : Simulation)
    (pos : nat) :
  algorithm <> game_theory ->
  (algorithm = random -> servers sim <> []) ->
  exists a pos', decide draws algorithm sim pos = Ok (a, pos') /\ known_ids sim a.
Proof.
  intros N Hr. destruct algorithm; [congruence | |].
  - exists (greedy_assignments sim), pos. split; [apply decide_greedy | apply greedy_known_ids].
  - destruct (decide_random draws sim pos (Hr eq_refl)) as [a [E K]].
    now exists a, (pos + List.length (devices sim))%nat.
Qed.

Lemma replicate_first_repeat (v : Q) (k : nat) :
  replicate_first (repeat v (S k)) = repeat v (S (S k)).
Proof.
  simpl. f_equal. symmetry. apply repeat_cons.
Qed.

Lemma in_metrics (P : (History -> list Q) -> Prop) :
  P avg_device_utility -> P server_load_std_dev -> P avg_trust_honest ->
  P avg_trust_malicious -> P completion_ratio -> P deadline_adherence ->
  P malicious_accepted -> P total_energy ->
  Forall P metrics.
Proof. intros. unfold metrics. repeat constructor; assumption. Qed.

Lemma replicate_history_constant (h1 h : History) (k : nat) :
  Forall (fun m => exists v, m h1 = [v] /\ m h = repeat v (S k)) metrics ->
  Forall (fun m => exists v, m h1 = [v] /\ m (replicate_history h) = repeat v (S (S k)))
         metrics.
Proof.
  intro H. rewrite Forall_forall in H.
  apply in_metrics;
    match goal with
    | |- exists v, ?m h1 = [v] /\ _ =>
      destruct (H m) as [v [E1 E2]];
      [unfold metrics; simpl; tauto
      | exists v; split; [exact E1 | simpl; rewrite E2; apply replicate_first_repeat]]
    end.
Qed.

Lemma replicated_loop (draws : nat -> nat) (np_std : list Q -> Q) (algorithm : Algorithm)
    (h1 : History) (n i k : nat) (st : State) :
  algorithm <> game_theory ->
  (algorithm = random -> servers (st_sim st) <> []) ->
  (0 < i)%nat ->
  Forall (fun m => exists v, m h1 = [v] /\ m (st_history st) = repeat v (S k)) metrics ->
  exists st',
    run_loop draws np_std algorithm n i st = Ok st'
    /\ st_sim st' = st_sim st
    /\ Forall (fun m => exists v, m h1 = [v] /\ m (st_history st') = repeat v (S k + n))
              metrics.
Proof.
  intros N Hr. revert i k st Hr. induction n as [|n IH]; intros i k st Hr Hi Hh.
  - exists st. split; [reflexivity|]. split; [reflexivity|].
    now rewrite Nat.add_0_r.
  - cbn [run_loop]. rewrite (iteration_replicated _ _ _ _ _ N Hi).
    destruct (decide_baseline_ok draws algorithm (st_sim st) (st_pos st) N Hr)
      as [a [pos' [-> _]]].
    cbn [bind].
    destruct (IH (S i) (S k)
                 (mkState (st_sim st) (replicate_history (st_history st)) pos'))
      as [st' [E [Es Eh]]].
    + exact Hr.
    + lia.
    + cbn [st_history]. now apply replicate_history_constant.
    + exists st'. split; [exact E|]. split; [exact Es|].
      replace (S k + S n)%nat with (S (S k) + n)%nat by lia. exact Eh.
Qed.

Lemma first_record_singletons (h' : History) :
  Forall (fun m => exists v, m h' = m empty_history ++ [v]) metrics ->
  Forall (fun m => exists v, m h' = [v] /\ m h' = repeat v 1) metrics.
Proof.
  intro H. rewrite Forall_forall in H.
  apply in_metrics;
    match goal with
    | |- exists v, ?m h' = [v] /\ _ =>
      destruct (H m) as [v E];
      [unfold metrics; simpl; tauto | exists v; split; exact E]
    end.
Qed.

(** C5.  Under greedy and random (the latter with at least one host), a
    run of [n + 1] iterations returns; the objects it leaves are those left
    by iteration 0 alone, and every metric's history is the value recorded
    in iteration 0 repeated [n + 1] times. *)
Theorem C5_baselines_replicate_iteration_0 (draws : nat -> nat) (np_std : list Q -> Q)
    (algorithm : Algorithm) (n : nat) (sim : Simulation) (pos : nat) :
  algorithm <> game_theory ->
  (algorithm = random -> servers sim <> []) ->
  exists st1 st,
    run draws np_std algorithm 1 sim pos = Ok st1
    /\ run draws np_std algorithm (S n) sim pos = Ok st
    /\ st_sim st = st_sim st1
    /\ Forall (fun m => exists v, m (st_history st1) = [v]
                                  /\ m (st_history st) = repeat v (S n)) metrics.
Proof.
  intros N Hr.
  destruct (decide_baseline_ok draws algorithm sim pos N Hr) as [a [pos' [Ed K]]].
  destruct (record_iteration_ok np_std sim empty_history a K)
    as [sim' [h' [t [Er [_ [Ea [Hm _]]]]]]].
  assert (E0 : iteration draws np_std algorithm 0 (mkState sim empty_history pos)
               = Ok (mkState sim' h' pos')).
  { rewrite iteration_executed by now right.
    cbn [st_sim st_pos st_history]. rewrite Ed. cbn [bind]. rewrite Er. reflexivity. }
  assert (Hs' : algorithm = random -> servers sim' <> []).
  { intros Ha Hnil. apply (Hr Ha).
    apply assign_same_objects in Ea. destruct Ea as [Ei _].
    rewrite Hnil in Ei. cbn [update_all_trust servers set_devices] in Ei.
    symmetry in Ei. now apply map_eq_nil in Ei. }
  assert (H1 : Forall (fun m => exists v, m h' = [v] /\ m h' = repeat v 1) metrics)
    by now apply first_record_singletons.
  destruct (replicated_loop draws np_std algorithm h' n 1 0 (mkState sim' h' pos') N Hs')
    as [st [E [Es Eh]]]; [lia | exact H1 |].
  exists (mkState sim' h' pos'), st.
  unfold run. cbn [run_loop]. rewrite E0. cbn [bind].
  split; [reflexivity|]. split; [exact E|]. split; [exact Es|]. exact Eh.
Qed.

Lemma C5_witness :
  (random = random -> servers c4_sim <> [])
  /\ exists st,
       run c4_draws (fun _ => 0) random 3 c4_sim 0 = Ok st
       /\ completion_ratio (st_history st) = [1 / 1; 1 / 1; 1 / 1].
Proof.
  assert (Hr : random = random -> servers c4_sim <> []) by (intros _; discriminate).
  split; [exact Hr|].
  destruct (C5_baselines_replicate_iteration_0 c4_draws (fun _ => 0) random 2 c4_sim 0)
    as [st1 [st [H1 [Hn _]]]]; [discriminate | exact Hr |].
  exists st. split; [exact Hn|].
  vm_compute in Hn. injection Hn as <-. reflexivity.
Defined.

(** ** C10: a key with value [None] counts as assigned *)

Lemma fold_set_keys {V} (f : Device -> V) (ds : list Device) (a : dict V) (k : string) :
  In k (dict_keys (fold_left (fun a d => dict_set (dev_id d) (f d) a) ds a))
  <-> In k (map dev_id ds) \/ In k (dict_keys a).
Proof.
  revert a. induction ds as [|d r IH]; intro a; simpl; [tauto|].
  rewrite IH, dict_keys_set. intuition.
Qed.

Lemma fold_set_values {V} (f : Device -> V) (P : V -> Prop) (ds : list Device) (a : dict V) :
  (forall d, In d ds -> P (f d)) ->
  (forall k v, In (k, v) a -> P v) ->
  forall k v, In (k, v) (fold_left (fun a d => dict_set (dev_id d) (f d) a) ds a) -> P v.
Proof.
  revert a. induction ds as [|d r IH]; intros a Hf Ha; simpl; [exact Ha|].
  apply IH; [intros x Hx; apply Hf; now right|].
  intros k v H. apply in_dict_set in H. destruct H as [[_ ->]|H].
  - apply Hf. now left.
  - now apply (Ha k).
Qed.

Lemma dict_get_of_key {V} (k : string) (d : dict V) :
  In k (dict_keys d) -> exists v, dict_get k d = Some v.
Proof.
  unfold dict_keys. induction d as [|[k' v'] r IH]; simpl; [intros []|].
  destruct (String.eqb k k') eqn:E; [now eexists|].
  intros [H|H]; [|now apply IH].
  subst k'. now rewrite String.eqb_refl in E.
Qed.

Lemma metrics_loop_all_none (sim : Simulation) (a : Assignments) (t : Totals) :
  (forall k v, In (k, v) a -> v = None) -> foldM (metrics_step sim) a t = Ok t.
Proof.
  induction a as [|[k v] r IH]; intro H; [reflexivity|].
  cbn [foldM]. unfold metrics_step at 1. cbn [snd].
  rewrite (H k v (or_introl eq_refl)). cbn [bind].
  apply IH. intros k' v' Hin. apply (H k'). now right.
Qed.

(** C10.  (1) In every executed iteration an item takes the assigned
    branch of the trust update exactly when its id is a key of the
    iteration's assignment.  (2) With no host, greedy stores the value
    [None] under every item's id; the iteration then gives every item the
    assigned-branch update while the assigned count is zero: completion
    ratio, deadline adherence, average utility and total energy are
    recorded as zero. *)
Theorem C10_none_entry_counts_as_assigned (draws : nat -> nat) (np_std : list Q -> Q)
    (st : State) :
  (forall algorithm i st',
      executed algorithm i ->
      iteration draws np_std algorithm i st = Ok st' ->
      exists a,
        decide draws algorithm (st_sim st) (st_pos st) = Ok (a, st_pos st')
        /\ devices (st_sim st')
           = map (fun d => update_trust_score d (mem_id (dev_id d) (dict_keys a)))
                 (devices (st_sim st)))
  /\ (servers (st_sim st) = [] ->
      exists a st',
        decide draws greedy (st_sim st) (st_pos st) = Ok (a, st_pos st)
        /\ (forall d, In d (devices (st_sim st)) -> dict_get (dev_id d) a = Some None)
        /\ iteration draws np_std greedy 0 st = Ok st'
        /\ devices (st_sim st')
           = map (fun d => update_trust_score d true) (devices (st_sim st))
        /\ appended_zero completion_ratio (st_history st) (st_history st')
        /\ appended_zero deadline_adherence (st_history st) (st_history st')
        /\ appended_zero avg_device_utility (st_history st) (st_history st')
        /\ appended_zero total_energy (st_history st) (st_history st')
        /\ appended_zero malicious_accepted (st_history st) (st_history st')).
Proof.
  split.
  - intros algorithm i st' X H.
    rewrite (iteration_executed _ _ _ _ _ X) in H.
    destruct (decide draws algorithm (st_sim st) (st_pos st)) as [[a pos']|] eqn:Ed;
      [|discriminate].
    cbn [bind] in H.
    destruct (record_iteration np_std (st_sim st) (st_history st) a) as [[sim' h']|] eqn:Er;
      [|discriminate].
    cbn [bind] in H. injection H as <-. exists a. split; [reflexivity|].
    cbn [st_sim]. exact (record_iteration_devices np_std _ _ _ _ _ Er).
  - intro Hs. set (sim := st_sim st) in *.
    assert (Hnone : forall k v, In (k, v) (greedy_assignments sim) -> v = None).
    { unfold greedy_assignments.
      apply (fold_set_values (greedy_choice sim) (fun v => v = None)).
      - intros d _. unfold greedy_choice. now rewrite Hs.
      - intros k v []. }
    assert (Hkey : forall d, In d (devices sim) ->
                             In (dev_id d) (dict_keys (greedy_assignments sim))).
    { intros d Hd. unfold greedy_assignments. apply fold_set_keys. left. now apply in_map. }
    destruct (record_iteration_ok np_std sim (st_history st) (greedy_assignments sim)
                (greedy_known_ids sim))
      as [sim' [h' [t [Er [Et [Ea [_ [H1 [H2 [H3 [H4 [num H5]]]]]]]]]]]].
    rewrite metrics_loop_all_none in Et by exact Hnone. injection Et as <-.
    exists (greedy_assignments sim), (mkState sim' h' (st_pos st)).
    split; [apply decide_greedy|]. split.
    { intros d Hd. destruct (dict_get_of_key _ _ (Hkey d Hd)) as [v Hv].
      rewrite Hv. f_equal. apply (Hnone (dev_id d)). now apply dict_get_in. }
    split.
    { rewrite iteration_executed by now right.
      fold sim. rewrite decide_greedy. cbn [bind]. rewrite Er. reflexivity. }
    split.
    { cbn [st_sim]. rewrite (record_iteration_devices _ _ _ _ _ _ Er).
      apply map_ext_in. intros d Hd. f_equal. apply mem_id_true. now apply Hkey. }
    cbn [st_history t_assigned_count t_total_utility t_total_energy t_deadlines_met
         t_malicious_accepted] in *.
    unfold appended_zero.
    split; [eexists; split; [exact H2|]|].
    { destruct (is_empty (devices sim')); [reflexivity|]. apply Qmult_0_l. }
    split; [eexists; split; [exact H3 | reflexivity]|].
    split; [eexists; split; [exact H1|]|].
    { destruct (is_empty (devices sim')); [reflexivity|]. apply Qmult_0_l. }
    split; [eexists; split; [exact H4 | reflexivity]|].
    eexists; split; [exact H5|].
    destruct (0 <? num)%nat; [apply Qmult_0_l | reflexivity].
Qed.

Lemma C10_witness :
  servers c10_sim = []
  /\ exists st',
       iteration (fun _ => O) (fun _ => 0) greedy 0 (mkState c10_sim empty_history 0) = Ok st'
       /\ devices (st_sim st') = map (fun d => update_trust_score d true) (devices c10_sim)
       /\ appended_zero completion_ratio empty_history (st_history st').
Proof.
  split; [reflexivity|].
  destruct (proj2 (C10_none_entry_counts_as_assigned (fun _ => O) (fun _ => 0)
                     (mkState c10_sim empty_history 0)) eq_refl)
    as [a [st' [_ [_ [Hi [Hd [Hc _]]]]]]].
  exists st'. split; [exact Hi|]. split; [exact Hd | exact Hc].
Defined.

(** ** C9: what the aggregator computes *)

Lemma zip_with_length {A B C} (f : A -> B -> C) (l : list A) (l' : list B) (T : nat) :
  List.length l = T -> List.length l' = T -> List.length (zip_with f l l') = T.
Proof.
  revert l' T. induction l as [|x r IH]; intros [|y r'] T H H'; simpl in *; try congruence.
  destruct T; [discriminate|]. f_equal. apply IH; congruence.
Qed.

Lemma nth_zip_with {A B C} (f : A -> B -> C) (l : list A) (l' : list B) (t : nat)
    (da : A) (db : B) (dc : C) :
  (t < List.length l)%nat -> (t < List.length l')%nat ->
  nth t (zip_with f l l') dc = f (nth t l da) (nth t l' db).
Proof.
  revert l' t. induction l as [|x r IH]; intros [|y r'] t H H'; simpl in *; try lia.
  destruct t; [reflexivity|]. apply IH; lia.
Qed.

Lemma fold_left_Rplus (l : list R) (a : R) :
  fold_left Rplus l a = (a + fold_right Rplus 0 l)%R.
Proof.
  revert a. induction l as [|x r IH]; intro a; simpl; [lra|].
  rewrite IH. lra.
Qed.

Lemma sum_rows (rs : list (list R)) (r : list R) (T : nat) :
  List.length r = T -> Forall (fun row => List.length row = T) rs ->
  List.length (fold_left (zip_with Rplus) rs r) = T
  /\ forall t, (t < T)%nat ->
       nth t (fold_left (zip_with Rplus) rs r) 0%R
       = fold_left Rplus (map (fun row => nth t row 0%R) rs) (nth t r 0%R).
Proof.
  revert r. induction rs as [|x rs IH]; intros r Hr Hrs; simpl.
  - split; [exact Hr | reflexivity].
  - inversion Hrs as [|? ? Hx Hrs']; subst.
    destruct (IH (zip_with Rplus r x)) as [L N].
    + now apply zip_with_length.
    + exact Hrs'.
    + split; [exact L|]. intros t Ht. rewrite (N t Ht).
      f_equal. apply nth_zip_with; lia.
Qed.

Lemma nth_map_in {A B} (f : A -> B) (l : list A) (t : nat) (da : A) (db : B) :
  (t < List.length l)%nat -> nth t (map f l) db = f (nth t l da).
Proof.
  revert t. induction l as [|x r IH]; intros t H; simpl in *; [lia|].
  destruct t; [reflexivity|]. apply IH. lia.
Qed.

Lemma mean_axis0_spec (m : list (list R)) (T : nat) :
  m <> [] -> Forall (fun row => List.length row = T) m ->
  List.length (np_mean_axis0 m) = T
  /\ forall t, (t < T)%nat ->
       nth t (np_mean_axis0 m) 0%R = arithmetic_mean (map (fun row => nth t row 0%R) m).
Proof.
  intros Hm Hrows. destruct m as [|r rs]; [congruence|].
  inversion Hrows as [|? ? Hr Hrs]; subst.
  destruct (sum_rows rs r (List.length r) eq_refl Hrs) as [L N].
  unfold np_mean_axis0. cbn [sum_axis0]. split; [now rewrite length_map|].
  intros t Ht.
  rewrite (nth_map_in _ _ t 0%R) by now rewrite L.
  rewrite (N t Ht), fold_left_Rplus.
  unfold arithmetic_mean. now rewrite length_map.
Qed.

Lemma std_axis0_spec (m : list (list R)) (T : nat) :
  m <> [] -> Forall (fun row => List.length row = T) m ->
  List.length (np_std_axis0 m) = T
  /\ forall t, (t < T)%nat ->
       nth t (np_std_axis0 m) 0%R = population_std (map (fun row => nth t row 0%R) m).
Proof.
  intros Hm Hrows. destruct (mean_axis0_spec m T Hm Hrows) as [Lmu Nmu].
  unfold np_std_axis0.
  set (mu := np_mean_axis0 m) in *.
  set (squares := map (fun row => zip_with (fun x u => Rsqr (x - u)) row mu) m).
  assert (Hsq : Forall (fun row => List.length row = T) squares).
  { unfold squares. rewrite Forall_map. eapply Forall_impl; [|exact Hrows].
    intros row Hrow. now apply zip_with_length. }
  assert (Hne : squares <> []).
  { unfold squares. destruct m; [congruence | discriminate]. }
  destruct (mean_axis0_spec squares T Hne Hsq) as [Lsq Nsq].
  split; [now rewrite length_map|].
  intros t Ht.
  rewrite (nth_map_in _ _ t 0%R) by now rewrite Lsq.
  rewrite (Nsq t Ht). unfold population_std. f_equal. f_equal.
  unfold squares. rewrite !map_map. apply map_ext_in. intros row Hin.
  rewrite Forall_forall in Hrows.
  rewrite (nth_zip_with _ row mu t 0%R 0%R) by (rewrite ?Lmu, ?(Hrows row Hin); exact Ht).
  now rewrite (Nmu t Ht).
Qed.

(** *** Keys built with [f'{metric}_mean'] and [f'{metric}_std'] *)

Lemma list_ascii_of_string_app (a b : string) :
  list_ascii_of_string (String.append a b)
  = list_ascii_of_string a ++ list_ascii_of_string b.
Proof. induction a as [|c a IH]; simpl; [reflexivity | now rewrite IH]. Qed.

Lemma append_suffix_inj (a b s : string) :
  String.append a s = String.append b s -> a = b.
Proof.
  intro H. apply (f_equal list_ascii_of_string) in H.
  rewrite !list_ascii_of_string_app in H. apply app_inv_tail in H.
  rewrite <- (string_of_list_ascii_of_string a), <- (string_of_list_ascii_of_string b).
  now rewrite H.
Qed.

Lemma mean_key_not_std_key (a b : string) :
  String.append a "_mean" <> String.append b "_std".
Proof.
  intro H. apply (f_equal list_ascii_of_string) in H.
  rewrite !list_ascii_of_string_app in H.
  apply (f_equal (@rev ascii)) in H. rewrite !rev_app_distr in H.
  simpl in H. discriminate H.
Qed.

(** *** The loop over the metrics *)

Lemma rows_of_metric (histories : list RHistory) (T : nat) (metric : string) :
  metric_complete histories T metric ->
  exists rows,
    mapM (history_get metric) histories = Ok rows
    /\ Forall (fun row => List.length row = T) rows
    /\ List.length rows = List.length histories
    /\ forall t, map (fun row => nth t row 0%R) rows = metric_column histories metric t.
Proof.
  unfold metric_complete, metric_column.
  induction histories as [|run r IH]; intro H.
  - exists []. repeat split; constructor.
  - destruct (H run (or_introl eq_refl)) as [col [Hc Hl]].
    destruct IH as [rows [E [F [L C]]]]; [intros x Hx; apply H; now right|].
    exists (col :: rows). cbn [mapM]. unfold history_get at 1. rewrite Hc. cbn [bind].
    rewrite E. cbn [bind]. split; [reflexivity|]. split; [now constructor|].
    split; [simpl; now rewrite L|].
    intro t. simpl. rewrite Hc, (C t). reflexivity.
Qed.

Lemma np_array_rectangular (rows : list (list R)) (T : nat) :
  Forall (fun row => List.length row = T) rows -> np_array rows = Ok rows.
Proof.
  intro F. destruct rows as [|r rs]; [reflexivity|].
  inversion F as [|? ? Hr Hrs]; subst. unfold np_array.
  replace (forallb _ rs) with true; [reflexivity|].
  symmetry. apply forallb_forall. intros x Hx. apply Nat.eqb_eq.
  rewrite Forall_forall in Hrs. now apply Hrs.
Qed.

Lemma aggregate_metric_ok (histories : list RHistory) (T : nat) (out : dict (list R))
    (metric : string) :
  histories <> [] -> metric_complete histories T metric ->
  exists out',
    aggregate_metric histories out metric = Ok out'
    /\ metric_aggregated histories T metric out'
    /\ forall m, m <> metric ->
         metric_aggregated histories T m out -> metric_aggregated histories T m out'.
Proof.
  intros Hne Hc. destruct (rows_of_metric histories T metric Hc) as [rows [E [F [L C]]]].
  assert (Hrows : rows <> []).
  { destruct rows; [|discriminate]. destruct histories; [congruence | discriminate]. }
  unfold aggregate_metric. rewrite E. cbn [bind].
  rewrite (np_array_rectangular rows T F). cbn [bind].
  destruct (mean_axis0_spec rows T Hrows F) as [Lmu Nmu].
  destruct (std_axis0_spec rows T Hrows F) as [Lsd Nsd].
  eexists. split; [reflexivity|]. split.
  - exists (np_mean_axis0 rows), (np_std_axis0 rows).
    split.
    { rewrite dict_get_set_other by apply mean_key_not_std_key.
      apply dict_get_set_same. }
    split; [apply dict_get_set_same|].
    split; [exact Lmu|]. split; [exact Lsd|].
    intros t Ht. rewrite (Nmu t Ht), (Nsd t Ht), (C t). now split.
  - intros m Hm [mu [sd [G1 [G2 G3]]]]. exists mu, sd.
    split.
    { rewrite dict_get_set_other by apply mean_key_not_std_key.
      rewrite dict_get_set_other; [exact G1|].
      intro H. apply Hm. now apply append_suffix_inj in H. }
    split; [|exact G3].
    rewrite dict_get_set_other.
    + rewrite dict_get_set_other; [exact G2|].
      intro H. symmetry in H. now apply mean_key_not_std_key in H.
    + intro H. apply Hm. now apply append_suffix_inj in H.
Qed.

Lemma aggregate_metrics_ok (histories : list RHistory) (T : nat) (ms : list string)
    (out : dict (list R)) :
  histories <> [] ->
  (forall m, In m ms -> metric_complete histories T m) ->
  exists out',
    foldM (aggregate_metric histories) ms out = Ok out'
    /\ forall m, In m ms \/ metric_aggregated histories T m out ->
                 metric_aggregated histories T m out'.
Proof.
  intro Hne. revert out. induction ms as [|m0 r IH]; intros out Hc.
  - exists out. split; [reflexivity|]. intros m [[]|H]. exact H.
  - destruct (aggregate_metric_ok histories T out m0 Hne (Hc m0 (or_introl eq_refl)))
      as [out1 [E1 [A1 P1]]].
    destruct (IH out1) as [out' [E' P']]; [intros m Hm; apply Hc; now right|].
    exists out'. cbn [foldM]. rewrite E1. cbn [bind]. split; [exact E'|].
    intros m H. apply P'.
    destruct (string_dec m m0) as [->|N]; [now right|].
    destruct H as [[H|H]|H]; [congruence | now left | right; now apply P1].
Qed.

Lemma aggregate_algorithm_ok (histories : list RHistory) (T : nat) :
  histories <> [] ->
  (forall m, In m (dict_keys (hd [] histories)) -> metric_complete histories T m) ->
  exists res,
    aggregate_algorithm histories = Ok res
    /\ forall m, In m (dict_keys (hd [] histories)) -> metric_aggregated histories T m res.
Proof.
  intros Hne Hc. destruct histories as [|first rest]; [congruence|].
  destruct (aggregate_metrics_ok (first :: rest) T (dict_keys first) [] Hne Hc)
    as [res [E P]].
  exists res. split; [exact E|]. intros m Hm. apply P. now left.
Qed.

(** C9.  When every algorithm has at least one trial and every trial's
    history gives each metric [T] values, the aggregator returns, and for
    every algorithm, metric and index [t < T] the [_mean] sequence at [t]
    is the arithmetic mean over the trials of the metric at [t] and the
    [_std] sequence at [t] is their population standard deviation. *)
Theorem C9_aggregator_mean_and_std (all_runs_history : Algorithm -> list RHistory)
    (T : nat) :
  (forall algo,
      all_runs_history algo <> []
      /\ forall m, In m (dict_keys (hd [] (all_runs_history algo))) ->
                   metric_complete (all_runs_history algo) T m) ->
  exists out,
    aggregate all_runs_history = Ok out
    /\ forall algo m,
         In m (dict_keys (hd [] (all_runs_history algo))) ->
         exists mu sd,
           dict_get (String.append m "_mean") (out algo) = Some mu
           /\ dict_get (String.append m "_std") (out algo) = Some sd
           /\ List.length mu = T /\ List.length sd = T
           /\ forall t, (t < T)%nat ->
                nth t mu 0%R = arithmetic_mean (metric_column (all_runs_history algo) m t)
                /\ nth t sd 0%R
                   = population_std (metric_column (all_runs_history algo) m t).
Proof.
  intro H.
  destruct (aggregate_algorithm_ok _ T (proj1 (H game_theory)) (proj2 (H game_theory)))
    as [g [Eg Pg]].
  destruct (aggregate_algorithm_ok _ T (proj1 (H greedy)) (proj2 (H greedy)))
    as [gr [Egr Pgr]].
  destruct (aggregate_algorithm_ok _ T (proj1 (H random)) (proj2 (H random)))
    as [r [Er Pr]].
  eexists. split.
  - unfold aggregate. rewrite Eg, Egr, Er. reflexivity.
  - intros algo m Hm. destruct algo; cbv beta iota;
      [apply (Pg m Hm) | apply (Pgr m Hm) | apply (Pr m Hm)].
Qed.

Lemma C9_witness :
  (forall algo,
      c9_runs algo <> []
      /\ forall m, In m (dict_keys (hd [] (c9_runs algo))) ->
                   metric_complete (c9_runs algo) 2 m)
  /\ exists out mu,
       aggregate c9_runs = Ok out
       /\ dict_get "completion_ratio_mean" (out greedy) = Some mu
       /\ nth 0 mu 0%R = arithmetic_mean [1; 2; 3]%R
       /\ nth 1 mu 0%R = arithmetic_mean [2; 4; 6]%R.
Proof.
  assert (H : forall algo,
             c9_runs algo <> []
             /\ forall m, In m (dict_keys (hd [] (c9_runs algo))) ->
                          metric_complete (c9_runs algo) 2 m).
  { intro algo. split; [discriminate|].
    intros m [<-|[]] run [<-|[<-|[<-|[]]]]; eexists; split; reflexivity. }
  split; [exact H|].
  destruct (C9_aggregator_mean_and_std c9_runs 2 H) as [out [E P]].
  destruct (P greedy "completion_ratio"%string (or_introl eq_refl))
    as [mu [sd [G1 [_ [_ [_ G]]]]]].
  exists out, mu. split; [exact E|]. split; [exact G1|].
  split; [apply (G 0%nat); lia | apply (G 1%nat); lia].
Defined.

(** * Further properties of the engine *)

(** ** What a run leaves untouched *)

Lemma same_static_refl (sim : Simulation) : same_static sim sim.
Proof. repeat split. Qed.

Lemma same_static_trans (a b c : Simulation) :
  same_static a b -> same_static b c -> same_static a c.
Proof.
  intros [A1 [A2 A3]] [B1 [B2 B3]]. repeat split; congruence.
Qed.

Lemma update_static (d : Device) (b : bool) :
  static_device (update_trust_score d b) = static_device d.
Proof.
  rewrite update_unfold. unfold SensorTask_update_trust_score.
  destruct b; [destruct (is_malicious d) eqn:E|]; unfold static_device; simpl;
    rewrite ?E; reflexivity.
Qed.

Lemma append_hosted_static (v k : string) (ss : list Server) :
  map static_server (append_hosted v k ss) = map static_server ss.
Proof.
  induction ss as [|s r IH]; [reflexivity|].
  simpl. destruct (String.eqb (srv_id s) v); simpl; [reflexivity | now rewrite IH].
Qed.

Lemma assign_entry_static (sim : Simulation) (e : string * option string) :
  same_static sim (assign_entry sim e).
Proof.
  unfold assign_entry. destruct (snd e) as [v|]; [|apply same_static_refl].
  destruct (find_server sim v); [|apply same_static_refl].
  destruct (find_device sim (fst e)); [|apply same_static_refl].
  repeat split. simpl. apply append_hosted_static.
Qed.

Lemma fold_assign_static (a : Assignments) (sim : Simulation) :
  same_static sim (fold_left assign_entry a sim).
Proof.
  revert sim. induction a as [|e r IH]; intro sim; [apply same_static_refl|].
  simpl. eapply same_static_trans; [apply assign_entry_static | apply IH].
Qed.

Lemma record_iteration_static (np_std : list Q -> Q) (sim : Simulation) (h : History)
    (a : Assignments) (sim' : Simulation) (h' : History) :
  record_iteration np_std sim h a = Ok (sim', h') -> same_static sim sim'.
Proof.
  unfold record_iteration.
  destruct (foldM (metrics_step (update_all_trust sim a)) a (mkTotals 0 0 0 0 0));
    [|discriminate].
  cbn [bind]. unfold _assign_devices_to_servers. cbn [bind].
  intro H. injection H as <- _.
  eapply same_static_trans; [|apply fold_assign_static].
  repeat split; simpl; rewrite map_map; apply map_ext; intro x;
    [apply update_static | reflexivity].
Qed.

Lemma iteration_static (draws : nat -> nat) (np_std : list Q -> Q) (algorithm : Algorithm)
    (i : nat) (st st' : State) :
  iteration draws np_std algorithm i st = Ok st' -> same_static (st_sim st) (st_sim st').
Proof.
  unfold iteration.
  destruct (decide draws algorithm (st_sim st) (st_pos st)) as [[a pos']|]; [|discriminate].
  cbn [bind].
  destruct (match algorithm with game_theory => false | _ => (0 <? i)%nat end).
  - intro H. injection H as <-. apply same_static_refl.
  - destruct (record_iteration np_std (st_sim st) (st_history st) a) as [[sim' h']|] eqn:E;
      [|discriminate].
    cbn [bind]. intro H. injection H as <-. cbn [st_sim].
    now apply (record_iteration_static np_std _ _ _ _ _ E).
Qed.

Lemma run_loop_static (draws : nat -> nat) (np_std : list Q -> Q) (algorithm : Algorithm)
    (n i : nat) (st st' : State) :
  run_loop draws np_std algorithm n i st = Ok st' -> same_static (st_sim st) (st_sim st').
Proof.
  revert i st. induction n as [|n IH]; intros i st H.
  - injection H as <-. apply same_static_refl.
  - cbn [run_loop] in H.
    destruct (iteration draws np_std algorithm i st) as [st1|] eqn:E; [|discriminate].
    cbn [bind] in H.
    eapply same_static_trans; [apply (iteration_static _ _ _ _ _ _ E) | apply (IH _ _ H)].
Qed.

(** Whatever the strategy and the number of iterations, a run that returns
    has changed no item's class, id, demand, weights, deadline or malicious
    flag, no host's class, id, capacity or weight, and no cost entry; the
    populations keep their order and size. *)
Theorem run_preserves_static_data (draws : nat -> nat) (np_std : list Q -> Q)
    (algorithm : Algorithm) (n : nat) (sim : Simulation) (pos : nat) (st : State) :
  run draws np_std algorithm n sim pos = Ok st ->
  map static_device (devices (st_sim st)) = map static_device (devices sim)
  /\ map static_server (servers (st_sim st)) = map static_server (servers sim)
  /\ cost_matrix (st_sim st) = cost_matrix sim.
Proof.
  intro H. exact (run_loop_static _ _ _ _ _ _ _ H).
Qed.

(** ** A run returns *)

Lemma static_capacities (ss ss' : list Server) :
  map static_server ss' = map static_server ss ->
  Forall (fun s => ~ capacity_cpu s == 0) ss ->
  Forall (fun s => ~ capacity_cpu s == 0) ss'.
Proof.
  intros E H.
  assert (C : map capacity_cpu ss' = map capacity_cpu ss).
  { apply (f_equal (map (fun x : ServerClass * string * Q * Q => snd (fst x)))) in E.
    rewrite !map_map in E. exact E. }
  assert (G : forall l, Forall (fun s => ~ capacity_cpu s == 0) l
                        <-> Forall (fun c => ~ c == 0) (map capacity_cpu l))
    by (intro l; now rewrite Forall_map).
  apply G. rewrite C. now apply G.
Qed.

Lemma static_nonempty (ss ss' : list Server) :
  map static_server ss' = map static_server ss -> ss <> [] -> ss' <> [].
Proof.
  intros E H Hn. subst ss'. destruct ss; [congruence | discriminate].
Qed.

Lemma iteration_returns (draws : nat -> nat) (np_std : list Q -> Q) (algorithm : Algorithm)
    (i : nat) (st : State) :
  Forall (fun s => ~ capacity_cpu s == 0) (servers (st_sim st)) ->
  (algorithm = random -> servers (st_sim st) <> []) ->
  exists st', iteration draws np_std algorithm i st = Ok st'.
Proof.
  intros Hc Hr.
  destruct (decide_ok draws algorithm (st_sim st) (st_pos st) Hc Hr) as [a [pos' [Ed K]]].
  destruct (record_iteration_ok np_std (st_sim st) (st_history st) a K)
    as [sim' [h' [t [Er _]]]].
  unfold iteration. rewrite Ed. cbn [bind].
  destruct (match algorithm with game_theory => false | _ => (0 <? i)%nat end).
  - now eexists.
  - rewrite Er. cbn [bind]. now eexists.
Qed.

Lemma run_loop_returns (draws : nat -> nat) (np_std : list Q -> Q) (algorithm : Algorithm)
    (n i : nat) (st : State) :
  Forall (fun s => ~ capacity_cpu s == 0) (servers (st_sim st)) ->
  (algorithm = random -> servers (st_sim st) <> []) ->
  exists st', run_loop draws np_std algorithm n i st = Ok st'.
Proof.
  revert i st. induction n as [|n IH]; intros i st Hc Hr; [now exists st|].
  destruct (iteration_returns draws np_std algorithm i st Hc Hr) as [st1 E].
  cbn [run_loop]. rewrite E. cbn [bind].
  destruct (iteration_static _ _ _ _ _ _ E) as [_ [Hs _]].
  apply IH.
  - now apply (static_capacities _ _ Hs).
  - intro Ha. now apply (static_nonempty _ _ Hs), Hr.
Qed.

(** With hosts of non-zero capacity (what both host constructors
    establish) and, for the random strategy, at least one host, [run]
    returns a history for every number of iterations: no lookup, division
    or choice in it raises. *)
Theorem run_returns (draws : nat -> nat) (np_std : list Q -> Q) (algorithm : Algorithm)
    (n : nat) (sim : Simulation) (pos : nat) :
  Forall (fun s => ~ capacity_cpu s == 0) (servers sim) ->
  (algorithm = random -> servers sim <> []) ->
  exists st, run draws np_std algorithm n sim pos = Ok st.
Proof.
  intros Hc Hr. now apply run_loop_returns.
Qed.

Lemma constructors_capacity_positive (i : string) (c : Q) :
  0 < capacity_cpu (Mote_init i c) /\ 0 < capacity_cpu (AzureIoTEdgeDevice_init i c).
Proof.
  simpl. destruct (Qltb 0 c) eqn:E.
  - apply Qltb_true in E. now split.
  - split; reflexivity.
Qed.

Lemma run_returns_witness :
  Forall (fun s => ~ capacity_cpu s == 0) (servers c4_sim)
  /\ exists st, run c4_draws (fun _ => 0) random 50 c4_sim 0 = Ok st.
Proof.
  assert (Hc : Forall (fun s => ~ capacity_cpu s == 0) (servers c4_sim))
    by (simpl; repeat constructor; discriminate).
  split; [exact Hc|].
  apply (run_returns c4_draws (fun _ => 0) random 50 c4_sim 0 Hc). discriminate.
Defined.

(** ** Length of the histories *)

Lemma record_iteration_appends (np_std : list Q -> Q) (sim : Simulation) (h : History)
    (a : Assignments) (sim' : Simulation) (h' : History) :
  record_iteration np_std sim h a = Ok (sim', h') ->
  Forall (fun m => exists v, m h' = m h ++ [v]) metrics.
Proof.
  unfold record_iteration.
  destruct (foldM (metrics_step (update_all_trust sim a)) a (mkTotals 0 0 0 0 0));
    [|discriminate].
  cbn [bind]. unfold _assign_devices_to_servers. cbn [bind].
  intro H. injection H as _ <-.
  unfold metrics. repeat constructor; eexists; reflexivity.
Qed.

Lemma replicate_first_length (l : list Q) (i : nat) :
  List.length l = S i -> List.length (replicate_first l) = S (S i).
Proof.
  destruct l as [|x r]; [discriminate|]. intro H. simpl in *.
  rewrite length_app. simpl. lia.
Qed.

Lemma iteration_lengths (draws : nat -> nat) (np_std : list Q -> Q) (algorithm : Algorithm)
    (i : nat) (st st' : State) :
  iteration draws np_std algorithm i st = Ok st' ->
  Forall (fun m => List.length (m (st_history st)) = i) metrics ->
  Forall (fun m => List.length (m (st_history st')) = S i) metrics.
Proof.
  unfold iteration.
  destruct (decide draws algorithm (st_sim st) (st_pos st)) as [[a pos']|]; [|discriminate].
  cbn [bind].
  destruct (match algorithm with game_theory => false | _ => (0 <? i)%nat end) eqn:R.
  - intros H L. injection H as <-. cbn [st_history].
    assert (Hi : exists j, i = S j).
    { destruct i; [destruct algorithm; discriminate | now eexists]. }
    destruct Hi as [j ->]. rewrite Forall_forall in L.
    apply in_metrics;
      match goal with
      | |- List.length (?m _) = _ =>
        simpl; apply replicate_first_length; apply (L m); unfold metrics; simpl; tauto
      end.
  - destruct (record_iteration np_std (st_sim st) (st_history st) a) as [[sim' h']|] eqn:E;
      [|discriminate].
    cbn [bind]. intros H L. injection H as <-. cbn [st_history].
    pose proof (record_iteration_appends _ _ _ _ _ _ E) as A.
    rewrite Forall_forall in *. intros m Hm.
    destruct (A m Hm) as [v ->]. rewrite length_app, (L m Hm). simpl. lia.
Qed.

Lemma run_loop_lengths (draws : nat -> nat) (np_std : list Q -> Q) (algorithm : Algorithm)
    (k i : nat) (s s' : State) :
  run_loop draws np_std algorithm k i s = Ok s' ->
  Forall (fun m => List.length (m (st_history s)) = i) metrics ->
  Forall (fun m => List.length (m (st_history s')) = (i + k)%nat) metrics.
Proof.
  revert i s. induction k as [|k IH]; intros i s H L.
  - injection H as <-. now rewrite Nat.add_0_r.
  - cbn [run_loop] in H.
    destruct (iteration draws np_std algorithm i s) as [s1|] eqn:E; [|discriminate].
    cbn [bind] in H. replace (i + S k)%nat with (S i + k)%nat by lia.
    apply (IH _ _ H). now apply (iteration_lengths _ _ _ _ _ _ E).
Qed.

(** A run that returns has recorded, for every strategy and every one of
    the eight metrics, exactly one value per iteration. *)
Theorem run_history_lengths (draws : nat -> nat) (np_std : list Q -> Q)
    (algorithm : Algorithm) (n : nat) (sim : Simulation) (pos : nat) (st : State) :
  run draws np_std algorithm n sim pos = Ok st ->
  Forall (fun m => List.length (m (st_history st)) = n) metrics.
Proof.
  intro H. apply (run_loop_lengths _ _ _ n 0%nat _ _ H). apply in_metrics; reflexivity.
Qed.

Lemma run_history_lengths_witness :
  exists st, run c4_draws (fun _ => 0) game_theory 3 c4_sim 0 = Ok st
             /\ Forall (fun m => List.length (m (st_history st)) = 3%nat) metrics.
Proof.
  destruct (run_loop_returns c4_draws (fun _ => 0) game_theory 3 0
              (mkState c4_sim empty_history 0)) as [st E].
  - simpl. repeat constructor; discriminate.
  - discriminate.
  - exists st. split; [exact E|].
    exact (run_history_lengths c4_draws (fun _ => 0) game_theory 3 c4_sim 0 st E).
Defined.

(** ** The trust interval that the update does keep *)

Lemma update_keeps_positive_capped (d : Device) (b : bool) :
  0 < trust_score d <= 1.0 -> 0 < trust_score (update_trust_score d b) <= 1.0.
Proof.
  intros [Hlo Hhi]. destruct b.
  - destruct (is_malicious d) eqn:M.
    + destruct (trust_assigned_malicious d M) as [-> _].
      pose proof (Qnat_nonneg (consecutive_rejections d)) as Hc.
      pose proof (Qnat_S (consecutive_rejections d)) as Hs.
      set (c := inject_Z (Z.of_nat (S (consecutive_rejections d)))) in *.
      destruct (py_max_cases 0.1 (trust_score d * (0.90 - 0.05 * c))) as [[H ->]|[H ->]].
      * split; [lra | nra].
      * split; lra.
    + rewrite (trust_assigned_honest d M).
      destruct (py_min_cases 1.0 (trust_score d * 1.05)) as [[H ->]|[H ->]]; split; lra.
  - rewrite trust_not_assigned. split; lra.
Qed.

Lemma iteration_keeps_trust (draws : nat -> nat) (np_std : list Q -> Q)
    (algorithm : Algorithm) (i : nat) (st st' : State) :
  iteration draws np_std algorithm i st = Ok st' ->
  Forall (fun d => 0 < trust_score d <= 1.0) (devices (st_sim st)) ->
  Forall (fun d => 0 < trust_score d <= 1.0) (devices (st_sim st')).
Proof.
  unfold iteration.
  destruct (decide draws algorithm (st_sim st) (st_pos st)) as [[a pos']|]; [|discriminate].
  cbn [bind].
  destruct (match algorithm with game_theory => false | _ => (0 <? i)%nat end).
  - intros H F. now injection H as <-.
  - destruct (record_iteration np_std (st_sim st) (st_history st) a) as [[sim' h']|] eqn:E;
      [|discriminate].
    cbn [bind]. intros H F. injection H as <-. cbn [st_sim].
    rewrite (record_iteration_devices _ _ _ _ _ _ E), Forall_map.
    eapply Forall_impl; [|exact F]. intros d Hd. now apply update_keeps_positive_capped.
Qed.

(** If every item starts with a score in (0, 1.0], as both item
    constructors set it, then after a run of any strategy and length every
    item's score is still in (0, 1.0]: the ceiling is enforced, and the
    score stays positive although it can pass below 0.1. *)
Theorem run_keeps_trust_positive_and_capped (draws : nat -> nat) (np_std : list Q -> Q)
    (algorithm : Algorithm) (n : nat) (sim : Simulation) (pos : nat) (st : State) :
  Forall (fun d => 0 < trust_score d <= 1.0) (devices sim) ->
  run draws np_std algorithm n sim pos = Ok st ->
  Forall (fun d => 0 < trust_score d <= 1.0) (devices (st_sim st)).
Proof.
  unfold run. intros F.
  change (devices sim) with (devices (st_sim (mkState sim empty_history pos))) in F.
  generalize dependent (mkState sim empty_history pos). generalize 0%nat.
  induction n as [|n IH]; intros i s F H.
  - now injection H as <-.
  - cbn [run_loop] in H.
    destruct (iteration draws np_std algorithm i s) as [s1|] eqn:E; [|discriminate].
    cbn [bind] in H. apply (IH _ _ (iteration_keeps_trust _ _ _ _ _ _ E F) H).
Qed.

Lemma run_keeps_trust_witness :
  Forall (fun d => 0 < trust_score d <= 1.0) (devices c10_sim)
  /\ exists st, run (fun _ => O) (fun _ => 0) game_theory 5 c10_sim 0 = Ok st
                /\ Forall (fun d => 0 < trust_score d <= 1.0) (devices (st_sim st)).
Proof.
  assert (F : Forall (fun d => 0 < trust_score d <= 1.0) (devices c10_sim)).
  { simpl. repeat constructor; simpl; lra. }
  split; [exact F|].
  destruct (run_loop_returns (fun _ => O) (fun _ => 0) game_theory 5 0
              (mkState c10_sim empty_history 0)) as [st E].
  - simpl. constructor.
  - discriminate.
  - exists st. split; [exact E|].
    exact (run_keeps_trust_positive_and_capped _ _ _ _ _ _ _ F E).
Defined.

(** ** Draws of the random generator *)

Lemma decide_pos (draws : nat -> nat) (algorithm : Algorithm) (sim : Simulation)
    (pos pos' : nat) (a : Assignments) :
  decide draws algorithm sim pos = Ok (a, pos') ->
  pos' = match algorithm with
         | random => (pos + List.length (devices sim))%nat
         | _ => pos
         end.
Proof.
  destruct algorithm.
  - cbn [decide]. destruct (game_theory_assignments sim); [|discriminate].
    cbn [bind]. intro H. now injection H.
  - rewrite decide_greedy. intro H. now injection H.
  - cbn [decide]. generalize (@nil (string * option string)).
    revert pos. induction (devices sim) as [|d r IH]; intros pos a0 H.
    + injection H as _ <-. simpl. lia.
    + cbn [foldM] in H. unfold baseline_step at 1 in H.
      destruct (random_choice (draws pos) (servers sim)) as [x|]; [|discriminate].
      cbn [bind] in H. apply IH in H. simpl List.length. lia.
Qed.

(** A run of the random strategy reads one draw per item in every
    iteration, the replicated ones included; the other two strategies read
    none. *)
Theorem run_draws_consumed (draws : nat -> nat) (np_std : list Q -> Q)
    (algorithm : Algorithm) (n : nat) (sim : Simulation) (pos : nat) (st : State) :
  run draws np_std algorithm n sim pos = Ok st ->
  st_pos st = match algorithm with
              | random => (pos + n * List.length (devices sim))%nat
              | _ => pos
              end.
Proof.
  unfold run.
  assert (G : forall k i s s',
             run_loop draws np_std algorithm k i s = Ok s' ->
             st_pos s' = match algorithm with
                         | random => (st_pos s + k * List.length (devices (st_sim s)))%nat
                         | _ => st_pos s
                         end).
  { induction k as [|k IH]; intros i s s' H.
    - injection H as <-. destruct algorithm; simpl; lia.
    - cbn [run_loop] in H.
      destruct (iteration draws np_std algorithm i s) as [s1|] eqn:E; [|discriminate].
      cbn [bind] in H. rewrite (IH _ _ _ H).
      destruct (iteration_static _ _ _ _ _ _ E) as [Hd _].
      apply (f_equal (@List.length _)) in Hd. rewrite !length_map in Hd.
      assert (P : st_pos s1 = match algorithm with
                               | random => (st_pos s + List.length (devices (st_sim s)))%nat
                               | _ => st_pos s
                               end).
      { unfold iteration in E.
        destruct (decide draws algorithm (st_sim s) (st_pos s)) as [[a pos']|] eqn:Ed;
          [|discriminate].
        apply decide_pos in Ed. cbn [bind] in E.
        destruct (match algorithm with game_theory => false | _ => (0 <? i)%nat end).
        - injection E as <-. exact Ed.
        - destruct (record_iteration np_std (st_sim s) (st_history s) a) as [[x y]|];
            [|discriminate].
          cbn [bind] in E. injection E as <-. exact Ed. }
      rewrite P, Hd. destruct algorithm; lia. }
  intro H. exact (G n 0%nat _ _ H).
Qed.

Lemma run_draws_consumed_witness :
  exists st, run c4_draws (fun _ => 0) random 50 c4_sim 0 = Ok st /\ st_pos st = 50%nat.
Proof.
  destruct (run_loop_returns c4_draws (fun _ => 0) random 50 0
              (mkState c4_sim empty_history 0)) as [st E].
  - simpl. repeat constructor; discriminate.
  - discriminate.
  - exists st. split; [exact E|].
    exact (run_draws_consumed c4_draws (fun _ => 0) random 50 c4_sim 0 st E).
Defined.

(** ** Keys of an assignment *)

Lemma dict_set_keys_present {V} (k : string) (v : V) (d : dict V) :
  In k (dict_keys d) -> dict_keys (dict_set k v d) = dict_keys d.
Proof.
  unfold dict_keys. induction d as [|[k' v'] r IH]; simpl; [intros []|].
  destruct (String.eqb k k') eqn:E; simpl; [reflexivity|].
  intros [H|H]; [subst k'; now rewrite String.eqb_refl in E | now rewrite IH].
Qed.

Lemma dict_set_keys_absent {V} (k : string) (v : V) (d : dict V) :
  ~ In k (dict_keys d) -> dict_keys (dict_set k v d) = dict_keys d ++ [k].
Proof.
  unfold dict_keys. induction d as [|[k' v'] r IH]; simpl; [reflexivity|].
  intro N. destruct (String.eqb k k') eqn:E.
  - apply String.eqb_eq in E. exfalso. apply N. now left.
  - simpl. rewrite IH; [reflexivity | tauto].
Qed.

Lemma dict_set_nodup {V} (k : string) (v : V) (d : dict V) :
  NoDup (dict_keys d) -> NoDup (dict_keys (dict_set k v d)).
Proof.
  intro H. destruct (in_dec string_dec k (dict_keys d)) as [I|N].
  - now rewrite dict_set_keys_present.
  - rewrite dict_set_keys_absent by exact N.
    apply NoDup_app; [exact H | repeat constructor; intros [] |].
    intros x Hx [<-|[]]. contradiction.
Qed.

Lemma foldM_invariant {A S : Type} (P : S -> Prop) (f : S -> A -> result S) (l : list A) :
  (forall s a s', In a l -> f s a = Ok s' -> P s -> P s') ->
  forall s s', foldM f l s = Ok s' -> P s -> P s'.
Proof.
  induction l as [|a r IH]; intros Hf s s' H Hs.
  - now injection H as <-.
  - cbn [foldM] in H. destruct (f s a) as [s1|] eqn:E; [|discriminate].
    cbn [bind] in H.
    apply (IH (fun s0 a0 s0' Hin => Hf s0 a0 s0' (or_intror Hin)) _ _ H).
    now apply (Hf _ _ _ (or_introl eq_refl) E).
Qed.

Lemma fold_dict_set_nodup {A V} (key : A -> string) (val : A -> V) (l : list A)
    (d : dict V) :
  NoDup (dict_keys d) ->
  NoDup (dict_keys (fold_left (fun fa x => dict_set (key x) (val x) fa) l d)).
Proof.
  revert d. induction l as [|x r IH]; intros d H; [exact H|].
  simpl. apply IH. now apply dict_set_nodup.
Qed.

Lemma accept_at_nodup (p : dict (list Device)) (fa fa' : Assignments) (s : Server) :
  accept_at p fa s = Ok fa' -> NoDup (dict_keys fa) -> NoDup (dict_keys fa').
Proof.
  unfold accept_at. destruct (dict_get (srv_id s) p) as [[|d0 l0]|]; [| |discriminate].
  - intros H N. now injection H as <-.
  - cbn [server_calculate_utility bind].
    destruct (accept_scan s (sort_by_trust (d0 :: l0)) [] 0) as [acc|]; [|discriminate].
    cbn [bind]. intros H N. injection H as <-.
    now apply (fold_dict_set_nodup dev_id (fun _ => Some (srv_id s))).
Qed.

Lemma entries_known_set (sim : Simulation) (a : Assignments) (k : string) (v : option string) :
  entries_known sim a ->
  In k (map dev_id (devices sim)) ->
  (forall w, v = Some w -> In w (map srv_id (servers sim))) ->
  entries_known sim (dict_set k v a).
Proof.
  intros Ha Hk Hv k' v' Hin.
  apply in_dict_set in Hin. destruct Hin as [[-> ->]|Hin]; [now split | now apply Ha].
Qed.

Lemma entries_known_fold (sim : Simulation) (val : Device -> option string)
    (ds : list Device) (a : Assignments) :
  incl ds (devices sim) ->
  (forall d w, val d = Some w -> In w (map srv_id (servers sim))) ->
  entries_known sim a ->
  entries_known sim (fold_left (fun fa d => dict_set (dev_id d) (val d) fa) ds a).
Proof.
  revert a. induction ds as [|d r IH]; intros a Hi Hv Ha; [exact Ha|].
  simpl. apply IH; [intros x Hx; apply Hi; now right | exact Hv |].
  apply entries_known_set; [exact Ha | apply in_map, Hi; now left | apply Hv].
Qed.

Lemma accept_scan_incl (s : Server) (req acc acc' : list Device) (u : Q) :
  accept_scan s req acc u = Ok acc' -> incl acc' (acc ++ req).
Proof.
  revert acc u. induction req as [|d r IH]; intros acc u H.
  - injection H as <-. rewrite app_nil_r. apply incl_refl.
  - cbn [accept_scan] in H.
    destruct (server_calculate_utility s (acc ++ [d])) as [u'|]; [|discriminate].
    cbn [bind] in H. destruct (Qltb u u').
    + apply IH in H. now rewrite <- app_assoc in H.
    + apply IH in H. intros x Hx. apply H in Hx. apply in_app_or in Hx.
      apply in_or_app. destruct Hx as [Hx|Hx]; [now left | right; now right].
Qed.

Lemma accept_at_entries (sim : Simulation) (p : dict (list Device)) (fa fa' : Assignments)
    (s : Server) :
  proposals_ok sim p -> In s (servers sim) ->
  accept_at p fa s = Ok fa' -> entries_known sim fa -> entries_known sim fa'.
Proof.
  intros [_ P2] Hs. unfold accept_at.
  destruct (dict_get (srv_id s) p) as [[|d0 l0]|] eqn:El; [| |discriminate].
  - intros H K. now injection H as <-.
  - cbn [server_calculate_utility bind].
    destruct (accept_scan s (sort_by_trust (d0 :: l0)) [] 0) as [acc|] eqn:Ea;
      [|discriminate].
    cbn [bind]. intros H K. injection H as <-.
    apply accept_scan_incl in Ea. cbn [app] in Ea.
    apply (entries_known_fold sim (fun _ => Some (srv_id s))); [| |exact K].
    + intros x Hx. apply Ea, sort_by_trust_in in Hx.
      apply (P2 (srv_id s) (d0 :: l0) x); [now apply dict_get_in | exact Hx].
    + intros _ w Hw. injection Hw as <-. now apply in_map.
Qed.

Lemma decide_keys_nodup (draws : nat -> nat) (algorithm : Algorithm) (sim : Simulation)
    (pos pos' : nat) (a : Assignments) :
  decide draws algorithm sim pos = Ok (a, pos') -> NoDup (dict_keys a).
Proof.
  assert (N0 : NoDup (dict_keys (@nil (string * option string)))) by constructor.
  destruct algorithm.
  - cbn [decide]. unfold game_theory_assignments.
    destruct (foldM (propose sim) (devices sim) _) as [p|]; [|discriminate].
    cbn [bind].
    destruct (foldM (accept_at p) (servers sim) []) as [fa|] eqn:E; [|discriminate].
    cbn [bind]. intro H. injection H as <- _.
    apply (foldM_invariant (fun fa => NoDup (dict_keys fa)) _ _
             (fun fa0 s0 fa1 _ => accept_at_nodup p fa0 fa1 s0) _ _ E N0).
  - rewrite decide_greedy. intro H. injection H as <- _.
    now apply (fold_dict_set_nodup dev_id (greedy_choice sim)).
  - cbn [decide]. intro H.
    apply (foldM_invariant (fun st : Assignments * nat => NoDup (dict_keys (fst st)))
             _ _) with (s' := (a, pos')) in H; [exact H | | exact N0].
    intros [a0 p0] d [a1 p1] _ Hs Hn. unfold baseline_step in Hs.
    destruct (random_choice (draws p0) (servers sim)) as [x|]; [|discriminate].
    cbn [bind] in Hs. injection Hs as <- _. now apply dict_set_nodup.
Qed.

Lemma random_choice_member {A} (draw : nat) (seq : list A) (x : A) :
  random_choice draw seq = Ok x -> In x seq.
Proof.
  intro H. assert (N : seq <> []) by (destruct seq; [discriminate H | discriminate]).
  destruct (random_choice_in draw seq N) as [x' [E I]].
  rewrite E in H. now injection H as <-.
Qed.

Lemma decide_entries_known (draws : nat -> nat) (algorithm : Algorithm) (sim : Simulation)
    (pos pos' : nat) (a : Assignments) :
  decide draws algorithm sim pos = Ok (a, pos') -> entries_known sim a.
Proof.
  assert (K0 : entries_known sim []) by (intros k v []).
  destruct algorithm.
  - cbn [decide]. unfold game_theory_assignments.
    destruct (propose_all_ok sim (devices sim) _ (proposals_init_ok sim) (incl_refl _))
      as [p [-> Hp]].
    cbn [bind].
    destruct (foldM (accept_at p) (servers sim) []) as [fa|] eqn:E; [|discriminate].
    cbn [bind]. intro H. injection H as <- _.
    apply (foldM_invariant (entries_known sim) _ _
             (fun fa0 s0 fa1 Hin => accept_at_entries sim p fa0 fa1 s0 Hp Hin) _ _ E K0).
  - rewrite decide_greedy. intro H. injection H as <- _.
    apply entries_known_fold; [apply incl_refl | | exact K0].
    intros d w Hw. now apply best_server_in in Hw.
  - cbn [decide]. intro H.
    apply (foldM_invariant (fun st : Assignments * nat => entries_known sim (fst st))
             _ _) with (s' := (a, pos')) in H; [exact H | | exact K0].
    intros [a0 p0] d [a1 p1] Hin Hs Hn. unfold baseline_step in Hs.
    destruct (random_choice (draws p0) (servers sim)) as [x|] eqn:Ex; [|discriminate].
    cbn [bind] in Hs. injection Hs as <- _.
    apply entries_known_set; [exact Hn | now apply in_map |].
    intros w Hw. injection Hw as <-. apply in_map.
    now apply (random_choice_member _ _ _ Ex).
Qed.

(** Whenever a strategy returns an assignment, the assignment holds each
    item id at most once, every key is the id of an item of the population
    and every host it names is a host of the population. *)
Theorem decide_assignment_well_formed (draws : nat -> nat) (algorithm : Algorithm)
    (sim : Simulation) (pos pos' : nat) (a : Assignments) :
  decide draws algorithm sim pos = Ok (a, pos') ->
  NoDup (dict_keys a)
  /\ (forall k, In k (dict_keys a) -> In k (map dev_id (devices sim)))
  /\ (forall k v, In (k, Some v) a -> In v (map srv_id (servers sim))).
Proof.
  intro H. split; [now apply (decide_keys_nodup _ _ _ _ _ _ H)|].
  pose proof (decide_entries_known _ _ _ _ _ _ H) as K. split.
  - intros k Hk. unfold dict_keys in Hk. apply in_map_iff in Hk.
    destruct Hk as [[k' v] [<- Hin]]. now apply (K k' v).
  - intros k v Hin. now apply (proj2 (K k (Some v) Hin) v).
Qed.

Lemma decide_assignment_well_formed_witness :
  exists a, decide c4_draws random c4_sim 0 = Ok (a, 1%nat)
            /\ NoDup (dict_keys a)
            /\ (forall k, In k (dict_keys a) -> In k (map dev_id (devices c4_sim))).
Proof.
  eexists. split; [reflexivity|].
  destruct (decide_assignment_well_formed c4_draws random c4_sim 0 1 _ eq_refl)
    as [H1 [H2 _]].
  now split.
Defined.

(** ** The three ratios lie between 0 and 1 *)

Lemma filtered_keys_distinct {E K : Type} (key : E -> K) (keep : E -> bool) (es : list E) :
  NoDup (map key es) -> NoDup (map key (filter keep es)).
Proof.
  intro H. induction es as [|e rest IH]; [constructor|].
  simpl in H. inversion H as [|? ? He Hrest]; subst. simpl.
  destruct (keep e); [|now apply IH].
  simpl. constructor; [|now apply IH].
  intro Hin. apply He. apply in_map_iff in Hin. destruct Hin as [y [E1 Hy]].
  apply filter_In in Hy. rewrite <- E1. apply in_map. tauto.
Qed.

Lemma nodup_map_inj {A B} (f : A -> B) (l : list A) (x y : A) :
  NoDup (map f l) -> In x l -> In y l -> f x = f y -> x = y.
Proof.
  induction l as [|z r IH]; intros H Hx Hy E; [destruct Hx|].
  simpl in H. inversion H as [|? ? Hz Hr]; subst.
  destruct Hx as [->|Hx], Hy as [->|Hy].
  - reflexivity.
  - exfalso. apply Hz. rewrite E. now apply in_map.
  - exfalso. apply Hz. rewrite <- E. now apply in_map.
  - now apply IH.
Qed.

Lemma picks_count (sim : Simulation) (q : Device -> bool) (a : Assignments) :
  NoDup (dict_keys a) ->
  (List.length (filter (picks sim q) a) <= List.length (filter q (devices sim)))%nat.
Proof.
  intro ND. set (sel := filter (picks sim q) a).
  assert (Hsel : forall e, In e sel ->
            exists d, find_device sim (fst e) = Some d /\ q d = true
                      /\ In d (devices sim) /\ dev_id d = fst e).
  { intros e He. apply filter_In in He. destruct He as [_ He].
    unfold picks in He. apply andb_true_iff in He. destruct He as [_ He].
    destruct (find_device sim (fst e)) as [d|] eqn:F; [|discriminate].
    exists d. split; [reflexivity|]. split; [exact He|].
    apply find_some in F. destruct F as [F1 F2]. apply String.eqb_eq in F2. now split. }
  assert (NDk : NoDup (map fst sel)) by now apply filtered_keys_distinct.
  assert (NDL : NoDup (map (fun e => find_device sim (fst e)) sel)).
  { apply NoDup_map_NoDup_ForallPairs; [|now apply NoDup_map_inv in NDk].
    intros x y Hx Hy E. apply (nodup_map_inj fst sel x y NDk Hx Hy).
    destruct (Hsel x Hx) as [d [F [_ [_ I]]]]. destruct (Hsel y Hy) as [d' [F' [_ [_ I']]]].
    rewrite F, F' in E. injection E as <-. congruence. }
  apply NoDup_incl_length with (l' := map Some (filter q (devices sim))) in NDL.
  - now rewrite !length_map in NDL.
  - intros o Ho. apply in_map_iff in Ho. destruct Ho as [e [<- He]].
    destruct (Hsel e He) as [d [-> [Hq [Hin _]]]].
    apply in_map. apply filter_In. now split.
Qed.

Lemma metrics_loop_counts (sim : Simulation) (a : Assignments) (t0 t : Totals) :
  foldM (metrics_step sim) a t0 = Ok t ->
  t_assigned_count t = (t_assigned_count t0 + List.length (filter has_host a))%nat
  /\ (t_deadlines_met t <= t_deadlines_met t0 + List.length (filter has_host a))%nat
  /\ t_malicious_accepted t
     = (t_malicious_accepted t0 + List.length (filter (picks sim is_malicious) a))%nat
  /\ filter has_host a = filter (picks sim (fun _ => true)) a.
Proof.
  revert t0. induction a as [|[k v] r IH]; intros t0 H.
  - injection H as <-. simpl. repeat split; lia.
  - cbn [foldM] in H. unfold metrics_step at 1 in H. cbn [snd fst] in H.
    destruct v as [v|].
    + destruct (find_device sim k) as [d|] eqn:Fd; [|discriminate].
      destruct (find_server sim v) as [s|]; [|discriminate].
      destruct (_get_dynamic_cost sim d s) as [[lat en] pt]. cbn [bind] in H.
      apply IH in H. cbn [t_assigned_count t_deadlines_met t_malicious_accepted] in H.
      destruct H as [H1 [H2 [H3 H4]]].
      assert (Eh : has_host (k, Some v) = true) by reflexivity.
      assert (Ep : forall q, picks sim q (k, Some v) = q d).
      { intro q. unfold picks. rewrite Eh. cbn [fst andb]. now rewrite Fd. }
      cbn [filter]. rewrite Eh, !Ep, <- H4. cbn [List.length].
      split; [lia|]. split.
      { destruct (meets_deadline lat pt (deadline d)); lia. }
      split; [|reflexivity].
      destruct (is_malicious d); cbn [List.length]; lia.
    + cbn [bind] in H. apply IH in H.
      assert (Eh : has_host (k, @None string) = false) by reflexivity.
      assert (Ep : forall q, picks sim q (k, None) = false)
        by (intro q; unfold picks; now rewrite Eh).
      cbn [filter]. rewrite Eh, !Ep. exact H.
Qed.

Lemma ratio_in_unit_interval (a b : nat) :
  (a <= b)%nat -> (0 < b)%nat -> unit_interval (Qnat a / Qnat b).
Proof.
  intros Hab Hb. unfold unit_interval, Qnat.
  assert (Pb : 0 < inject_Z (Z.of_nat b)).
  { change 0 with (inject_Z 0). rewrite <- Zlt_Qlt. lia. }
  assert (Pa : 0 <= inject_Z (Z.of_nat a)) by apply Qnat_nonneg.
  assert (Le : inject_Z (Z.of_nat a) <= inject_Z (Z.of_nat b)).
  { rewrite <- Zle_Qle. lia. }
  split.
  - apply Qle_shift_div_l; [exact Pb | lra].
  - apply Qle_shift_div_r; [exact Pb | lra].
Qed.

Lemma record_iteration_ratios (np_std : list Q -> Q) (sim : Simulation) (h : History)
    (a : Assignments) (sim' : Simulation) (h' : History) :
  NoDup (dict_keys a) ->
  record_iteration np_std sim h a = Ok (sim', h') ->
  exists v1 v2 v3,
    completion_ratio h' = completion_ratio h ++ [v1]
    /\ deadline_adherence h' = deadline_adherence h ++ [v2]
    /\ malicious_accepted h' = malicious_accepted h ++ [v3]
    /\ unit_interval v1 /\ unit_interval v2 /\ unit_interval v3.
Proof.
  intros ND H. unfold record_iteration in H.
  set (sim1 := update_all_trust sim a) in *.
  destruct (foldM (metrics_step sim1) a (mkTotals 0 0 0 0 0)) as [t|] eqn:Et;
    [|discriminate].
  cbn [bind] in H.
  destruct (_assign_devices_to_servers sim1 a) as [sim2|] eqn:Ea; [|discriminate].
  cbn [bind] in H. injection H as <- <-.
  destruct (assign_same_objects _ _ _ Ea) as [_ Hd].
  destruct (metrics_loop_counts _ _ _ _ Et) as [C1 [C2 [C3 C4]]].
  cbn [t_assigned_count t_deadlines_met t_malicious_accepted] in C1, C2, C3.
  pose proof (picks_count sim1 (fun _ => true) a ND) as P1.
  pose proof (picks_count sim1 is_malicious a ND) as P3.
  rewrite <- C4 in P1.
  assert (Lt : List.length (filter (fun _ : Device => true) (devices sim1))
               = List.length (devices sim1)).
  { clear. induction (devices sim1); simpl; congruence. }
  rewrite Lt in P1.
  assert (Z01 : unit_interval 0) by (split; [apply Qle_refl | discriminate]).
  eexists. eexists. eexists.
  split; [reflexivity|]. split; [reflexivity|]. split; [reflexivity|].
  cbn [completion_ratio deadline_adherence malicious_accepted]. rewrite Hd.
  split; [|split].
  - destruct (devices sim1) as [|d0 r0] eqn:Ed; [exact Z01|].
    cbn [is_empty]. apply ratio_in_unit_interval; [lia | simpl; lia].
  - destruct (0 <? t_assigned_count t)%nat eqn:E0; [|exact Z01].
    apply Nat.ltb_lt in E0. apply ratio_in_unit_interval; lia.
  - rewrite length_map.
    destruct (filter is_malicious (devices sim1)) as [|m0 r0] eqn:Em; [exact Z01|].
    cbn [map is_empty]. cbn [Nat.ltb Nat.leb].
    apply ratio_in_unit_interval; [simpl in *; lia | simpl; lia].
Qed.

Lemma replicate_first_forall (P : Q -> Prop) (l : list Q) :
  Forall P l -> Forall P (replicate_first l).
Proof.
  destruct l as [|x r]; [trivial|]. intro H. unfold replicate_first.
  apply Forall_app. split; [exact H|]. inversion H; subst. now repeat constructor.
Qed.

Lemma iteration_ratios (draws : nat -> nat) (np_std : list Q -> Q) (algorithm : Algorithm)
    (i : nat) (st st' : State) :
  iteration draws np_std algorithm i st = Ok st' ->
  ratios_in_unit_interval (st_history st) -> ratios_in_unit_interval (st_history st').
Proof.
  unfold iteration.
  destruct (decide draws algorithm (st_sim st) (st_pos st)) as [[a pos']|] eqn:Ed;
    [|discriminate].
  cbn [bind].
  destruct (match algorithm with game_theory => false | _ => (0 <? i)%nat end).
  - intros H [R1 [R2 R3]]. injection H as <-. cbn [st_history].
    repeat split; simpl; now apply replicate_first_forall.
  - destruct (record_iteration np_std (st_sim st) (st_history st) a) as [[sim' h']|] eqn:E;
      [|discriminate].
    cbn [bind]. intros H [R1 [R2 R3]]. injection H as <-. cbn [st_history].
    destruct (record_iteration_ratios _ _ _ _ _ _ (decide_keys_nodup _ _ _ _ _ _ Ed) E)
      as [v1 [v2 [v3 [E1 [E2 [E3 [U1 [U2 U3]]]]]]]].
    unfold ratios_in_unit_interval. rewrite E1, E2, E3.
    repeat split; apply Forall_app; split; trivial;
      (constructor; [assumption | constructor]).
Qed.

(** In the history of a run that returns, under every strategy, every
    recorded completion ratio, deadline adherence and malicious-acceptance
    ratio lies between 0 and 1. *)
Theorem run_ratios_in_unit_interval (draws : nat -> nat) (np_std : list Q -> Q)
    (algorithm : Algorithm) (n : nat) (sim : Simulation) (pos : nat) (st : State) :
  run draws np_std algorithm n sim pos = Ok st ->
  Forall unit_interval (completion_ratio (st_history st))
  /\ Forall unit_interval (deadline_adherence (st_history st))
  /\ Forall unit_interval (malicious_accepted (st_history st)).
Proof.
  unfold run.
  assert (G : forall k i s s',
             run_loop draws np_std algorithm k i s = Ok s' ->
             ratios_in_unit_interval (st_history s) ->
             ratios_in_unit_interval (st_history s')).
  { induction k as [|k IH]; intros i s s' H R.
    - now injection H as <-.
    - cbn [run_loop] in H.
      destruct (iteration draws np_std algorithm i s) as [s1|] eqn:E; [|discriminate].
      cbn [bind] in H. apply (IH _ _ _ H). now apply (iteration_ratios _ _ _ _ _ _ E). }
  intro H. apply (G n 0%nat _ _ H). repeat split; constructor.
Qed.

Lemma run_ratios_witness :
  exists st, run c4_draws (fun _ => 0) random 4 c4_sim 0 = Ok st
             /\ Forall unit_interval (completion_ratio (st_history st)).
Proof.
  destruct (run_loop_returns c4_draws (fun _ => 0) random 4 0
              (mkState c4_sim empty_history 0)) as [st E].
  - simpl. repeat constructor; discriminate.
  - discriminate.
  - exists st. split; [exact E|].
    exact (proj1 (run_ratios_in_unit_interval _ _ _ _ _ _ _ E)).
Defined.

(** ** The acceptance scan *)

(** A scan that starts from the set [acc] of host utility [u] and returns
    keeps [acc], adds to it some of the proposers in the order scanned, and
    ends on a set whose host utility is at least [u], and above [u] if it
    added anything.  From the empty set (utility 0) the accepted set has
    therefore a positive utility, or is empty. *)
Theorem accept_scan_keeps_order_and_improves (s : Server) (req acc acc' : list Device)
    (u : Q) :
  server_calculate_utility s acc = Ok u ->
  accept_scan s req acc u = Ok acc' ->
  exists kept u',
    subseq kept req
    /\ acc' = acc ++ kept
    /\ server_calculate_utility s acc' = Ok u'
    /\ u <= u'
    /\ (kept <> [] -> u < u').
Proof.
  revert acc u. induction req as [|d r IH]; intros acc u Hu H.
  - injection H as <-. exists [], u. rewrite app_nil_r.
    split; [constructor|]. split; [reflexivity|]. split; [exact Hu|].
    split; [apply Qle_refl | congruence].
  - cbn [accept_scan] in H.
    destruct (server_calculate_utility s (acc ++ [d])) as [u1|] eqn:E1; [|discriminate].
    cbn [bind] in H. destruct (Qltb u u1) eqn:Lt.
    + apply Qltb_true in Lt.
      destruct (IH _ _ E1 H) as [kept [u' [S1 [-> [S3 [S4 _]]]]]].
      exists (d :: kept), u'. split; [now constructor|].
      split; [now rewrite <- app_assoc|]. split; [exact S3|].
      split; [lra | intros _; lra].
    + destruct (IH _ _ Hu H) as [kept [u' [S1 [-> [S3 [S4 S5]]]]]].
      exists kept, u'. split; [now constructor|]. now repeat split.
Qed.

Lemma accept_scan_witness :
  exists acc',
    accept_scan (Mote_init "mote-0" 2.0) (devices c2_sim) [] 0 = Ok acc'
    /\ exists kept u', subseq kept (devices c2_sim) /\ acc' = [] ++ kept
                       /\ server_calculate_utility (Mote_init "mote-0" 2.0) acc' = Ok u'
                       /\ 0 <= u'.
Proof.
  eexists. split; [reflexivity|].
  destruct (accept_scan_keeps_order_and_improves (Mote_init "mote-0" 2.0)
              (devices c2_sim) [] _ 0 eq_refl eq_refl)
    as [kept [u' [H1 [H2 [H3 [H4 _]]]]]].
  exists kept, u'. now repeat split.
Defined.

(** ** The host of an item under the game-theoretic strategy *)

Section NegotiationFacts.

Variable item_utility : Device -> Server -> Q.
Variable host_utility : Server -> list Device -> result Q.

Lemma proposals_init_sound (sim : Simulation) :
  proposals_sound item_utility sim
    (fold_left (fun p srv => dict_set (srv_id srv) [] p) (servers sim) []).
Proof.
  assert (G : forall ss (p : dict (list Device)),
            (forall k l, In (k, l) p -> l = []) ->
            forall k l, In (k, l) (fold_left (fun p srv => dict_set (srv_id srv) [] p) ss p)
                        -> l = []).
  { induction ss as [|s r IH]; intros p Hp; [exact Hp|].
    simpl. apply IH. intros k l H. apply in_dict_set in H.
    destruct H as [[_ ->]|H]; [reflexivity | now apply (Hp k)]. }
  intros k l d H Hd. rewrite (G _ [] (fun k l (F : In (k, l) []) => match F with end) k l H) in Hd.
  destruct Hd.
Qed.

Lemma propose_sound (sim : Simulation) (p p' : dict (list Device)) (d : Device) :
  In d (devices sim) -> propose_to_best item_utility sim p d = Ok p' ->
  proposals_sound item_utility sim p -> proposals_sound item_utility sim p'.
Proof.
  intros Hd H P. unfold propose_to_best in H.
  destruct (fst (best_server (item_utility d) (servers sim))) as [b|] eqn:E.
  - destruct (dict_get b p) as [l|] eqn:El; [|discriminate]. injection H as <-.
    intros k l' x Hin Hx. apply in_dict_set in Hin. destruct Hin as [[-> ->]|Hin].
    + apply in_app_or in Hx. destruct Hx as [Hx|[<-|[]]].
      * apply (P b l x); [now apply dict_get_in | exact Hx].
      * now split.
    + now apply (P k l' x).
  - now injection H as <-.
Qed.

Lemma scan_requests_incl (s : Server) (req acc acc' : list Device) (u : Q) :
  scan_requests host_utility s req acc u = Ok acc' -> incl acc' (acc ++ req).
Proof.
  revert acc u. induction req as [|d r IH]; intros acc u H.
  - injection H as <-. rewrite app_nil_r. apply incl_refl.
  - cbn [scan_requests] in H.
    destruct (host_utility s (acc ++ [d])) as [u'|]; [|discriminate].
    cbn [bind] in H. destruct (Qltb u u').
    + apply IH in H. now rewrite <- app_assoc in H.
    + apply IH in H. intros x Hx. apply H in Hx. apply in_app_or in Hx.
      apply in_or_app. destruct Hx as [Hx|Hx]; [now left | right; now right].
Qed.

End NegotiationFacts.

(** With exact arithmetic the branch is [game_theory_assignments]. *)
Lemma game_theory_branch_exact (sim : Simulation) :
  game_theory_branch (proposal_utility sim) server_calculate_utility sim
  = game_theory_assignments sim.
Proof. reflexivity. Qed.

(** Whatever values the two utility expressions evaluate to (exact or
    rounded), every entry of a game-theoretic assignment maps the id of an
    item of the population to the host that item proposed to: the first
    host, in host order, at which the item's utility is maximal.  No entry
    has value [None]. *)
Theorem game_theory_assigns_proposed_host (item_utility : Device -> Server -> Q)
    (host_utility : Server -> list Device -> result Q)
    (sim : Simulation) (a : Assignments) :
  game_theory_branch item_utility host_utility sim = Ok a ->
  forall k v, In (k, v) a ->
    exists d r,
      In d (devices sim) /\ dev_id d = k
      /\ first_max (item_utility d) (servers sim) r
      /\ v = fst r /\ v <> None.
Proof.
  unfold game_theory_branch.
  destruct (foldM (propose_to_best item_utility sim) (devices sim) _) as [p|] eqn:Ep;
    [|discriminate].
  cbn [bind]. intro H.
  assert (Hp : proposals_sound item_utility sim p).
  { apply (foldM_invariant (proposals_sound item_utility sim) _ _
             (fun p0 d p1 Hin => propose_sound item_utility sim p0 p1 d Hin) _ _ Ep).
    apply proposals_init_sound. }
  set (P := fun fa : Assignments =>
              forall k v, In (k, v) fa ->
                exists d r, In d (devices sim) /\ dev_id d = k
                            /\ first_max (item_utility d) (servers sim) r
                            /\ v = fst r /\ v <> None).
  apply (foldM_invariant P (accept_requests host_utility p) (servers sim)) with (s := []);
    [|exact H | intros k v []].
  intros fa s fa' _ Ha Hfa. unfold accept_requests in Ha.
  destruct (dict_get (srv_id s) p) as [[|d0 l0]|] eqn:El; [| |discriminate].
  - now injection Ha as <-.
  - destruct (host_utility s []) as [u0|]; [|discriminate].
    cbn [bind] in Ha.
    destruct (scan_requests host_utility s (sort_by_trust (d0 :: l0)) [] u0)
      as [acc|] eqn:Ea; [|discriminate].
    cbn [bind] in Ha. injection Ha as <-.
    apply scan_requests_incl in Ea. cbn [app] in Ea.
    assert (Hacc : forall x, In x acc ->
              In x (devices sim)
              /\ fst (best_server (item_utility x) (servers sim)) = Some (srv_id s)).
    { intros x Hx. apply Ea, sort_by_trust_in in Hx.
      apply (Hp (srv_id s) (d0 :: l0) x); [now apply dict_get_in | exact Hx]. }
    clear Ea. revert fa Hfa. induction acc as [|x r IH]; intros fa Hfa; [exact Hfa|].
    simpl. apply IH; [intros y Hy; apply Hacc; now right|].
    intros k v Hin. apply in_dict_set in Hin. destruct Hin as [[-> ->]|Hin].
    + destruct (Hacc x (or_introl eq_refl)) as [Hx Hb].
      exists x, (best_server (item_utility x) (servers sim)).
      split; [exact Hx|]. split; [reflexivity|].
      split; [apply best_server_first_max|]. split; [now rewrite Hb | discriminate].
    + now apply Hfa.
Qed.

(** Two hosts, the first loaded: both items propose to the second host,
    which accepts [task-0] only. *)
Lemma game_theory_assigns_proposed_host_witness :
  game_theory_branch (proposal_utility c3_sim) server_calculate_utility c3_sim
  = Ok [("task-0"%string, Some "mote-1"%string)]
  /\ exists d r, In d (devices c3_sim) /\ dev_id d = "task-0"%string
                 /\ first_max (proposal_utility c3_sim d) (servers c3_sim) r
                 /\ Some "mote-1"%string = fst r.
Proof.
  assert (E : game_theory_branch (proposal_utility c3_sim) server_calculate_utility c3_sim
              = Ok [("task-0"%string, Some "mote-1"%string)]) by reflexivity.
  split; [exact E|].
  destruct (game_theory_assigns_proposed_host _ _ c3_sim _ E "task-0"%string
              (Some "mote-1"%string) (or_introl eq_refl))
    as [d [r [H1 [H2 [H3 [H4 _]]]]]].
  now exists d, r.
Defined.

(** ** Greedy and random place every item *)

Lemma baseline_keys (draws : nat -> nat) (algorithm : Algorithm) (sim : Simulation)
    (pos pos' : nat) (a : Assignments) :
  algorithm <> game_theory ->
  decide draws algorithm sim pos = Ok (a, pos') ->
  forall d, In d (devices sim) -> In (dev_id d) (dict_keys a).
Proof.
  intros N H. destruct algorithm; [congruence | |].
  - rewrite decide_greedy in H. injection H as <- _.
    intros d Hd. unfold greedy_assignments. apply fold_set_keys. left. now apply in_map.
  - cbn [decide] in H. revert H. generalize (@nil (string * option string)) at 1.
    revert pos. induction (devices sim) as [|x r IH]; intros pos a0 H d Hd; [destruct Hd|].
    cbn [foldM] in H. unfold baseline_step at 1 in H.
    destruct (random_choice (draws pos) (servers sim)) as [c|]; [|discriminate].
    cbn [bind] in H. destruct Hd as [->|Hd]; [|now apply (IH _ _ H)].
    assert (K : In (dev_id d) (dict_keys (dict_set (dev_id d) (Some (srv_id c)) a0)))
      by (apply dict_keys_set; now left).
    revert K H. generalize (dict_set (dev_id d) (Some (srv_id c)) a0). generalize (S pos).
    clear. induction r as [|y r IH]; intros p0 a1 K H.
    + now injection H as <- _.
    + cbn [foldM] in H. unfold baseline_step at 1 in H.
      destruct (random_choice (draws p0) (servers sim)) as [c|]; [|discriminate].
      cbn [bind] in H. apply (IH _ _ (proj2 (dict_keys_set _ _ _ _) (or_intror K)) H).
Qed.

Lemma baseline_all_hosted (draws : nat -> nat) (algorithm : Algorithm) (sim : Simulation)
    (pos pos' : nat) (a : Assignments) :
  algorithm <> game_theory -> servers sim <> [] ->
  decide draws algorithm sim pos = Ok (a, pos') ->
  forall e, In e a -> has_host e = true.
Proof.
  intros N Hs H. destruct algorithm; [congruence | |].
  - rewrite decide_greedy in H. injection H as <- _. intros [k v] Hin.
    apply (fold_set_values (greedy_choice sim) (fun v => has_host (k, v) = true))
      with (k := k) (v := v) in Hin; [exact Hin | | intros k' v' []].
    intros d _. unfold greedy_choice.
    destruct (best_server_first_max (greedy_utility sim d) (servers sim)) as [E|];
      [contradiction | reflexivity].
  - cbn [decide] in H.
    refine (foldM_invariant
              (fun st : Assignments * nat => forall e, In e (fst st) -> has_host e = true)
              (baseline_step draws random sim) (devices sim) _ ([], pos) (a, pos') H _);
      [|intros e []].
    intros [a0 p0] d [a1 p1] _ Hb Ha [k v] Hin. unfold baseline_step in Hb.
    destruct (random_choice (draws p0) (servers sim)) as [c|]; [|discriminate].
    cbn [bind] in Hb. injection Hb as <- _. cbn [fst] in *.
    apply in_dict_set in Hin. destruct Hin as [[_ ->]|Hin]; [reflexivity | now apply Ha].
Qed.

Lemma filter_all {A} (f : A -> bool) (l : list A) :
  (forall x, In x l -> f x = true) -> filter f l = l.
Proof.
  induction l as [|x r IH]; intro H; [reflexivity|].
  simpl. rewrite (H x (or_introl eq_refl)). f_equal. apply IH.
  intros y Hy. apply H. now right.
Qed.

Lemma Qnat_ratio_one (n : nat) : (0 < n)%nat -> Qnat n / Qnat n == 1.
Proof.
  intro H. apply Qmult_inv_r. unfold Qnat. intro E.
  assert (P : 0 < inject_Z (Z.of_nat n)).
  { change 0 with (inject_Z 0). rewrite <- Zlt_Qlt. lia. }
  rewrite E in P. discriminate P.
Qed.

(** With at least one host, a non-empty population and distinct item ids,
    a run of the greedy or of the random strategy returns and every
    completion ratio it records equals 1: each item is given a host. *)
Theorem baselines_assign_every_item (draws : nat -> nat) (np_std : list Q -> Q)
    (algorithm : Algorithm) (n : nat) (sim : Simulation) (pos : nat) :
  algorithm <> game_theory ->
  servers sim <> [] -> devices sim <> [] ->
  NoDup (map dev_id (devices sim)) ->
  exists st,
    run draws np_std algorithm (S n) sim pos = Ok st
    /\ List.length (completion_ratio (st_history st)) = S n
    /\ Forall (fun v => v == 1) (completion_ratio (st_history st)).
Proof.
  intros N Hs Hd ND.
  destruct (decide_baseline_ok draws algorithm sim pos N (fun _ => Hs)) as [a [pos' [Ed K]]].
  destruct (record_iteration_ok np_std sim empty_history a K)
    as [sim' [h' [t [Er [Et [Ea [Hm [_ [Hc _]]]]]]]]].
  assert (E0 : iteration draws np_std algorithm 0 (mkState sim empty_history pos)
               = Ok (mkState sim' h' pos')).
  { rewrite iteration_executed by now right.
    cbn [st_sim st_pos st_history]. rewrite Ed. cbn [bind]. rewrite Er. reflexivity. }
  destruct (assign_same_objects _ _ _ Ea) as [Ei Edev].
  assert (Hs' : algorithm = random -> servers sim' <> []).
  { intros _ Hnil. apply Hs. rewrite Hnil in Ei.
    cbn [update_all_trust servers set_devices] in Ei.
    symmetry in Ei. now apply map_eq_nil in Ei. }
  destruct (replicated_loop draws np_std algorithm h' n 1 0 (mkState sim' h' pos') N Hs')
    as [st [E [_ Eh]]]; [lia | now apply first_record_singletons |].
  exists st. split; [unfold run; cbn [run_loop]; rewrite E0; exact E|].
  (* the value recorded in iteration 0 *)
  destruct (metrics_loop_counts _ _ _ _ Et) as [C1 _]. cbn [t_assigned_count] in C1.
  rewrite (filter_all has_host a (baseline_all_hosted _ _ _ _ _ _ N Hs Ed)) in C1.
  assert (La : List.length a = List.length (devices sim)).
  { rewrite <- (length_map fst a), <- (length_map dev_id (devices sim)).
    apply Nat.le_antisymm; apply NoDup_incl_length.
    - apply (decide_keys_nodup _ _ _ _ _ _ Ed).
    - intros k Hk. apply in_map_iff in Hk. destruct Hk as [[k' v] [<- Hin]].
      apply (decide_entries_known _ _ _ _ _ _ Ed k' v Hin).
    - exact ND.
    - intros k Hk. apply in_map_iff in Hk. destruct Hk as [d [<- Hin]].
      apply (baseline_keys _ _ _ _ _ _ N Ed d Hin). }
  assert (Ld : List.length (devices sim') = List.length (devices sim)).
  { rewrite Edev. cbn [update_all_trust devices set_devices]. apply length_map. }
  assert (V : exists v, completion_ratio h' = [v] /\ v == 1).
  { eexists. split; [exact Hc|].
    destruct (devices sim') as [|x r] eqn:Ex.
    - destruct (devices sim); [congruence | discriminate Ld].
    - cbn [is_empty]. rewrite C1, La, <- Ld. apply Qnat_ratio_one. simpl. lia. }
  destruct V as [v [Ev Hv]].
  rewrite Forall_forall in Eh.
  destruct (Eh completion_ratio) as [v' [E1 E2]]; [unfold metrics; simpl; tauto|].
  rewrite Ev in E1. injection E1 as <-. rewrite E2.
  replace (1 + n)%nat with (S n) by lia.
  split; [apply repeat_length|].
  apply Forall_forall. intros x Hx. apply repeat_spec in Hx. now subst.
Qed.

Lemma baselines_assign_every_item_witness :
  NoDup (map dev_id (devices c3_sim))
  /\ exists st, run (fun _ => O) (fun _ => 0) greedy 3 c3_sim 0 = Ok st
                /\ Forall (fun v => v == 1) (completion_ratio (st_history st)).
Proof.
  assert (ND : NoDup (map dev_id (devices c3_sim))).
  { simpl. repeat constructor; simpl; intuition discriminate. }
  split; [exact ND|].
  destruct (baselines_assign_every_item (fun _ => O) (fun _ => 0) greedy 2 c3_sim 0)
    as [st [H1 [_ H2]]]; try discriminate; [exact ND|].
  exists st. split; [exact H1 | exact H2].
Defined.

(** ** The order in which a host scans its proposers *)

Lemma insert_by_trust_perm (d : Device) (l : list Device) :
  Permutation (insert_by_trust d l) (d :: l).
Proof.
  induction l as [|h t IH]; simpl; [reflexivity|].
  destruct (Qle_bool (trust_score h) (trust_score d)); [reflexivity|].
  rewrite IH. apply perm_swap.
Qed.

Lemma insert_by_trust_sorted (d : Device) (l : list Device) :
  StronglySorted trust_descending l -> StronglySorted trust_descending (insert_by_trust d l).
Proof.
  induction l as [|h t IH]; intro S; simpl.
  - repeat constructor.
  - inversion S as [|? ? St Ft]; subst.
    destruct (Qle_bool (trust_score h) (trust_score d)) eqn:E.
    + apply Qle_bool_iff in E. constructor; [exact S|].
      constructor; [exact E|].
      eapply Forall_impl; [|exact Ft]. unfold trust_descending. intros x Hx. lra.
    + assert (Lt : trust_score d < trust_score h).
      { apply Qnot_le_lt. intro Le. apply Qle_bool_iff in Le. congruence. }
      constructor; [now apply IH|].
      apply (Permutation_Forall (Permutation_sym (insert_by_trust_perm d t))).
      constructor; [unfold trust_descending; lra | exact Ft].
Qed.

Lemma insert_by_trust_stable (q : Q) (d : Device) (l : list Device) :
  filter (fun x => Qeq_bool (trust_score x) q) (insert_by_trust d l)
  = filter (fun x => Qeq_bool (trust_score x) q) (d :: l).
Proof.
  induction l as [|h t IH]; [reflexivity|].
  cbn [insert_by_trust].
  destruct (Qle_bool (trust_score h) (trust_score d)) eqn:E; [reflexivity|].
  assert (Lt : trust_score d < trust_score h).
  { apply Qnot_le_lt. intro Le. apply Qle_bool_iff in Le. congruence. }
  cbn [filter] in *. rewrite IH.
  destruct (Qeq_bool (trust_score h) q) eqn:Eh; [|reflexivity].
  destruct (Qeq_bool (trust_score d) q) eqn:Ed; [|reflexivity].
  apply Qeq_bool_eq in Eh, Ed. lra.
Qed.

(** The list a host scans is a rearrangement of its proposers in
    non-increasing trust score, and proposers of equal score keep the
    order in which they proposed. *)
Theorem sort_by_trust_is_stable_descending (l : list Device) :
  Permutation (sort_by_trust l) l
  /\ StronglySorted trust_descending (sort_by_trust l)
  /\ forall q, filter (fun x => Qeq_bool (trust_score x) q) (sort_by_trust l)
               = filter (fun x => Qeq_bool (trust_score x) q) l.
Proof.
  unfold sort_by_trust. induction l as [|d r [IH1 [IH2 IH3]]]; simpl.
  - repeat split; constructor.
  - split; [now rewrite insert_by_trust_perm, IH1|].
    split; [now apply insert_by_trust_sorted|].
    intro q. rewrite insert_by_trust_stable. cbn [filter]. now rewrite IH3.
Qed.

(** ** No item is hosted twice *)

Lemma in_assigned_to (a : Assignments) (sid k : string) :
  In k (assigned_to a sid) <-> In (k, Some sid) a.
Proof.
  unfold assigned_to. rewrite in_map_iff. split.
  - intros [[k' v] [E H]]. apply filter_In in H. destruct H as [H F].
    simpl in *. subst k'. destruct v as [v|]; [|discriminate].
    apply String.eqb_eq in F. now subst.
  - intro H. exists (k, Some sid). split; [reflexivity|].
    apply filter_In. split; [exact H | simpl; apply String.eqb_refl].
Qed.

Lemma assigned_lists_disjoint (a : Assignments) (ids : list string) :
  NoDup (dict_keys a) -> NoDup ids -> NoDup (concat (map (assigned_to a) ids)).
Proof.
  intros Na. induction ids as [|i r IH]; intro Ni; [constructor|].
  inversion Ni as [|? ? Hi Nr]; subst. simpl.
  apply NoDup_app.
  - unfold assigned_to. now apply filtered_keys_distinct.
  - now apply IH.
  - intros k Hk Hin. apply in_concat in Hin. destruct Hin as [l [Hl Hkl]].
    apply in_map_iff in Hl. destruct Hl as [j [<- Hj]].
    apply in_assigned_to in Hk, Hkl.
    pose proof (nodup_map_inj fst a _ _ Na Hk Hkl eq_refl) as E.
    injection E as ->. contradiction.
Qed.

Lemma iteration_hosted_once (draws : nat -> nat) (np_std : list Q -> Q)
    (algorithm : Algorithm) (i : nat) (st st' : State) :
  NoDup (map srv_id (servers (st_sim st))) ->
  iteration draws np_std algorithm i st = Ok st' ->
  executed algorithm i \/ hosted_once (st_sim st) ->
  hosted_once (st_sim st').
Proof.
  intros ND H X. unfold iteration in H.
  destruct (decide draws algorithm (st_sim st) (st_pos st)) as [[a pos']|] eqn:Ed;
    [|discriminate].
  cbn [bind] in H.
  destruct (match algorithm with game_theory => false | _ => (0 <? i)%nat end) eqn:R.
  - injection H as <-. cbn [st_sim]. destruct X as [[->| ->]|X]; [discriminate | | exact X].
    destruct algorithm; discriminate.
  - destruct (record_iteration np_std (st_sim st) (st_history st) a) as [[sim' h']|] eqn:E;
      [|discriminate].
    cbn [bind] in H. injection H as <-. cbn [st_sim].
    pose proof (decide_entries_known _ _ _ _ _ _ Ed) as K.
    pose proof (decide_keys_nodup _ _ _ _ _ _ Ed) as Na.
    assert (Kn : known_ids (update_all_trust (st_sim st) a) a).
    { apply known_ids_update. intros k v Hin. destruct (K k (Some v) Hin) as [A B].
      split; [exact A | now apply B]. }
    destruct (assign_servers (update_all_trust (st_sim st) a) a ND Kn)
      as [s2 [E2 [Hs [Hd _]]]].
    unfold record_iteration in E.
    destruct (foldM (metrics_step (update_all_trust (st_sim st) a)) a (mkTotals 0 0 0 0 0));
      [|discriminate].
    cbn [bind] in E. rewrite E2 in E. cbn [bind] in E. injection E as <- _.
    assert (Hh : all_hosted s2 = concat (map (assigned_to a) (map srv_id (servers (st_sim st))))).
    { unfold all_hosted. rewrite Hs. cbn [update_all_trust servers set_devices].
      now rewrite !map_map. }
    split.
    + rewrite Hh. now apply assigned_lists_disjoint.
    + intros k Hk. rewrite Hh in Hk. apply in_concat in Hk. destruct Hk as [l [Hl Hkl]].
      apply in_map_iff in Hl. destruct Hl as [j [<- Hj]]. apply in_assigned_to in Hkl.
      rewrite Hd, update_all_trust_ids. apply (K k (Some j) Hkl).
Qed.

Lemma static_ids (ss ss' : list Server) :
  map static_server ss' = map static_server ss -> map srv_id ss' = map srv_id ss.
Proof.
  intro E.
  apply (f_equal (map (fun x : ServerClass * string * Q * Q => snd (fst (fst x))))) in E.
  rewrite !map_map in E. exact E.
Qed.

(** After a run of at least one iteration, under every strategy and with
    distinct host ids, the hosts' lists hold ids of items of the population
    only and no id occurs twice, neither within one host's list nor in the
    lists of two hosts. *)
Theorem run_hosts_each_item_once (draws : nat -> nat) (np_std : list Q -> Q)
    (algorithm : Algorithm) (n : nat) (sim : Simulation) (pos : nat) (st : State) :
  NoDup (map srv_id (servers sim)) ->
  run draws np_std algorithm (S n) sim pos = Ok st ->
  NoDup (concat (map hosted (servers (st_sim st))))
  /\ forall k, In k (concat (map hosted (servers (st_sim st)))) ->
               In k (map dev_id (devices (st_sim st))).
Proof.
  intros ND H. unfold run in H.
  assert (G : forall k i s s',
             NoDup (map srv_id (servers (st_sim s))) ->
             run_loop draws np_std algorithm k i s = Ok s' ->
             (k <> 0%nat /\ i = 0%nat) \/ hosted_once (st_sim s) ->
             hosted_once (st_sim s')).
  { induction k as [|k IH]; intros i s s' Ns Hr X.
    - injection Hr as <-. destruct X as [[X _]|X]; [congruence | exact X].
    - cbn [run_loop] in Hr.
      destruct (iteration draws np_std algorithm i s) as [s1|] eqn:E; [|discriminate].
      cbn [bind] in Hr.
      assert (N1 : NoDup (map srv_id (servers (st_sim s1)))).
      { destruct (iteration_static _ _ _ _ _ _ E) as [_ [Hs _]].
        now rewrite (static_ids _ _ Hs). }
      apply (IH _ _ _ N1 Hr). right.
      apply (iteration_hosted_once _ _ _ _ _ _ Ns E).
      destruct X as [[_ ->]|X]; [left; now right | now right]. }
  apply (G (S n) 0%nat (mkState sim empty_history pos) st ND H). left. now split.
Qed.

Lemma run_hosts_each_item_once_witness :
  NoDup (map srv_id (servers c4_sim))
  /\ exists st, run c4_draws (fun _ => 0) random 2 c4_sim 0 = Ok st
                /\ NoDup (concat (map hosted (servers (st_sim st)))).
Proof.
  assert (ND : NoDup (map srv_id (servers c4_sim))).
  { simpl. repeat constructor; simpl; intuition discriminate. }
  split; [exact ND|].
  destruct (run_loop_returns c4_draws (fun _ => 0) random 2 0
              (mkState c4_sim empty_history 0)) as [st E].
  - simpl. repeat constructor; discriminate.
  - discriminate.
  - exists st. split; [exact E|].
    exact (proj1 (run_hosts_each_item_once _ _ _ _ _ _ _ ND E)).
Defined.

(** ** The load-scaled cost *)

Lemma py_sum_nonneg (xs : list Q) : Forall (fun x => 0 <= x) xs -> 0 <= py_sum xs.
Proof.
  unfold py_sum.
  assert (G : forall l a, 0 <= a -> Forall (fun x => 0 <= x) l -> 0 <= fold_left Qplus l a).
  { induction l as [|x r IH]; intros a Ha F; [exact Ha|].
    inversion F; subst. simpl. apply IH; [lra | assumption]. }
  apply G. apply Qle_refl.
Qed.

Lemma load_nonneg (sim : Simulation) (s : Server) :
  0 < capacity_cpu s ->
  Forall (fun d => 0 <= cpu_request d) (devices sim) ->
  0 <= get_current_cpu_load sim s.
Proof.
  intros Hc F. unfold get_current_cpu_load.
  destruct (Qeq_bool (capacity_cpu s) 0 || is_empty (hosted s)) eqn:E.
  - unfold is_empty in E. rewrite E. apply Qle_refl.
  - unfold is_empty in E. rewrite E.
    apply Qle_shift_div_l; [exact Hc|]. rewrite Qmult_0_l.
    apply py_sum_nonneg. rewrite Forall_map. unfold hosted_objects.
    apply Forall_forall. intros d Hd. apply in_flat_map in Hd.
    destruct Hd as [k [_ Hd]]. destruct (find_device sim k) as [x|] eqn:Fx; [|destruct Hd].
    destruct Hd as [<-|[]]. apply find_some in Fx.
    rewrite Forall_forall in F. now apply F.
Qed.

(** For a host of positive capacity, items of non-negative demand and a
    non-negative stored latency, the cost the engine works with has a
    latency at least the stored one, equal to it when the host holds
    nothing, the stored energy, and the finite processing time
    demand / capacity. *)
Theorem dynamic_cost_bounds (sim : Simulation) (d : Device) (s : Server) :
  0 < capacity_cpu s ->
  Forall (fun x => 0 <= cpu_request x) (devices sim) ->
  0 <= latency (cost_matrix sim (dev_id d) (srv_id s)) ->
  exists lat,
    _get_dynamic_cost sim d s
    = (lat, energy (cost_matrix sim (dev_id d) (srv_id s)),
       Some (cpu_request d / capacity_cpu s))
    /\ latency (cost_matrix sim (dev_id d) (srv_id s)) <= lat
    /\ (hosted s = [] -> lat == latency (cost_matrix sim (dev_id d) (srv_id s))).
Proof.
  intros Hc F Hl. unfold _get_dynamic_cost.
  assert (E : Qltb 0 (capacity_cpu s) = true) by now apply Qltb_true.
  rewrite E. eexists. split; [reflexivity|].
  pose proof (load_nonneg sim s Hc F) as L.
  split; [nra|].
  intro Hh. unfold get_current_cpu_load. rewrite Hh, orb_true_r. ring.
Qed.

Lemma dynamic_cost_bounds_witness :
  0 < capacity_cpu (Mote_init "mote-1" 2.0)
  /\ exists lat,
       _get_dynamic_cost c3_sim (SensorTask_init "task-0" 1.0 30 false)
                         (Mote_init "mote-1" 2.0)
       = (lat, 1, Some (1.0 / 2.0))
       /\ 15 <= lat.
Proof.
  assert (Hc : 0 < capacity_cpu (Mote_init "mote-1" 2.0)) by reflexivity.
  split; [exact Hc|].
  destruct (dynamic_cost_bounds c3_sim (SensorTask_init "task-0" 1.0 30 false)
              (Mote_init "mote-1" 2.0) Hc) as [lat [H1 [H2 _]]].
  - simpl. repeat constructor; discriminate.
  - discriminate.
  - exists lat. split; [exact H1 | exact H2].
Defined.

(** ** One trial *)

Lemma mean_single_row (row : list R) : np_mean_axis0 [row] = row.
Proof.
  unfold np_mean_axis0. cbn [sum_axis0 fold_left List.length INR].
  induction row as [|x r IH]; [reflexivity|].
  cbn [map]. rewrite IH. f_equal. field.
Qed.

Lemma zip_with_diagonal {A B : Type} (f : A -> A -> B) (l : list A) :
  zip_with f l l = map (fun x => f x x) l.
Proof. induction l as [|x r IH]; [reflexivity|]. cbn [zip_with map]. now rewrite IH. Qed.

Lemma std_single_row (row : list R) :
  np_std_axis0 [row] = repeat 0%R (List.length row).
Proof.
  unfold np_std_axis0. rewrite mean_single_row. cbn [map].
  rewrite mean_single_row, zip_with_diagonal, map_map.
  induction row as [|x r IH]; [reflexivity|].
  cbn [map List.length repeat]. rewrite IH. f_equal.
  replace (x - x)%R with 0%R by ring. rewrite Rsqr_0. apply sqrt_0.
Qed.

Lemma aggregate_metric_single (h : RHistory) (out : dict (list R)) (m : string)
    (col : list R) :
  dict_get m h = Some col ->
  aggregate_metric [h] out m
  = Ok (dict_set (String.append m "_std") (repeat 0%R (List.length col))
          (dict_set (String.append m "_mean") col out)).
Proof.
  intro H. unfold aggregate_metric. cbn [mapM]. unfold history_get. rewrite H.
  cbn [bind np_array forallb]. now rewrite mean_single_row, std_single_row.
Qed.

(** With a single trial the aggregator returns for any history, whatever
    metrics it holds and however long their sequences are; the [_mean]
    sequence of a metric is the trial's own sequence and the [_std]
    sequence is 0 at every iteration. *)
Theorem aggregate_single_trial (h : RHistory) :
  exists res,
    aggregate_algorithm [h] = Ok res
    /\ forall m col, dict_get m h = Some col ->
         dict_get (String.append m "_mean") res = Some col
         /\ dict_get (String.append m "_std") res
            = Some (repeat 0%R (List.length col)).
Proof.
  set (good := fun (out : dict (list R)) (m : string) (col : list R) =>
                 dict_get (String.append m "_mean") out = Some col
                 /\ dict_get (String.append m "_std") out
                    = Some (repeat 0%R (List.length col))).
  assert (G : forall ms out,
            (forall m, In m ms -> In m (dict_keys h)) ->
            exists out',
              foldM (aggregate_metric [h]) ms out = Ok out'
              /\ forall m col, dict_get m h = Some col ->
                   In m ms \/ good out m col -> good out' m col).
  { induction ms as [|m0 r IH]; intros out Hk.
    - exists out. split; [reflexivity|]. intros m col _ [[]|H]. exact H.
    - destruct (dict_get_of_key m0 h (Hk m0 (or_introl eq_refl))) as [col0 E0].
      destruct (IH (dict_set (String.append m0 "_std") (repeat 0%R (List.length col0))
                      (dict_set (String.append m0 "_mean") col0 out)))
        as [out' [E' P']]; [intros m Hm; apply Hk; now right|].
      exists out'. cbn [foldM]. rewrite (aggregate_metric_single h out m0 col0 E0).
      cbn [bind]. split; [exact E'|].
      intros m col Hm H. apply (P' m col Hm).
      destruct (string_dec m m0) as [->|N].
      + right. rewrite E0 in Hm. injection Hm as <-. split.
        * rewrite dict_get_set_other by apply mean_key_not_std_key.
          apply dict_get_set_same.
        * apply dict_get_set_same.
      + destruct H as [[H|H]|[H1 H2]]; [congruence | now left | right]. split.
        * rewrite dict_get_set_other by apply mean_key_not_std_key.
          rewrite dict_get_set_other; [exact H1|].
          intro F. apply N. now apply append_suffix_inj in F.
        * rewrite dict_get_set_other.
          -- rewrite dict_get_set_other; [exact H2|].
             intro F. symmetry in F. now apply mean_key_not_std_key in F.
          -- intro F. apply N. now apply append_suffix_inj in F. }
  destruct (G (dict_keys h) [] (fun m Hm => Hm)) as [res [E P]].
  exists res. split; [exact E|].
  intros m col Hm. apply (P m col Hm). left.
  unfold dict_keys. apply in_map_iff. exists (m, col). split; [reflexivity|].
  now apply dict_get_in.
Qed.

Lemma aggregate_single_trial_witness :
  exists res,
    aggregate_algorithm
      [[("total_energy"%string, [4; 7]%R); ("completion_ratio"%string, [1]%R)]] = Ok res
    /\ dict_get "total_energy_mean" res = Some [4; 7]%R
    /\ dict_get "total_energy_std" res = Some [0; 0]%R
    /\ dict_get "completion_ratio_mean" res = Some [1]%R.
Proof.
  destruct (aggregate_single_trial
              [("total_energy"%string, [4; 7]%R); ("completion_ratio"%string, [1]%R)])
    as [res [E P]].
  exists res. split; [exact E|].
  destruct (P "total_energy"%string [4; 7]%R eq_refl) as [A B].
  destruct (P "completion_ratio"%string [1]%R eq_refl) as [C _].
  split; [exact A|]. split; [exact B | exact C].
Defined.

(** ** [run_simulation] returns *)

Lemma full_history_complete (T : nat) (histories : list RHistory) :
  histories <> [] -> Forall (full_history T) histories ->
  dict_keys (hd [] histories) = metric_names
  /\ forall k, In k metric_names -> metric_complete histories T k.
Proof.
  intros Hn F. split.
  - destruct histories as [|h0 r]; [congruence|]. inversion F as [|? ? [h [-> _]] _]; subst.
    reflexivity.
  - intros k Hk run Hrun. rewrite Forall_forall in F.
    destruct (F run Hrun) as [h [-> L]]. rewrite Forall_forall in L.
    unfold metric_names in Hk. simpl in Hk.
    repeat (destruct Hk as [<-|Hk];
            [eexists; split; [reflexivity|]; rewrite length_map; apply L;
             unfold metrics; simpl; tauto|]).
    destruct Hk.
Qed.

Lemma runnable_after (sim sim' : Simulation) :
  same_static sim sim' -> runnable sim -> runnable sim'.
Proof.
  intros [_ [Hs _]] [H1 H2]. split.
  - now apply (static_nonempty _ _ Hs).
  - now apply (static_capacities _ _ Hs).
Qed.

Lemma run_full (draws : nat -> nat) (np_std : list Q -> Q) (algorithm : Algorithm)
    (n : nat) (sim : Simulation) (pos : nat) :
  runnable sim ->
  exists st, run draws np_std algorithm n sim pos = Ok st
             /\ runnable (st_sim st)
             /\ full_history n (to_RHistory (st_history st)).
Proof.
  intros [H1 H2].
  destruct (run_loop_returns draws np_std algorithm n 0 (mkState sim empty_history pos) H2
              (fun _ => H1)) as [st E].
  exists st. split; [exact E|]. split.
  - apply (runnable_after sim); [exact (run_loop_static _ _ _ _ _ _ _ E) | now split].
  - exists (st_history st). split; [reflexivity|].
    apply (run_loop_lengths _ _ _ n 0%nat _ _ E). apply in_metrics; reflexivity.
Qed.

Lemma run_trial_ok (draws : nat -> nat) (np_std : list Q -> Q)
    (all : Algorithm -> list RHistory) (pos : nat) (sim : Simulation) :
  runnable sim ->
  (forall algo, Forall (full_history default_iterations) (all algo)) ->
  exists all' pos',
    run_trial draws np_std (all, pos) sim = Ok (all', pos')
    /\ (forall algo, Forall (full_history default_iterations) (all' algo))
    /\ (forall algo, all' algo <> []).
Proof.
  intros Hr Hall. unfold run_trial.
  destruct (run_full draws np_std game_theory default_iterations sim pos Hr) as [g [-> [Rg Fg]]].
  cbn [bind].
  destruct (run_full draws np_std greedy default_iterations (st_sim g) (st_pos g) Rg) as [gr [-> [Rgr Fgr]]].
  cbn [bind].
  destruct (run_full draws np_std random default_iterations (st_sim gr) (st_pos gr) Rgr) as [r [-> [_ Fr]]].
  cbn [bind]. eexists. eexists. split; [reflexivity|]. split.
  - intro algo. apply Forall_app. split; [apply Hall|].
    constructor; [|constructor]. destruct algo; assumption.
  - intros algo E. now apply app_eq_nil in E.
Qed.

Lemma run_trials_ok (draws : nat -> nat) (np_std : list Q -> Q) (trials : list Simulation)
    (all : Algorithm -> list RHistory) (pos : nat) :
  Forall runnable trials ->
  (forall algo, Forall (full_history default_iterations) (all algo)) ->
  (trials = [] -> forall algo, all algo <> []) ->
  exists all' pos',
    foldM (run_trial draws np_std) trials (all, pos) = Ok (all', pos')
    /\ (forall algo, Forall (full_history default_iterations) (all' algo))
    /\ (forall algo, all' algo <> []).
Proof.
  revert all pos. induction trials as [|sim rest IH]; intros all pos Hr Hall Hne.
  - exists all, pos. split; [reflexivity|]. split; [exact Hall | now apply Hne].
  - inversion Hr as [|? ? R1 R2]; subst.
    destruct (run_trial_ok draws np_std all pos sim R1 Hall) as [all1 [pos1 [E1 [F1 N1]]]].
    cbn [foldM]. rewrite E1. cbn [bind]. apply IH; [exact R2 | exact F1 | intros _; exact N1].
Qed.

(** With no trial ([num_runs = 0]) [run_simulation] raises [IndexError]
    at [histories[0]].  With at least one trial, every trial having a host
    and hosts of non-zero capacity, it returns, and for each of the three
    algorithms and each of the eight metrics the result holds a [_mean] and
    a [_std] sequence of 50 values. *)
Theorem run_simulation_returns (draws : nat -> nat) (np_std : list Q -> Q)
    (trials : list Simulation) :
  run_simulation draws np_std [] = Raise IndexError
  /\ (trials <> [] -> Forall runnable trials ->
      exists out,
        run_simulation draws np_std trials = Ok out
        /\ forall algo name, In name metric_names ->
             exists mu sd,
               dict_get (String.append name "_mean") (out algo) = Some mu
               /\ dict_get (String.append name "_std") (out algo) = Some sd
               /\ List.length mu = 50%nat /\ List.length sd = 50%nat).
Proof.
  split; [reflexivity|]. intros Hn Hr.
  destruct (run_trials_ok draws np_std trials (fun _ => []) 0 Hr) as [all [pos [E [F N]]]].
  - intro algo. constructor.
  - intro H. congruence.
  - unfold run_simulation. rewrite E. cbn [bind].
    assert (A : forall algo, exists res,
               aggregate_algorithm (all algo) = Ok res
               /\ forall m, In m metric_names -> metric_aggregated (all algo) default_iterations m res).
    { intro algo. destruct (full_history_complete default_iterations (all algo) (N algo) (F algo)) as [K C].
      destruct (aggregate_algorithm_ok (all algo) default_iterations (N algo)) as [res [Er P]].
      - rewrite K. exact C.
      - exists res. split; [exact Er|]. rewrite K in P. exact P. }
    destruct (A game_theory) as [g [Eg Pg]].
    destruct (A greedy) as [gr [Egr Pgr]].
    destruct (A random) as [r [Er Pr]].
    eexists. split; [unfold aggregate; rewrite Eg, Egr, Er; reflexivity|].
    intros algo name Hname.
    assert (M : metric_aggregated (all algo) default_iterations name
                  (match algo with game_theory => g | greedy => gr | random => r end))
      by (destruct algo; [apply Pg | apply Pgr | apply Pr]; exact Hname).
    destruct M as [mu [sd [G1 [G2 [L1 [L2 _]]]]]]. now exists mu, sd.
Qed.

Lemma run_simulation_returns_witness :
  Forall runnable [c4_sim; c2_sim]
  /\ exists out mu,
       run_simulation c4_draws (fun _ => 0) [c4_sim; c2_sim] = Ok out
       /\ dict_get "completion_ratio_mean" (out random) = Some mu
       /\ List.length mu = 50%nat.
Proof.
  assert (Hr : Forall runnable [c4_sim; c2_sim]).
  { repeat constructor; simpl; discriminate. }
  split; [exact Hr|].
  destruct (proj2 (run_simulation_returns c4_draws (fun _ => 0) [c4_sim; c2_sim]))
    as [out [E P]]; [discriminate | exact Hr |].
  destruct (P random "completion_ratio"%string) as [mu [sd [G1 [_ [L _]]]]];
    [simpl; tauto|].
  exists out, mu. split; [exact E|]. split; [exact G1 | exact L].
Defined.

Lemma run_preserves_static_data_witness :
  exists st, run c4_draws (fun _ => 0) random 3 c4_sim 0 = Ok st
             /\ map static_server (servers (st_sim st)) = map static_server (servers c4_sim).
Proof.
  destruct (run_loop_returns c4_draws (fun _ => 0) random 3 0
              (mkState c4_sim empty_history 0)) as [st E].
  - simpl. repeat constructor; discriminate.
  - discriminate.
  - exists st. split; [exact E|].
    exact (proj1 (proj2 (run_preserves_static_data _ _ _ _ _ _ _ E))).
Defined.

(** ** Materialisation does not depend on what the hosts held *)

(** The result of materialising an assignment is the same whatever the
    hosts' lists held before, and materialising the same assignment again
    changes nothing. *)
Theorem assign_forgets_previous_hosting (sim : Simulation) (a : Assignments)
    (hs : Server -> list string) :
  _assign_devices_to_servers
    (set_servers sim (map (fun s => set_hosted s (hs s)) (servers sim))) a
  = _assign_devices_to_servers sim a
  /\ forall sim', _assign_devices_to_servers sim a = Ok sim' ->
                  _assign_devices_to_servers sim' a = Ok sim'.
Proof.
  assert (G : forall s1 s2 : Simulation,
             devices s1 = devices s2 -> cost_matrix s1 = cost_matrix s2 ->
             map (fun s => set_hosted s []) (servers s1)
             = map (fun s => set_hosted s []) (servers s2) ->
             _assign_devices_to_servers s1 a = _assign_devices_to_servers s2 a).
  { intros s1 s2 Hd Hc Hs. unfold _assign_devices_to_servers, set_servers.
    now rewrite Hd, Hc, Hs. }
  split.
  - apply G; try reflexivity. simpl. rewrite map_map. now apply map_ext.
  - intros sim' H. rewrite <- H. apply G.
    + apply assign_same_objects in H. apply H.
    + unfold _assign_devices_to_servers in H. injection H as <-.
      exact (proj2 (proj2 (fold_assign_static a _))).
    + unfold _assign_devices_to_servers in H. injection H as <-.
      destruct (fold_assign_static a
                  (set_servers sim (map (fun s => set_hosted s []) (servers sim))))
        as [_ [Hs _]].
      cbn [servers set_servers] in Hs. rewrite map_map in Hs.
      assert (R : forall l l' : list Server,
                 map static_server l = map static_server l' ->
                 map (fun s => set_hosted s []) l = map (fun s => set_hosted s []) l').
      { induction l as [|x l IH]; intros [|y l'] E; try discriminate; [reflexivity|].
        simpl in E. injection E as E1 E2 E3 E4 E5. simpl. f_equal; [|now apply IH].
        unfold set_hosted. now rewrite E1, E2, E3, E4. }
      apply R. rewrite Hs. now apply map_ext.
Qed.

Lemma assign_forgets_previous_hosting_witness :
  exists sim',
    _assign_devices_to_servers c3_sim [("task-0"%string, Some "mote-1"%string)] = Ok sim'
    /\ _assign_devices_to_servers sim' [("task-0"%string, Some "mote-1"%string)] = Ok sim'.
Proof.
  eexists. split; [reflexivity|].
  apply (proj2 (assign_forgets_previous_hosting c3_sim
                  [("task-0"%string, Some "mote-1"%string)] (fun _ => []))).
  reflexivity.
Defined.

(** ** The game-theoretic strategy without hosts *)

Lemma not_assigned_updates_trust (n : nat) (d : Device) :
  trust_score (Nat.iter n (fun x => update_trust_score x false) d)
  = Nat.iter n (fun t => t * 0.995) (trust_score d).
Proof.
  induction n as [|n IH]; [reflexivity|].
  rewrite !Nat.iter_succ. now rewrite trust_not_assigned, IH.
Qed.

Lemma game_theory_loop_no_hosts (draws : nat -> nat) (np_std : list Q -> Q)
    (n i : nat) (s : State) :
  servers (st_sim s) = [] ->
  exists s',
    run_loop draws np_std game_theory n i s = Ok s'
    /\ servers (st_sim s') = []
    /\ devices (st_sim s')
       = map (Nat.iter n (fun x => update_trust_score x false)) (devices (st_sim s))
    /\ (Forall (fun v => v == 0) (completion_ratio (st_history s)) ->
        Forall (fun v => v == 0) (completion_ratio (st_history s'))).
Proof.
  revert i s. induction n as [|n IH]; intros i s Hs.
  - exists s. split; [reflexivity|]. split; [exact Hs|]. split; [|trivial].
    cbn [Nat.iter]. now rewrite map_id.
  - destruct (record_iteration_ok np_std (st_sim s) (st_history s) [] (known_ids_nil _))
      as [sim' [h' [t [Er [Et [Ea [_ [_ [Hc _]]]]]]]]].
    injection Et as <-. cbn [t_assigned_count] in Hc.
    assert (E : iteration draws np_std game_theory i s = Ok (mkState sim' h' (st_pos s))).
    { rewrite iteration_executed by now left.
      cbn [decide]. rewrite (game_theory_no_hosts _ Hs). cbn [bind]. now rewrite Er. }
    destruct (assign_same_objects _ _ _ Ea) as [Hi _].
    assert (Hs' : servers sim' = []).
    { cbn [update_all_trust servers set_devices] in Hi. rewrite Hs in Hi.
      now apply map_eq_nil in Hi. }
    destruct (IH (S i) (mkState sim' h' (st_pos s)) Hs') as [s' [E' [S1 [S2 S3]]]].
    exists s'. cbn [run_loop]. rewrite E. cbn [bind]. split; [exact E'|].
    split; [exact S1|]. split.
    + rewrite S2. cbn [st_sim]. rewrite (record_iteration_devices _ _ _ _ _ _ Er), map_map.
      apply map_ext. intro d. now rewrite Nat.iter_succ_r.
    + intro F. apply S3. cbn [st_history]. rewrite Hc. apply Forall_app. split; [exact F|].
      constructor; [|constructor].
      destruct (is_empty (devices sim')); [reflexivity | apply Qmult_0_l].
Qed.

(** With no host, a game-theoretic run of [n] iterations returns; no item
    is ever assigned, so every completion ratio recorded is 0 and every
    item's score has been multiplied by 0.995 [n] times. *)
Theorem game_theory_without_hosts_decays (draws : nat -> nat) (np_std : list Q -> Q)
    (n : nat) (sim : Simulation) (pos : nat) :
  servers sim = [] ->
  exists st,
    run draws np_std game_theory n sim pos = Ok st
    /\ map trust_score (devices (st_sim st))
       = map (fun d => Nat.iter n (fun t => t * 0.995) (trust_score d)) (devices sim)
    /\ Forall (fun v => v == 0) (completion_ratio (st_history st)).
Proof.
  intro Hs.
  destruct (game_theory_loop_no_hosts draws np_std n 0 (mkState sim empty_history pos) Hs)
    as [st [E [_ [Hd Hc]]]].
  exists st. split; [exact E|]. split.
  - rewrite Hd. cbn [st_sim]. rewrite map_map. apply map_ext.
    intro d. apply not_assigned_updates_trust.
  - apply Hc. constructor.
Qed.

Lemma game_theory_without_hosts_witness :
  servers c10_sim = []
  /\ exists st,
       run (fun _ => O) (fun _ => 0) game_theory 2 c10_sim 0 = Ok st
       /\ map trust_score (devices (st_sim st)) = [1.0 * 0.995 * 0.995; 0.1 * 0.995 * 0.995].
Proof.
  split; [reflexivity|].
  destruct (game_theory_without_hosts_decays (fun _ => O) (fun _ => 0) 2 c10_sim 0 eq_refl)
    as [st [E [Hd _]]].
  exists st. split; [exact E | exact Hd].
Defined.

(** ** The average trust scores recorded *)

Lemma np_mean_positive_capped (l : list Q) :
  l <> [] -> Forall positive_capped l -> positive_capped (np_mean l).
Proof.
  intros Hn F. unfold np_mean, py_sum, Qlen.
  assert (G : forall xs a (k : nat),
             Forall positive_capped xs -> 0 <= a -> a <= inject_Z (Z.of_nat k) ->
             a <= fold_left Qplus xs a
             /\ (xs <> [] -> a < fold_left Qplus xs a)
             /\ fold_left Qplus xs a <= inject_Z (Z.of_nat (k + List.length xs))).
  { induction xs as [|x r IH]; intros a k Fx Ha Hk.
    - simpl. rewrite Nat.add_0_r. split; [apply Qle_refl|]. split; [congruence | exact Hk].
    - inversion Fx as [|? ? [P1 P2] Fr]; subst. simpl fold_left.
      destruct (IH (a + x) (S k) Fr) as [I1 [_ I3]]; [lra | |].
      + rewrite Qnat_S. lra.
      + split; [lra|]. split; [intros _; lra|].
        simpl List.length. now replace (k + S (List.length r))%nat
                              with (S k + List.length r)%nat by lia. }
  destruct (G l 0 0%nat F (Qle_refl 0) (Qle_refl 0)) as [_ [G2 G3]].
  specialize (G2 Hn). simpl in G3.
  assert (P : 0 < inject_Z (Z.of_nat (List.length l))).
  { change 0 with (inject_Z 0). rewrite <- Zlt_Qlt. destruct l; [congruence | simpl; lia]. }
  split.
  - apply Qlt_shift_div_l; [exact P | lra].
  - apply Qle_shift_div_r; [exact P | lra].
Qed.

Lemma record_iteration_avg_trust (np_std : list Q -> Q) (sim : Simulation) (h : History)
    (a : Assignments) (sim' : Simulation) (h' : History) :
  Forall (fun d => positive_capped (trust_score d)) (devices sim) ->
  record_iteration np_std sim h a = Ok (sim', h') ->
  exists v1 v2,
    avg_trust_honest h' = avg_trust_honest h ++ [v1]
    /\ avg_trust_malicious h' = avg_trust_malicious h ++ [v2]
    /\ positive_capped v1 /\ positive_capped v2.
Proof.
  intros F H.
  assert (F' : Forall (fun d => positive_capped (trust_score d)) (devices sim')).
  { rewrite (record_iteration_devices _ _ _ _ _ _ H), Forall_map.
    eapply Forall_impl; [|exact F]. intros d Hd. now apply update_keeps_positive_capped. }
  unfold record_iteration in H.
  destruct (foldM (metrics_step (update_all_trust sim a)) a (mkTotals 0 0 0 0 0));
    [|discriminate].
  cbn [bind] in H.
  destruct (_assign_devices_to_servers (update_all_trust sim a) a) as [sim2|];
    [|discriminate].
  cbn [bind] in H. injection H as <- <-.
  assert (M : forall p : Device -> bool, forall dflt,
             positive_capped dflt ->
             positive_capped
               (if is_empty (map trust_score (filter p (devices sim2)))
                then dflt else np_mean (map trust_score (filter p (devices sim2))))).
  { intros p dflt Hdf.
    destruct (map trust_score (filter p (devices sim2))) as [|x r] eqn:E; [exact Hdf|].
    cbn [is_empty]. rewrite <- E. apply np_mean_positive_capped; [rewrite E; discriminate|].
    rewrite Forall_map. apply Forall_forall. intros d Hd. apply filter_In in Hd.
    rewrite Forall_forall in F'. now apply F'. }
  eexists. eexists. split; [reflexivity|]. split; [reflexivity|].
  split; apply M; split; (reflexivity || discriminate).
Qed.

(** If every item starts with a score in (0, 1.0], every average honest
    and every average malicious trust score in the history of a run lies in
    (0, 1.0], the defaults recorded for an empty subpopulation included. *)
Theorem run_average_trust_positive_capped (draws : nat -> nat) (np_std : list Q -> Q)
    (algorithm : Algorithm) (n : nat) (sim : Simulation) (pos : nat) (st : State) :
  Forall (fun d => 0 < trust_score d <= 1.0) (devices sim) ->
  run draws np_std algorithm n sim pos = Ok st ->
  Forall (fun v => 0 < v <= 1.0) (avg_trust_honest (st_history st))
  /\ Forall (fun v => 0 < v <= 1.0) (avg_trust_malicious (st_history st)).
Proof.
  unfold run. intros F H.
  assert (G : forall k i s s',
             run_loop draws np_std algorithm k i s = Ok s' ->
             Forall (fun d => positive_capped (trust_score d)) (devices (st_sim s)) ->
             Forall positive_capped (avg_trust_honest (st_history s))
             /\ Forall positive_capped (avg_trust_malicious (st_history s)) ->
             Forall positive_capped (avg_trust_honest (st_history s'))
             /\ Forall positive_capped (avg_trust_malicious (st_history s'))).
  { induction k as [|k IH]; intros i s s' Hr Fd Fh.
    - now injection Hr as <-.
    - cbn [run_loop] in Hr.
      destruct (iteration draws np_std algorithm i s) as [s1|] eqn:E; [|discriminate].
      cbn [bind] in Hr.
      apply (IH _ _ _ Hr); [exact (iteration_keeps_trust _ _ _ _ _ _ E Fd)|].
      unfold iteration in E.
      destruct (decide draws algorithm (st_sim s) (st_pos s)) as [[a pos']|]; [|discriminate].
      cbn [bind] in E.
      destruct (match algorithm with game_theory => false | _ => (0 <? i)%nat end).
      + injection E as <-. cbn [st_history replicate_history avg_trust_honest
                                 avg_trust_malicious].
        destruct Fh as [F1 F2]. split; now apply replicate_first_forall.
      + destruct (record_iteration np_std (st_sim s) (st_history s) a) as [[x y]|] eqn:Er;
          [|discriminate].
        cbn [bind] in E. injection E as <-. cbn [st_history].
        destruct (record_iteration_avg_trust _ _ _ _ _ _ Fd Er)
          as [v1 [v2 [E1 [E2 [P1 P2]]]]].
        rewrite E1, E2. destruct Fh as [F1 F2].
        split; apply Forall_app; split; trivial; (constructor; [assumption | constructor]). }
  apply (G n 0%nat _ _ H F). split; constructor.
Qed.

Lemma run_average_trust_witness :
  Forall (fun d => 0 < trust_score d <= 1.0) (devices c10_sim)
  /\ exists st, run (fun _ => O) (fun _ => 0) greedy 3 c10_sim 0 = Ok st
                /\ Forall (fun v => 0 < v <= 1.0) (avg_trust_honest (st_history st)).
Proof.
  assert (F : Forall (fun d => 0 < trust_score d <= 1.0) (devices c10_sim)).
  { simpl. repeat constructor; simpl; lra. }
  split; [exact F|].
  destruct (run_loop_returns (fun _ => O) (fun _ => 0) greedy 3 0
              (mkState c10_sim empty_history 0)) as [st E].
  - simpl. constructor.
  - discriminate.
  - exists st. split; [exact E|].
    exact (proj1 (run_average_trust_positive_capped _ _ _ _ _ _ _ F E)).
Defined.

(** ** C4: hosted lists and the assignment of the iteration *)

Lemma map_eq_related {A B : Type} (f : A -> B) (l l' : list A) :
  map f l' = map f l -> Forall2 (fun x y => f y = f x) l l'.
Proof.
  revert l'. induction l as [|x r IH]; intros [|y r'] H; try discriminate H; constructor.
  - now injection H.
  - apply IH. now injection H.
Qed.

Lemma best_server_related (f g : Server -> Q) (ss ss' : list Server) :
  Forall2 (fun s s' => srv_id s' = srv_id s /\ g s' = f s) ss ss' ->
  best_server g ss' = best_server f ss.
Proof.
  unfold best_server. generalize (@None string, @None Q).
  intros acc H. revert acc.
  induction H as [|s s' r r' [Ei Ef] _ IH]; intro acc; [reflexivity|].
  simpl. rewrite Ei, Ef. apply IH.
Qed.

(** The greedy assignment is a function of the fields that a run leaves
    untouched. *)
Lemma greedy_assignments_static (sim sim' : Simulation) :
  same_static sim sim' -> greedy_assignments sim' = greedy_assignments sim.
Proof.
  intros [Hd [Hs Hc]]. unfold greedy_assignments.
  apply map_eq_related in Hd. apply map_eq_related in Hs.
  assert (G : forall d d', static_device d' = static_device d ->
                greedy_choice sim' d' = greedy_choice sim d).
  { intros d d' E. unfold static_device in E. injection E as _ Ei _ El Ee _ _.
    unfold greedy_choice. f_equal. apply best_server_related.
    eapply Forall2_impl; [|exact Hs].
    intros s s' Es. unfold static_server in Es. injection Es as _ Es _ _.
    split; [exact Es|].
    unfold greedy_utility, device_calculate_utility.
    now rewrite Hc, Ei, El, Ee, Es. }
  generalize (@nil (string * option string)).
  induction Hd as [|d d' r r' Ed _ IH]; intro a; [reflexivity|].
  simpl. rewrite (G d d' Ed).
  assert (Ei : dev_id d' = dev_id d)
    by (unfold static_device in Ed; now injection Ed).
  rewrite Ei. apply IH.
Qed.

Lemma replicated_loop_sim (draws : nat -> nat) (np_std : list Q -> Q)
    (algorithm : Algorithm) (n i : nat) (st st' : State) :
  algorithm <> game_theory -> (0 < i)%nat ->
  run_loop draws np_std algorithm n i st = Ok st' -> st_sim st' = st_sim st.
Proof.
  intro N. revert i st. induction n as [|n IH]; intros i st Hi H.
  - now injection H as <-.
  - cbn [run_loop] in H. rewrite (iteration_replicated _ _ _ _ _ N Hi) in H.
    destruct (decide draws algorithm (st_sim st) (st_pos st)) as [[a pos']|];
      [|discriminate H].
    cbn [bind] in H. apply IH in H; [exact H | lia].
Qed.

Lemma decide_returns_known (draws : nat -> nat) (algorithm : Algorithm) (sim : Simulation)
    (pos : nat) :
  (algorithm = game_theory -> Forall (fun s => ~ capacity_cpu s == 0) (servers sim)) ->
  (algorithm = random -> servers sim <> []) ->
  exists a pos', decide draws algorithm sim pos = Ok (a, pos') /\ known_ids sim a.
Proof.
  intros Hc Hr.
  destruct algorithm.
  - apply decide_ok; [now apply Hc | discriminate].
  - apply decide_baseline_ok; [discriminate | exact Hr].
  - apply decide_baseline_ok; [discriminate | exact Hr].
Qed.

(** An iteration that runs the materialisation leaves every host with the
    items that the assignment of this iteration maps to it. *)
Lemma executed_iteration_hosted (draws : nat -> nat) (np_std : list Q -> Q)
    (algorithm : Algorithm) (i : nat) (st : State) :
  executed algorithm i ->
  NoDup (map srv_id (servers (st_sim st))) ->
  (algorithm = game_theory ->
   Forall (fun s => ~ capacity_cpu s == 0) (servers (st_sim st))) ->
  (algorithm = random -> servers (st_sim st) <> []) ->
  exists a st',
    decide draws algorithm (st_sim st) (st_pos st) = Ok (a, st_pos st')
    /\ iteration draws np_std algorithm i st = Ok st'
    /\ servers (st_sim st')
       = map (fun s => set_hosted s (assigned_to a (srv_id s))) (servers (st_sim st)).
Proof.
  intros X ND Hc Hr.
  destruct (decide_returns_known draws algorithm (st_sim st) (st_pos st) Hc Hr)
    as [a [pos' [Ed K]]].
  destruct (record_iteration_ok np_std (st_sim st) (st_history st) a K)
    as [sim' [h' [t [Er [_ [Ea _]]]]]].
  exists a, (mkState sim' h' pos'). split; [exact Ed|]. split.
  - rewrite (iteration_executed _ _ _ _ _ X), Ed. cbn [bind]. rewrite Er. reflexivity.
  - cbn [st_sim].
    destruct (assign_servers (update_all_trust (st_sim st) a) a) as [s2 [E2 [Hs _]]].
    + exact ND.
    + now apply known_ids_update.
    + rewrite Ea in E2. injection E2 as <-. exact Hs.
Qed.

Lemma hosted_as_assigned (a : Assignments) (ss : list Server) :
  Forall (fun s => hosted s = assigned_to a (srv_id s))
         (map (fun s => set_hosted s (assigned_to a (srv_id s))) ss).
Proof. rewrite Forall_map. apply Forall_forall. intros s _. reflexivity. Qed.

Lemma set_hosted_ids (hs : Server -> list string) (ss : list Server) :
  map srv_id (map (fun s => set_hosted s (hs s)) ss) = map srv_id ss.
Proof. rewrite map_map. now apply map_ext. Qed.

(** C4, as the code decides it.  Take a run from any state with distinct
    host ids (hosts of non-zero capacity for the game-theoretic strategy,
    at least one host for random) and the state [st] it reaches after [i]
    iterations.  Iteration [i] computes an assignment [a] and returns.
    Under the game-theoretic and the greedy strategy at every [i], and
    under random at [i = 0], every host's [hosted] list is then exactly the
    items that [a] maps to it: the game-theoretic strategy rebuilds the
    lists in every iteration, greedy recomputes at [i > 0] the assignment
    of iteration 0, which the lists still hold.  In an iteration that only
    replicates (greedy and random at [i > 0]) the objects are left as they
    were. *)
Theorem C4_hosted_lists_match_assignment (draws : nat -> nat) (np_std : list Q -> Q)
    (algorithm : Algorithm) (i : nat) (st0 st : State) :
  NoDup (map srv_id (servers (st_sim st0))) ->
  (algorithm = game_theory ->
   Forall (fun s => ~ capacity_cpu s == 0) (servers (st_sim st0))) ->
  (algorithm = random -> servers (st_sim st0) <> []) ->
  run_loop draws np_std algorithm i 0 st0 = Ok st ->
  exists a st',
    decide draws algorithm (st_sim st) (st_pos st) = Ok (a, st_pos st')
    /\ iteration draws np_std algorithm i st = Ok st'
    /\ map srv_id (servers (st_sim st')) = map srv_id (servers (st_sim st0))
    /\ (algorithm <> random \/ i = O ->
          Forall (fun s => hosted s = assigned_to a (srv_id s)) (servers (st_sim st')))
    /\ (~ executed algorithm i -> st_sim st' = st_sim st).
Proof.
  intros ND Hc Hr Hrun.
  pose proof (run_loop_static _ _ _ _ _ _ _ Hrun) as Hst.
  destruct Hst as [Hsd [Hss Hsc]].
  assert (Hids : map srv_id (servers (st_sim st)) = map srv_id (servers (st_sim st0)))
    by now apply static_ids.
  assert (ND' : NoDup (map srv_id (servers (st_sim st)))) by now rewrite Hids.
  assert (Hc' : algorithm = game_theory ->
                Forall (fun s => ~ capacity_cpu s == 0) (servers (st_sim st)))
    by (intro E; apply (static_capacities _ _ Hss), Hc, E).
  assert (Hr' : algorithm = random -> servers (st_sim st) <> [])
    by (intro E; apply (static_nonempty _ _ Hss), Hr, E).
  assert (X : executed algorithm i \/ (algorithm <> game_theory /\ (0 < i)%nat)).
  { unfold executed. destruct algorithm, i;
      first [ left; left; reflexivity
            | left; right; reflexivity
            | right; split; [discriminate | lia] ]. }
  destruct X as [X|[X1 X2]].
  - destruct (executed_iteration_hosted draws np_std algorithm i st X ND' Hc' Hr')
      as [a [st' [Ed [Ei Es]]]].
    exists a, st'. split; [exact Ed|]. split; [exact Ei|]. rewrite Es. split.
    + now rewrite set_hosted_ids.
    + split; [intros _; apply hosted_as_assigned | intro N; contradiction].
  - destruct (decide_baseline_ok draws algorithm (st_sim st) (st_pos st) X1 Hr')
      as [a [pos' [Ed _]]].
    exists a, (mkState (st_sim st) (replicate_history (st_history st)) pos').
    split; [exact Ed|]. split.
    { rewrite (iteration_replicated _ _ _ _ _ X1 X2), Ed. reflexivity. }
    split; [exact Hids|]. split; [|reflexivity].
    intros [Ha|Hi]; [|lia]. cbn [st_sim].
    assert (Eg : algorithm = greedy) by (destruct algorithm; congruence).
    subst algorithm.
    destruct i as [|k]; [lia|]. cbn [run_loop] in Hrun.
    destruct (executed_iteration_hosted draws np_std greedy 0 st0 (or_intror eq_refl)
                ND Hc Hr) as [a0 [st1 [Ed0 [Ei0 Es0]]]].
    rewrite Ei0 in Hrun. cbn [bind] in Hrun.
    apply replicated_loop_sim in Hrun; [|discriminate | lia].
    rewrite decide_greedy in Ed, Ed0.
    injection Ed as <- _. injection Ed0 as <- _.
    rewrite (greedy_assignments_static (st_sim st0) (st_sim st))
      by (split; [exact Hsd | split; [exact Hss | exact Hsc]]).
    rewrite Hrun, Es0. apply hosted_as_assigned.
Qed.

(** Greedy at iteration 2: the lists were written in iteration 0 and
    agree with the assignment that iteration 2 computes. *)
Lemma C4_witness :
  NoDup (map srv_id (servers c3_sim))
  /\ exists st a st',
       run_loop c4_draws (fun _ => 0) greedy 2 0 (mkState c3_sim empty_history 0) = Ok st
       /\ decide c4_draws greedy (st_sim st) (st_pos st) = Ok (a, st_pos st')
       /\ iteration c4_draws (fun _ => 0) greedy 2 st = Ok st'
       /\ Forall (fun s => hosted s = assigned_to a (srv_id s)) (servers (st_sim st')).
Proof.
  assert (ND : NoDup (map srv_id (servers c3_sim))).
  { simpl. repeat constructor; simpl; intuition discriminate. }
  split; [exact ND|].
  destruct (run_loop_returns c4_draws (fun _ => 0) greedy 2 0
              (mkState c3_sim empty_history 0)) as [st E].
  - simpl. repeat constructor; discriminate.
  - discriminate.
  - destruct (C4_hosted_lists_match_assignment c4_draws (fun _ => 0) greedy 2
                (mkState c3_sim empty_history 0) st ND)
      as [a [st' [H1 [H2 [_ [H3 _]]]]]].
    + discriminate.
    + discriminate.
    + exact E.
    + exists st, a, st'. split; [exact E|]. split; [exact H1|]. split; [exact H2|].
      apply H3. left. discriminate.
Defined.

(** C4 as stated fails for iteration 1 of the random strategy: the
    assignment computed in iteration 1 maps the item to the second host,
    while after that iteration the first host still holds the item and the
    second holds nothing. *)
Lemma C4_counterexample :
  exists st1 a st2,
    iteration c4_draws (fun _ => 0) random 0 (mkState c4_sim empty_history 0) = Ok st1
    /\ iteration c4_draws (fun _ => 0) random 1 st1 = Ok st2
    /\ a = [("task-0"%string, Some "mote-1"%string)]
    /\ decide c4_draws random (st_sim st1) (st_pos st1) = Ok (a, st_pos st2)
    /\ map (fun s => (srv_id s, hosted s)) (servers (st_sim st2))
       = [("mote-0"%string, ["task-0"%string]); ("mote-1"%string, [])].
Proof.
  eexists. eexists. eexists.
  split; [reflexivity|]. split; [reflexivity|]. split; [reflexivity|].
  split; reflexivity.
Qed.
